(** * Treasure Hunter mobile client: discovery, decoding and progression

    A shallow embedding of the parts of the client that carry its
    logic: the Redux slices for the hunter profile and the treasures
    ([store/slices/hunterSlice.ts], [store/slices/treasureSlice.ts]), the
    helpers of [hooks/useProfile.ts], the dashboard gate of
    [app/(tabs)/index.tsx], the Sui wallet service
    ([services/SuiService.ts]) with the treasures it keeps on the device,
    the NFC / QR payload decoders and the NFC session
    ([services/NFCService.ts], [services/AlternativeNFCService.ts]).

    Conventions.
    - A JavaScript number is an IEEE-754 binary64 value ([PrimFloat]):
      the levels, experience and counters of the hunter slice, the
      statistics of the treasure slice, a distance, a balance.  [whole z]
      is the double of the whole number [z]; sums, differences and
      products of whole numbers are exact below 2^53.
    - The helpers that only subtract a count from a small constant
      ([getNextRankRequirement]) are stated over [Z].
    - A [while] loop over doubles need not end: it is run with a bound on
      its rounds, and [None] says that the bound was reached.
    - A JavaScript string is modelled by the [string] of its UTF-8 bytes.
    - What [JSON.parse] returns is a value of any shape ([JS.Value]); the
      number conversions and the error texts of the runtime, the NFC
      library and [TextDecoder] are parameters of the decoders.
    - A reducer written against an Immer draft is a function from state to
      state; [new Date().toISOString()] is an explicit argument.
    - A [throw] is the [Err] constructor of [result].
    - An [async] method is a program over the requests it awaits, each
      answered by an environment; a property of every run is proved for
      every environment. *)

From Stdlib Require Import ZArith String Ascii List Bool Lia Floats DecimalString.
From stdpp Require Import base strings list gmap.

(* A decimal literal denotes the nearest double, as in the source. *)
Set Warnings "-inexact-float,-notation-for-abbreviation,-register-all,-clear-no-such-hyp".

Local Open Scope string_scope.
Local Open Scope Z_scope.

(** ** Results of code that may throw *)

Inductive result (A : Type) : Type :=
| Ok (a : A)
| Err (message : string).
Arguments Ok {A} a.
Arguments Err {A} message.

Definition is_ok {A} (r : result A) : bool :=
  match r with Ok _ => true | Err _ => false end.

(** ** Whole numbers as doubles *)

(** The double of a whole number below 2^63. *)
Definition whole (z : Z) : float := PrimFloat.of_uint63 (Uint63.of_Z z).

(** The representation of a whole number from 0 to 2^53 - 1: the
    mantissa is scaled to 53 binary digits. *)
Definition canon (z : Z) : spec_float :=
  match z with
  | Zpos p =>
      let d := Zpos (digits2_pos p) in
      S754_finite false (Z.to_pos (Zpos p * 2 ^ (53 - d))) (d - 53)
  | _ => S754_zero false
  end.

(** ** [String.prototype.toLowerCase] and [String.prototype.includes]

    Only the ASCII letters are folded: no other character lower-cases to
    a letter of the rank names compared below. *)

Definition lower_ascii (c : ascii) : ascii :=
  let n := N_of_ascii c in
  if ((65 <=? n) && (n <=? 90))%N then ascii_of_N (n + 32) else c.

Fixpoint toLowerCase (s : string) : string :=
  match s with
  | EmptyString => EmptyString
  | String c r => String (lower_ascii c) (toLowerCase r)
  end.

Fixpoint startsWith (p s : string) : bool :=
  match p, s with
  | EmptyString, _ => true
  | String a p', String b s' => if Ascii.eqb a b then startsWith p' s' else false
  | String _ _, EmptyString => false
  end.

Fixpoint includes (s needle : string) : bool :=
  if startsWith needle s then true
  else match s with
       | EmptyString => false
       | String _ r => includes r needle
       end.

(** * The hunter profile slice ([store/slices/hunterSlice.ts]) *)

Module HunterSlice.

(** [rank: 'Beginner' | 'Explorer' | 'Adventurer' | 'Expert' | 'Master Hunter'] *)
Inductive Rank := Beginner | Explorer | Adventurer | Expert | MasterHunter.

Definition rank_name (r : Rank) : string :=
  match r with
  | Beginner => "Beginner"
  | Explorer => "Explorer"
  | Adventurer => "Adventurer"
  | Expert => "Expert"
  | MasterHunter => "Master Hunter"
  end.

(** Position of a rank in the progression. *)
Definition rank_index (r : Rank) : Z :=
  match r with
  | Beginner => 0
  | Explorer => 1
  | Adventurer => 2
  | Expert => 3
  | MasterHunter => 4
  end.

Record HunterStats := {
  totalDistance : float;
  treasuresFoundToday : float;
  treasuresFoundThisWeek : float;
  treasuresFoundThisMonth : float;
  favoriteHuntingTime : string;
  mostFoundRarity : string;
  averageHuntTime : float;
  successRate : float
}.

Record HunterProfile := {
  id : string;
  username : string;
  rank : Rank;
  level : float;
  experience : float;
  experienceToNext : float;
  totalTreasuresFound : float;
  currentStreak : float;
  longestStreak : float;
  joinedAt : string;
  lastActiveAt : string;
  stats : HunterStats
}.

Record HunterState := {
  profile : option HunterProfile;
  isLoading : bool;
  error : option string;
  leaderboard : list HunterProfile;
  friends : list HunterProfile;
  nearbyHunters : list HunterProfile
}.

Definition initialState : HunterState :=
  {| profile := None; isLoading := false; error := None;
     leaderboard := []; friends := []; nearbyHunters := [] |}.

(** The profile built by [createHunterProfile]. *)
Definition newProfile (ident name now : string) : HunterProfile :=
  {| id := ident; username := name; rank := Beginner; level := 1%float;
     experience := 0%float; experienceToNext := 100%float;
     totalTreasuresFound := 0%float;
     currentStreak := 0%float; longestStreak := 0%float; joinedAt := now;
     lastActiveAt := now;
     stats := {| totalDistance := 0%float; treasuresFoundToday := 0%float;
                 treasuresFoundThisWeek := 0%float;
                 treasuresFoundThisMonth := 0%float;
                 favoriteHuntingTime := "afternoon";
                 mostFoundRarity := "common";
                 averageHuntTime := 0%float; successRate := 0%float |} |}.

Definition with_profile (st : HunterState) (p : HunterProfile) : HunterState :=
  {| profile := Some p; isLoading := isLoading st; error := error st;
     leaderboard := leaderboard st; friends := friends st;
     nearbyHunters := nearbyHunters st |}.

Definition setProfile (st : HunterState) (p : HunterProfile) : HunterState :=
  with_profile st p.

(** "Update rank based on level": the chain of comparisons in the body of
    the level-up loop; [level >= 20] is [20 <= level]. *)
Definition rankForLevel (lvl : float) : Rank :=
  if (20 <=? lvl)%float then MasterHunter
  else if (15 <=? lvl)%float then Expert
  else if (10 <=? lvl)%float then Adventurer
  else if (5 <=? lvl)%float then Explorer
  else Beginner.

(** The mutable variables of the [while] loop of [addExperience]. *)
Record Progress := {
  p_experience : float;
  p_experienceToNext : float;
  p_level : float;
  p_rank : Rank
}.

(** One round of the loop. *)
Definition level_up_once (g : Progress) : Progress :=
  let lvl := (p_level g + 1)%float in
  {| p_experience := (p_experience g - p_experienceToNext g)%float;
     p_experienceToNext := (lvl * 100)%float;
     p_level := lvl;
     p_rank := rankForLevel lvl |}.

(** [while (experience >= experienceToNext) { ... }], for at most [fuel]
    rounds: [None] when the condition still holds after them.  Over
    doubles the loop need not end: an experience of [Infinity] stays
    above every threshold. *)
Fixpoint level_up (fuel : nat) (g : Progress) : option Progress :=
  if (p_experienceToNext g <=? p_experience g)%float then
    match fuel with
    | O => None
    | S fuel => level_up fuel (level_up_once g)
    end
  else Some g.

(** [addExperience], its loop bounded by [fuel]. *)
Definition addExperience (fuel : nat) (st : HunterState) (amount : float)
  : option HunterState :=
  match profile st with
  | None => Some st
  | Some p =>
      match level_up fuel {| p_experience := (experience p + amount)%float;
                             p_experienceToNext := experienceToNext p;
                             p_level := level p;
                             p_rank := rank p |} with
      | Some g =>
          Some (with_profile st
                  {| id := id p; username := username p; rank := p_rank g;
                     level := p_level g; experience := p_experience g;
                     experienceToNext := p_experienceToNext g;
                     totalTreasuresFound := totalTreasuresFound p;
                     currentStreak := currentStreak p;
                     longestStreak := longestStreak p;
                     joinedAt := joinedAt p; lastActiveAt := lastActiveAt p;
                     stats := stats p |})
      | None => None
      end
  end.

Definition bump_stats (s : HunterStats) : HunterStats :=
  {| totalDistance := totalDistance s;
     treasuresFoundToday := (treasuresFoundToday s + 1)%float;
     treasuresFoundThisWeek := (treasuresFoundThisWeek s + 1)%float;
     treasuresFoundThisMonth := (treasuresFoundThisMonth s + 1)%float;
     favoriteHuntingTime := favoriteHuntingTime s;
     mostFoundRarity := mostFoundRarity s;
     averageHuntTime := averageHuntTime s;
     successRate := successRate s |}.

(** [incrementTreasuresFound]; [now] is [new Date().toISOString()];
    [currentStreak > longestStreak] is [longestStreak < currentStreak]. *)
Definition incrementTreasuresFound (now : string) (st : HunterState) : HunterState :=
  match profile st with
  | None => st
  | Some p =>
      let streak := (currentStreak p + 1)%float in
      with_profile st
        {| id := id p; username := username p; rank := rank p;
           level := level p; experience := experience p;
           experienceToNext := experienceToNext p;
           totalTreasuresFound := (totalTreasuresFound p + 1)%float;
           currentStreak := streak;
           longestStreak :=
             if (longestStreak p <? streak)%float then streak
             else longestStreak p;
           joinedAt := joinedAt p; lastActiveAt := now;
           stats := bump_stats (stats p) |}
  end.

Definition resetStreak (st : HunterState) : HunterState :=
  match profile st with
  | None => st
  | Some p =>
      with_profile st
        {| id := id p; username := username p; rank := rank p;
           level := level p; experience := experience p;
           experienceToNext := experienceToNext p;
           totalTreasuresFound := totalTreasuresFound p;
           currentStreak := 0%float;
           longestStreak := longestStreak p;
           joinedAt := joinedAt p; lastActiveAt := lastActiveAt p;
           stats := stats p |}
  end.

(** A run of settlements, oldest first: one [incrementTreasuresFound]
    per timestamp. *)
Definition settlements (times : list string) (st : HunterState) : HunterState :=
  fold_left (fun s now => incrementTreasuresFound now s) times st.

Definition with_friends (st : HunterState) (l : list HunterProfile) : HunterState :=
  {| profile := profile st; isLoading := isLoading st; error := error st;
     leaderboard := leaderboard st; friends := l;
     nearbyHunters := nearbyHunters st |}.

(** [addFriend]: [find] returns the first friend with the identifier of
    the payload, an object, or [undefined]. *)
Definition addFriend (st : HunterState) (p : HunterProfile) : HunterState :=
  match List.find (fun f => String.eqb (id f) (id p)) (friends st) with
  | Some _ => st
  | None => with_friends st (friends st ++ [p])
  end.

(** [removeFriend] *)
Definition removeFriend (st : HunterState) (ident : string) : HunterState :=
  with_friends st
    (List.filter (fun f => negb (String.eqb (id f) ident)) (friends st)).

End HunterSlice.

(** * Helpers of [hooks/useProfile.ts] *)

Module Helpers.

Record RankRequirement := {
  nextRank : string;
  treasuresNeeded : Z
}.

(** [getNextRankRequirement]: a [switch] on the lower-cased rank name. *)
Definition getNextRankRequirement (rank : string) (currentTreasures : Z)
  : RankRequirement :=
  let r := toLowerCase rank in
  if String.eqb r "beginner" then
    {| nextRank := "Explorer"; treasuresNeeded := Z.max 0 (5 - currentTreasures) |}
  else if String.eqb r "explorer" then
    {| nextRank := "Hunter"; treasuresNeeded := Z.max 0 (20 - currentTreasures) |}
  else if String.eqb r "hunter" then
    {| nextRank := "Master"; treasuresNeeded := Z.max 0 (50 - currentTreasures) |}
  else if String.eqb r "master" then
    {| nextRank := "Max Level"; treasuresNeeded := 0 |}
  else
    {| nextRank := "Explorer"; treasuresNeeded := 5 |}.

(** [getRarityColor] and [getRarityName]: a [switch] on the number. *)
Definition getRarityColor (rarity : float) : string :=
  if (rarity =? 3)%float then "#ffd700"
  else if (rarity =? 2)%float then "#c084fc"
  else if (rarity =? 1)%float then "#10b981"
  else "#6b7280".

Definition getRarityName (rarity : float) : string :=
  if (rarity =? 3)%float then "Legendary"
  else if (rarity =? 2)%float then "Rare"
  else if (rarity =? 1)%float then "Common"
  else "Unknown".

(** [getRankColor]: a [switch] on the lower-cased rank name. *)
Definition getRankColor (rank : string) : string :=
  let r := toLowerCase rank in
  if String.eqb r "master" then "#f59e0b"
  else if String.eqb r "hunter" then "#8b5cf6"
  else if String.eqb r "explorer" then "#3b82f6"
  else if String.eqb r "beginner" then "#10b981"
  else "#6b7280".

(** [calculateDistance]: the haversine formula over doubles.  The
    transcendental functions of [Math] are not part of the primitive
    floats and are taken as given. *)
Section Haversine.
Variables Math_sin Math_cos : float -> float.
Variable Math_atan2 : float -> float -> float.

(** [Math.PI] *)
Definition Math_PI : float := 0x1.921fb54442d18p+1%float.

(** [const R = 6371e3] *)
Definition R : float := 6371e3%float.

Definition calculateDistance (lat1 lng1 lat2 lng2 : float) : float :=
  let phi1 := (lat1 * Math_PI / 180)%float in
  let phi2 := (lat2 * Math_PI / 180)%float in
  let dphi := ((lat2 - lat1) * Math_PI / 180)%float in
  let dlambda := ((lng2 - lng1) * Math_PI / 180)%float in
  let a := (Math_sin (dphi / 2) * Math_sin (dphi / 2) +
            Math_cos phi1 * Math_cos phi2 *
            Math_sin (dlambda / 2) * Math_sin (dlambda / 2))%float in
  let c := (2 * Math_atan2 (PrimFloat.sqrt a) (PrimFloat.sqrt (1 - a)))%float in
  (R * c)%float.
End Haversine.

End Helpers.

(** * The dashboard ([app/(tabs)/index.tsx]) *)

Module Dashboard.

Record NearbyTreasure := {
  treasureId : string;
  name : string;
  description : string;
  latitude : float;
  longitude : float;
  rarity : Z;
  rarityName : string;
  distance : float;
  canHunt : bool;
  imageUrl : string;
  requiredRank : Z;
  requiredRankName : string;
  rewardPoints : Z
}.

(** What [navigateToTreasure] does: an alert, or a push on the router. *)
Inductive Navigation :=
| Alert (title message : string)
| Push (pathname treasure : string).

Definition navigateToTreasure (t : NearbyTreasure) : Navigation :=
  if (5000 <? distance t)%float then
    Alert "Too Far Away"
      "You need to be closer to this treasure to hunt it. Get within 5km to start hunting!"
  else
    Push "/hunt" (treasureId t).

Definition accepted (t : NearbyTreasure) : bool :=
  match navigateToTreasure t with
  | Push _ _ => true
  | Alert _ _ => false
  end.

(** The verifier of the specification, for comparison: a fix is accepted
    when its distance does not exceed the policy's [maxDistanceMeters]. *)
Definition spec_within (maxDistanceMeters d : float) : bool :=
  (d <=? maxDistanceMeters)%float.

(** Default of the policy parameter [maxDistanceMeters]. *)
Definition spec_default_maxDistanceMeters : float := 100%float.

Definition treasure_at (d : float) : NearbyTreasure :=
  {| treasureId := "t-1"; name := "Old Quarter"; description := "";
     latitude := 21.0285%float; longitude := 105.8542%float;
     rarity := 2; rarityName := "Rare"; distance := d; canHunt := true;
     imageUrl := ""; requiredRank := 1; requiredRankName := "Beginner";
     rewardPoints := 250 |}.

End Dashboard.

(** * The wallet service ([services/SuiService.ts])

    The methods of [SuiService] are [async]: every [await] gives control
    away.  A method is modelled as a program, a tree whose nodes are the
    awaited requests and whose leaves are the values it resolves or
    rejects with; the fields of the service object are threaded through
    explicitly. *)

Module Sui.

(** One entry of [result.objectChanges]. *)
Record ObjectChange := {
  change_type : string;
  objectType : option string;
  objectId : option string
}.

(** What [signAndExecuteTransaction] resolves with, as far as the service
    reads it: [effects?.status?.status], [effects?.status?.error],
    [objectChanges], the types of [events], [digest], [checkpoint]. *)
Record TxResult := {
  digest : string;
  status : option string;
  status_error : option string;
  objectChanges : option (list ObjectChange);
  events : option (list string);
  checkpoint : option string
}.

Inductive MoveCall :=
| create_hunter_profile (username : string)
| find_treasure (registry profile treasure_id location_proof clock : string).

Record Tx := {
  sender : string;
  gasBudget : Z;
  target : string;
  call : MoveCall
}.

(** The object stored by [storeTreasureLocally]. *)
Record TreasureData := {
  td_treasureId : string;
  td_name : string;
  td_description : string;
  td_rarity : Z;
  td_foundAt : string;
  td_locationProof : string;
  td_nftObjectId : string;
  td_transactionDigest : string;
  td_blockHeight : option string;
  td_events : list string
}.

Record TreasureDiscoveryResult := {
  transactionDigest : string;
  nftObjectId : string;
  treasureData : TreasureData;
  hunterProfileUpdated : bool
}.

(** The requests a method awaits.  A request that can reject answers
    with a [result]. *)
Inductive Op : Type -> Type :=
| LoadOrCreateKeypair : Op (result string)
    (* the key handling of [initializeWallet]; answers with the address *)
| StorageGet (key : string) : Op (result (option string))
| StorageSet (key value : string) : Op (result unit)
| GetBalance (owner coinType : string) : Op (result string)
| GetObject (ident : string) : Op (result unit)
| GetOwnedObjects (owner structType : string) : Op (result (list (option string)))
| QueryEvents (package module : string) : Op (result unit)
| SignAndExecute (tx : Tx) : Op (result TxResult)
| RandomRarity : Op Z
    (* [Math.floor(Math.random() * 3) + 1] *)
| Now : Op string
    (* [new Date().toISOString()] *)
| AppendFoundTreasure (t : TreasureData) : Op (result unit).
    (* the read-append-write of ['found_treasures'] *)

Inductive Prog (A : Type) : Type :=
| Ret (a : A)
| Call (X : Type) (op : Op X) (k : X -> Prog A).
Arguments Ret {A} a.
Arguments Call {A X} op k.

Fixpoint pbind {A B} (p : Prog A) (f : A -> Prog B) : Prog B :=
  match p with
  | Ret a => f a
  | Call op k => Call op (fun x => pbind (k x) f)
  end.

(** The fields of a [SuiService] instance. *)
Record Service := {
  keypair : option string;          (* the address of the key pair *)
  treasureRegistryId : option string;
  hunterProfileId : option string;
  isInitialized : bool
}.

Definition set_keypair (a : option string) (s : Service) : Service :=
  {| keypair := a; treasureRegistryId := treasureRegistryId s;
     hunterProfileId := hunterProfileId s; isInitialized := isInitialized s |}.
Definition set_treasureRegistryId (r : option string) (s : Service) : Service :=
  {| keypair := keypair s; treasureRegistryId := r;
     hunterProfileId := hunterProfileId s; isInitialized := isInitialized s |}.
Definition set_hunterProfileId (p : option string) (s : Service) : Service :=
  {| keypair := keypair s; treasureRegistryId := treasureRegistryId s;
     hunterProfileId := p; isInitialized := isInitialized s |}.
Definition set_isInitialized (b : bool) (s : Service) : Service :=
  {| keypair := keypair s; treasureRegistryId := treasureRegistryId s;
     hunterProfileId := hunterProfileId s; isInitialized := b |}.

(** A method body: it reads and writes the fields, awaits requests and
    either returns or throws. *)
Definition M (A : Type) : Type := Service -> Prog (result A * Service).

Definition ret {A} (a : A) : M A := fun s => Ret (Ok a, s).
Definition throw {A} (message : string) : M A := fun s => Ret (Err message, s).

Definition bind {A B} (c : M A) (f : A -> M B) : M B :=
  fun s => pbind (c s) (fun out =>
    match fst out with
    | Ok a => f a (snd out)
    | Err m => Ret (Err m, snd out)
    end).

Definition try_catch {A} (c : M A) (handler : string -> M A) : M A :=
  fun s => pbind (c s) (fun out =>
    match fst out with
    | Ok a => Ret (Ok a, snd out)
    | Err m => handler m (snd out)
    end).

(** [await request]: a rejection is thrown. *)
Definition await {X} (op : Op (result X)) : M X :=
  fun s => Call op (fun r => Ret (r, s)).

Definition ask {X} (op : Op X) : M X :=
  fun s => Call op (fun x => Ret (Ok x, s)).

Definition this : M Service := fun s => Ret (Ok s, s).
Definition update (f : Service -> Service) : M unit := fun s => Ret (Ok tt, f s).

Notation "'let!' x ':=' c 'in' k" := (bind c (fun x => k))
  (at level 10, x name, c at level 200, k at level 200).
Notation "'exec' c ';;' k" := (bind c (fun _ => k))
  (at level 10, c at level 99, k at level 200).

Definition packageId : string :=
  "0xbe95e5f80e4795169bfc994cf7fb9740f6ef4caa57f3e8010294eec5d4c1ebbe".

(** The address of [this.keypair!]; dereferencing a missing key pair is a
    [TypeError]. *)
Definition address_of_keypair : M string :=
  let! s := this in
  match keypair s with
  | Some a => ret a
  | None => throw "Cannot read properties of null (reading 'getPublicKey')"
  end.

(** [if (id) this.field = id]: an empty string is falsy. *)
Definition when_present (v : option string) (f : option string -> Service -> Service)
  : M unit :=
  match v with
  | Some r => if String.eqb r "" then ret tt else update (f (Some r))
  | None => ret tt
  end.

(** [loadCachedObjectIds] *)
Definition loadCachedObjectIds : M unit :=
  try_catch
    (let! registryId := await (StorageGet "treasure_registry_id") in
     let! profileId := await (StorageGet "hunter_profile_id") in
     exec when_present registryId set_treasureRegistryId ;;
     when_present profileId set_hunterProfileId)
    (fun _ => ret tt).

(** [initializeWallet] *)
Definition initializeWallet : M string :=
  try_catch
    (let! s := this in
     match isInitialized s, keypair s with
     | true, Some a => ret a
     | _, _ =>
         let! a := await LoadOrCreateKeypair in
         exec update (set_keypair (Some a)) ;;
         exec update (set_isInitialized true) ;;
         exec loadCachedObjectIds ;;
         ret a
     end)
    (fun message => throw ("Failed to initialize wallet: " ++ message)).

(** [if (!this.keypair) await this.initializeWallet()] *)
Definition ensure_wallet : M unit :=
  let! s := this in
  match keypair s with
  | Some _ => ret tt
  | None => exec initializeWallet ;; ret tt
  end.

(** [getBalance] *)
Definition getBalance : M string :=
  exec ensure_wallet ;;
  try_catch
    (let! a := address_of_keypair in
     await (GetBalance a "0x2::sui::SUI"))
    (fun _ => ret "0").

Section Numbers.
(** [Number(text)] applied to a balance in MIST. *)
Variable Number_of_string : string -> float.

(** [Number(MIST_PER_SUI)] *)
Definition MIST_PER_SUI : float := 1000000000%float.

(** [getBalanceInSui] *)
Definition getBalanceInSui : M float :=
  let! balanceInMist := getBalance in
  ret (Number_of_string balanceInMist / MIST_PER_SUI)%float.

(** The cached identifier, when the object behind it still answers. *)
Definition verified (cached : option string)
  (forget : option string -> Service -> Service) : M (option string) :=
  match cached with
  | Some r =>
      try_catch
        (exec await (GetObject r) ;; ret (Some r))
        (fun _ => exec update (forget None) ;; ret None)
  | None => ret None
  end.

(** [findTreasureRegistry] *)
Definition findTreasureRegistry : M string :=
  let! s := this in
  let! found := verified (treasureRegistryId s) set_treasureRegistryId in
  match found with
  | Some r => ret r
  | None =>
      exec await (QueryEvents packageId "treasure_nft") ;;
      throw "TreasureRegistry not found. Please provide the registry object ID manually."
  end.

Definition created (c : ObjectChange) : bool :=
  String.eqb (change_type c) "created".

Definition created_of_type (marker : string) (c : ObjectChange) : bool :=
  created c &&
  match objectType c with
  | Some t => includes t marker
  | None => false
  end.

(** [createHunterProfile] *)
Definition createHunterProfile (username : string) : M string :=
  exec ensure_wallet ;;
  let! a := address_of_keypair in
  let! res := await (SignAndExecute
                       {| sender := a; gasBudget := 20000000;
                          target := packageId ++ "::treasure_nft::create_hunter_profile";
                          call := create_hunter_profile username |}) in
  let createdObjects := option_map (List.filter created) (objectChanges res) in
  match createdObjects with
  | Some (c :: cs) =>
      match List.find (created_of_type "HunterProfile") (c :: cs) with
      | Some {| objectId := Some oid |} =>
          exec update (set_hunterProfileId (Some oid)) ;;
          exec await (StorageSet "hunter_profile_id" oid) ;;
          ret oid
      | _ => throw "Failed to extract profile object ID from transaction result"
      end
  | _ => throw "Failed to extract profile object ID from transaction result"
  end.

(** [findOrCreateHunterProfile] *)
Definition findOrCreateHunterProfile : M string :=
  let! s := this in
  match keypair s with
  | None => throw "Wallet not initialized"
  | Some a =>
      let! cached := verified (hunterProfileId s) set_hunterProfileId in
      match cached with
      | Some p => ret p
      | None =>
          let! owned := await (GetOwnedObjects a
                                 (packageId ++ "::treasure_nft::HunterProfile")) in
          match owned with
          | Some profileId :: _ =>
              if String.eqb profileId "" then createHunterProfile "TreasureHunter"
              else
                exec update (set_hunterProfileId (Some profileId)) ;;
                exec await (StorageSet "hunter_profile_id" profileId) ;;
                ret profileId
          | _ => createHunterProfile "TreasureHunter"
          end
      end
  end.

(** [storeTreasureLocally]: failures are logged and dropped. *)
Definition storeTreasureLocally (t : TreasureData) : M unit :=
  try_catch (await (AppendFoundTreasure t)) (fun _ => ret tt).

Definition insufficient_balance : string :=
  "Insufficient SUI balance for transaction. Need at least 0.05 SUI for gas.".

Definition already_found : string :=
  "This treasure has already been found by someone else!".
Definition invalid_location : string :=
  "Location verification failed. Make sure you are at the correct location.".
Definition insufficient_rank : string :=
  "Your hunter rank is too low for this treasure. Keep hunting to level up!".
Definition invalid_treasure : string :=
  "Invalid treasure ID. This treasure may not exist.".

(** The [catch] block of [findTreasure]: "Provide more specific error
    messages". *)
Definition specific_error (message : string) : string :=
  if includes message "E_TREASURE_ALREADY_FOUND" then already_found
  else if includes message "E_INVALID_LOCATION" then invalid_location
  else if includes message "E_INSUFFICIENT_RANK" then insufficient_rank
  else if includes message "E_INVALID_TREASURE_ID" then invalid_treasure
  else message.

(** The transaction built by [findTreasure]. *)
Definition find_treasure_tx (a registryId profileId treasureId locationProof : string) : Tx :=
  {| sender := a; gasBudget := 50000000;
     target := packageId ++ "::treasure_nft::find_treasure";
     call := find_treasure registryId profileId treasureId locationProof "0x6" |}.

(** [result.effects?.status?.error || 'Unknown transaction error'] *)
Definition transaction_error (res : TxResult) : string :=
  match status_error res with
  | Some e => if String.eqb e "" then "Unknown transaction error" else e
  | None => "Unknown transaction error"
  end.

Definition succeeded (res : TxResult) : bool :=
  match status res with
  | Some st => String.eqb st "success"
  | None => false
  end.

(** The object changes of type ['created']; a missing list counts as
    empty. *)
Definition createdObjects (res : TxResult) : list ObjectChange :=
  match objectChanges res with
  | Some cs => List.filter created cs
  | None => []
  end.

(** The [try] block of [findTreasure] after its balance check. *)
Definition findTreasure_submit (treasureId locationProof : string)
  : M TreasureDiscoveryResult :=
  let! registryId := findTreasureRegistry in
  let! profileId := findOrCreateHunterProfile in
  let! a := address_of_keypair in
  let! res := await (SignAndExecute
                       (find_treasure_tx a registryId profileId
                                         treasureId locationProof)) in
  exec (if succeeded res then ret tt
        else throw ("Transaction failed: " ++ transaction_error res)) ;;
  match List.find (created_of_type "TreasureNFT") (createdObjects res) with
  | Some {| objectId := Some oid |} =>
      let! rarity := ask RandomRarity in
      let! now := ask Now in
      let t := {| td_treasureId := treasureId;
                  td_name := "Treasure " ++ treasureId;
                  td_description :=
                    "A mysterious treasure discovered through blockchain hunting";
                  td_rarity := rarity;
                  td_foundAt := now;
                  td_locationProof := locationProof;
                  td_nftObjectId := oid;
                  td_transactionDigest := digest res;
                  td_blockHeight := checkpoint res;
                  td_events := match events res with Some es => es | None => [] end |} in
      exec storeTreasureLocally t ;;
      ret {| transactionDigest := digest res; nftObjectId := oid;
             treasureData := t; hunterProfileUpdated := true |}
  | _ => throw "Failed to extract NFT object ID from transaction result"
  end.

(** The [try] block of [findTreasure]. *)
Definition findTreasure_try (treasureId locationProof : string)
  : M TreasureDiscoveryResult :=
  let! balance := getBalanceInSui in
  exec (if (balance <? 0.05)%float then throw insufficient_balance else ret tt) ;;
  findTreasure_submit treasureId locationProof.

(** [findTreasure] *)
Definition findTreasure (treasureId locationProof : string) : M TreasureDiscoveryResult :=
  exec ensure_wallet ;;
  try_catch (findTreasure_try treasureId locationProof)
            (fun message => throw (specific_error message)).

(** The [catch] block of [findTreasure] on its own: the error is thrown
    again, with the message of its kind. *)
Definition on_error : string -> M TreasureDiscoveryResult :=
  fun message => throw (specific_error message).

End Numbers.

(** ** Running a program against an environment *)

(** A request together with its answer. *)
Inductive Event : Type :=
| event (X : Type) (op : Op X) (answer : X).
Arguments event {X} op answer.

(** An environment answers every request and moves to a new state. *)
Definition Env (S : Type) : Type := forall X : Type, Op X -> S -> X * S.

Fixpoint run {S A} (env : Env S) (p : Prog A) (s : S) : A * S * list Event :=
  match p with
  | Ret a => (a, s, [])
  | Call op k =>
      let xs := env _ op s in
      let out := run env (k (fst xs)) (snd xs) in
      (fst (fst out), snd (fst out), event op (fst xs) :: snd out)
  end.

(** The transactions handed to [signAndExecuteTransaction] in a trace. *)
Definition submitted_of (e : Event) : list Tx :=
  match e with
  | event op _ =>
      match op with
      | SignAndExecute tx => [tx]
      | _ => []
      end
  end.

Definition submitted (trace : list Event) : list Tx :=
  flat_map submitted_of trace.

Definition is_find_treasure (tx : Tx) : bool :=
  match call tx with
  | find_treasure _ _ _ _ _ => true
  | create_hunter_profile _ => false
  end.

(** The balances reported in a trace, in MIST, as [getBalance] reads them:
    a rejected query counts as ["0"]. *)
Definition balance_of (e : Event) : list string :=
  match e with
  | event op answer =>
      match op in Op X return X -> list string with
      | GetBalance _ _ => fun r => match r with Ok b => [b] | Err _ => ["0"] end
      | _ => fun _ => []
      end answer
  end.

Definition balances (trace : list Event) : list string :=
  flat_map balance_of trace.

(** ** Shapes of programs *)

Definition is_submit {X} (op : Op X) : bool :=
  match op with SignAndExecute _ => true | _ => false end.

Definition is_find_submit {X} (op : Op X) : bool :=
  match op with SignAndExecute tx => is_find_treasure tx | _ => false end.

Definition is_balance {X} (op : Op X) : bool :=
  match op with GetBalance _ _ => true | _ => false end.

Definition no_submit (X : Type) (op : Op X) : bool := negb (is_submit op).
Definition no_find_submit (X : Type) (op : Op X) : bool := negb (is_find_submit op).
Definition no_balance (X : Type) (op : Op X) : bool := negb (is_balance op).
Definition wallet_only (X : Type) (op : Op X) : bool :=
  negb (is_submit op) && negb (is_balance op).


(** A program all of whose requests satisfy [P], whatever the answers. *)
Inductive only (P : forall X : Type, Op X -> bool) {A : Type} : Prog A -> Prop :=
| only_Ret (a : A) : only P (Ret a)
| only_Call (X : Type) (op : Op X) (k : X -> Prog A) :
    P X op = true -> (forall x : X, only P (k x)) -> only P (Call op k).

(** A program all of whose requests satisfy [P] and all of whose outcomes
    satisfy [Q]. *)
Inductive ends (P : forall X : Type, Op X -> bool) {A : Type} (Q : A -> Prop)
  : Prog A -> Prop :=
| ends_Ret (a : A) : Q a -> ends P Q (Ret a)
| ends_Call (X : Type) (op : Op X) (k : X -> Prog A) :
    P X op = true -> (forall x : X, ends P Q (k x)) -> ends P Q (Call op k).

(** The text of the balance [getBalance] returns for an answer of the
    node. *)
Definition balance_text (r : result string) : string :=
  match r with Ok b => b | Err _ => "0" end.

(** A call of [findTreasure] up to its balance check: requests that touch
    neither the ledger's transactions nor the balance, then either an
    early failure or the balance query, after which a low balance ends the
    call with [insufficient_balance] and a sufficient balance goes on
    without asking for the balance again. *)
Inductive balance_guarded (low : string -> bool) {A : Type}
  : Prog (result A * Service) -> Prop :=
| guarded_failed (m : string) (s : Service) :
    balance_guarded low (Ret (Err m, s))
| guarded_wallet (X : Type) (op : Op X) (k : X -> Prog (result A * Service)) :
    wallet_only X op = true ->
    (forall x : X, balance_guarded low (k x)) ->
    balance_guarded low (Call op k)
| guarded_balance (owner coin : string)
    (k : result string -> Prog (result A * Service)) :
    (forall r : result string,
        (low (balance_text r) = true ->
         exists s : Service, k r = Ret (Err insufficient_balance, s)) /\
        (low (balance_text r) = false -> only no_balance (k r))) ->
    balance_guarded low (Call (GetBalance owner coin) k).

(** An answer of [signAndExecuteTransaction] that is not a success: the
    request rejected, or the effects report another status. *)
Definition rejected (r : result TxResult) : bool :=
  match r with
  | Ok res => negb (succeeded res)
  | Err _ => true
  end.

(** The message [findTreasure] throws inside its [try] for such an
    answer. *)
Definition rejection_text (r : result TxResult) : string :=
  match r with
  | Ok res => "Transaction failed: " ++ transaction_error res
  | Err m => m
  end.

(** A call that submits the [find_treasure] transaction at most once and,
    when that submission is rejected, stops there with the error its
    [catch] block makes of the rejection. *)
Inductive single_shot {A : Type} : Prog (result A * Service) -> Prop :=
| shot_done (out : result A * Service) : single_shot (Ret out)
| shot_other (X : Type) (op : Op X) (k : X -> Prog (result A * Service)) :
    is_find_submit op = false ->
    (forall x : X, single_shot (k x)) ->
    single_shot (Call op k)
| shot_fired (tx : Tx) (k : result TxResult -> Prog (result A * Service)) :
    is_find_treasure tx = true ->
    (forall r : result TxResult,
        only no_find_submit (k r) /\
        (rejected r = true ->
         exists s, k r = Ret (Err (specific_error (rejection_text r)), s))) ->
    single_shot (Call (SignAndExecute tx) k).

(** The answers given to [find_treasure] submissions in a trace. *)
Definition find_answer_of (e : Event) : list (result TxResult) :=
  match e with
  | event op answer =>
      match op in Op X return X -> list (result TxResult) with
      | SignAndExecute tx => fun r => if is_find_treasure tx then [r] else []
      | _ => fun _ => []
      end answer
  end.

Definition find_answers (trace : list Event) : list (result TxResult) :=
  flat_map find_answer_of trace.

Definition is_find_event (e : Event) : bool :=
  match e with event op _ => is_find_submit op end.

(** The requests made after the first [find_treasure] submission. *)
Fixpoint events_after_find (trace : list Event) : option (list Event) :=
  match trace with
  | [] => None
  | e :: rest => if is_find_event e then Some rest else events_after_find rest
  end.

Definition event_ok (P : forall X : Type, Op X -> bool) (e : Event) : bool :=
  match e with event op _ => P _ op end.

(** ** Terminal error kinds *)

Inductive TerminalKind :=
| TooFar | AlreadyClaimed | RankTooLow | InvalidTreasure | InsufficientFunds.

(** The abort code of the contract a thrown message mentions, in the
    order in which the [catch] block looks for them. *)
Definition mentioned_kind (message : string) : option TerminalKind :=
  if includes message "E_TREASURE_ALREADY_FOUND" then Some AlreadyClaimed
  else if includes message "E_INVALID_LOCATION" then Some TooFar
  else if includes message "E_INSUFFICIENT_RANK" then Some RankTooLow
  else if includes message "E_INVALID_TREASURE_ID" then Some InvalidTreasure
  else None.

Definition message_of (k : TerminalKind) : string :=
  match k with
  | TooFar => invalid_location
  | AlreadyClaimed => already_found
  | RankTooLow => insufficient_rank
  | InvalidTreasure => invalid_treasure
  | InsufficientFunds => insufficient_balance
  end.

(** [balance < 0.05] for a balance text, with [Number] given. *)
Definition low_balance (Number_of_string : string -> float) (b : string) : bool :=
  (Number_of_string b / MIST_PER_SUI <? 0.05)%float.

(** The terminal kind a finished call failed with, read off its trace: a
    low balance, or a rejected [find_treasure] submission whose message
    mentions an abort code. *)
Definition failure_kind (Number_of_string : string -> float) (trace : list Event)
  : option TerminalKind :=
  if existsb (low_balance Number_of_string) (balances trace)
  then Some InsufficientFunds
  else match find_answers trace with
       | [r] => if rejected r then mentioned_kind (rejection_text r) else None
       | _ => None
       end.

(** [Number] on the decimal numerals below 2^63, for the examples. *)
Fixpoint decimal_value (acc : Z) (s : string) : option Z :=
  match s with
  | EmptyString => Some acc
  | String c r =>
      let n := Z.of_N (N_of_ascii c) in
      if (48 <=? n) && (n <=? 57) then decimal_value (10 * acc + (n - 48)) r
      else None
  end.

Definition Number_of_decimal (s : string) : float :=
  match s with
  | EmptyString => 0%float
  | _ => match decimal_value 0 s with
         | Some z => PrimFloat.of_uint63 (Uint63.of_Z z)
         | None => PrimFloat.nan
         end
  end.

(** A device whose wallet holds 1000 MIST and whose other requests fail. *)
Definition poor_wallet : Env unit :=
  fun X op s =>
    (match op in Op X return X with
     | LoadOrCreateKeypair => Ok "0x51a7"
     | StorageGet _ => Ok None
     | StorageSet _ _ => Ok tt
     | GetBalance _ _ => Ok "1000"
     | GetObject _ => Err "offline"
     | GetOwnedObjects _ _ => Err "offline"
     | QueryEvents _ _ => Err "offline"
     | SignAndExecute _ => Err "offline"
     | RandomRarity => 1
     | Now => "2024-05-05T08:00:00.000Z"
     | AppendFoundTreasure _ => Ok tt
     end, s).

Definition fresh_service : Service :=
  {| keypair := None; treasureRegistryId := None; hunterProfileId := None;
     isInitialized := false |}.

End Sui.
(** * The ledger and concurrent discoveries

    The Move contract [treasure_nft.move] that the wallet service calls is
    not part of the client.  What the client relies on is modelled here
    from the specification, so that calls of [findTreasure] can be run
    against it, alone and interleaved. *)

Module Ledger.
Import Sui.

(** Modelled from the spec: the backing store of the ledger capability,
    which is missing from the sources (the contract
    [smart-contracts/sources/treasure_nft.move]).  It keeps the treasures
    of the registry and, per treasure, whether a discovery has settled:
    "a uniqueness constraint on (treasureId, status = Settled) enforced by
    the persistent store".  Gas charges are not modelled: a balance stays
    what it is. *)
Record Chain := {
  coins : gmap string string;       (* owner -> total balance in MIST *)
  objects : gset string;            (* identifiers of the live objects *)
  profiles : gmap string string;    (* owner -> hunter profile object *)
  registered : gset string;         (* treasures of the registry *)
  settled : gset string             (* treasures with a settled discovery *)
}.

(** What a device keeps for itself. *)
Record Device := {
  address : string;
  storage : gmap string string;
  found_treasures : list TreasureData;
  clock : string;
  die : Z
}.

Definition success_of (ident kind created_id : string) : TxResult :=
  {| digest := "tx:" ++ ident;
     status := Some "success";
     status_error := None;
     objectChanges :=
       Some [{| change_type := "created";
                objectType := Some (packageId ++ "::treasure_nft::" ++ kind);
                objectId := Some created_id |}];
     events := Some [packageId ++ "::treasure_nft::" ++ kind ++ "Event"];
     checkpoint := Some "1" |}.

Definition abort_of (code : string) : TxResult :=
  {| digest := "tx:aborted";
     status := Some "failure";
     status_error := Some ("MoveAbort in treasure_nft::find_treasure: " ++ code);
     objectChanges := Some [];
     events := Some [];
     checkpoint := None |}.

Section Contract.
(** Modelled from the spec: the proximity and rank checks of the
    verifier, as the ledger decides them for a treasure and a location
    proof, and for a profile and a treasure. *)
Variable location_ok : string -> string -> bool.
Variable rank_ok : string -> string -> bool.

(** Modelled from the spec: [find_treasure] and [create_hunter_profile]
    of the missing contract.  A treasure that is not registered, a
    location proof that does not verify and a rank that is too low abort;
    a treasure with a settled discovery aborts with
    [E_TREASURE_ALREADY_FOUND]; otherwise the discovery settles, its NFT
    is created and the treasure is marked. *)
Definition execute (tx : Tx) (c : Chain) : TxResult * Chain :=
  match call tx with
  | create_hunter_profile _ =>
      let pid := "profile:" ++ sender tx in
      (success_of (sender tx) "HunterProfile" pid,
       {| coins := coins c; objects := {[ pid ]} ∪ objects c;
          profiles := <[ sender tx := pid ]> (profiles c);
          registered := registered c; settled := settled c |})
  | find_treasure _ profile treasure_id location_proof _ =>
      if negb (bool_decide (treasure_id ∈ registered c)) then
        (abort_of "E_INVALID_TREASURE_ID", c)
      else if negb (location_ok treasure_id location_proof) then
        (abort_of "E_INVALID_LOCATION", c)
      else if negb (rank_ok profile treasure_id) then
        (abort_of "E_INSUFFICIENT_RANK", c)
      else if bool_decide (treasure_id ∈ settled c) then
        (abort_of "E_TREASURE_ALREADY_FOUND", c)
      else
        (success_of treasure_id "TreasureNFT" ("nft:" ++ treasure_id),
         {| coins := coins c; objects := {[ "nft:" ++ treasure_id ]} ∪ objects c;
            profiles := profiles c; registered := registered c;
            settled := {[ treasure_id ]} ∪ settled c |})
  end.

Definition with_storage (d : Device) (m : gmap string string) : Device :=
  {| address := address d; storage := m; found_treasures := found_treasures d;
     clock := clock d; die := die d |}.

Definition with_found (d : Device) (t : TreasureData) : Device :=
  {| address := address d; storage := storage d;
     found_treasures := found_treasures d ++ [t];
     clock := clock d; die := die d |}.

(** The answers of the ledger and of the device to the requests of the
    wallet service. *)
Definition world : Env (Chain * Device) :=
  fun X op w =>
    let c := fst w in
    let d := snd w in
    match op in Op X return X * (Chain * Device) with
    | LoadOrCreateKeypair => (Ok (address d), w)
    | StorageGet key => (Ok (storage d !! key), w)
    | StorageSet key value => (Ok tt, (c, with_storage d (<[ key := value ]> (storage d))))
    | GetBalance owner _ =>
        (Ok (match coins c !! owner with Some b => b | None => "0" end), w)
    | GetObject ident =>
        (if bool_decide (ident ∈ objects c) then Ok tt else Err "Object not found", w)
    | GetOwnedObjects owner _ =>
        (Ok (match profiles c !! owner with Some p => [Some p] | None => [] end), w)
    | QueryEvents _ _ => (Ok tt, w)
    | SignAndExecute tx =>
        let rc := execute tx c in (Ok (fst rc), (snd rc, d))
    | RandomRarity => (die d, w)
    | Now => (clock d, w)
    | AppendFoundTreasure t => (Ok tt, (c, with_found d t))
    end.

(** ** Interleaved calls

    Several devices run [findTreasure] at once against the same ledger.
    Each task is the rest of a call; a step lets one task have the
    answer to the request it is waiting for.  The ledger serves one
    request at a time. *)

Record Task := {
  device : Device;
  rest : Prog (result TreasureDiscoveryResult * Service)
}.

Definition Config : Type := Chain * list Task.

(** A task gets the answer to the request it is waiting for. *)
Definition advance (w : Chain * Device)
  (p : Prog (result TreasureDiscoveryResult * Service))
  : option (Prog (result TreasureDiscoveryResult * Service) * (Chain * Device)) :=
  match p with
  | Ret _ => None
  | Call op k => let xs := world _ op w in Some (k (fst xs), snd xs)
  end.

Inductive step : Config -> Config -> Prop :=
| step_task (c c' : Chain) (tasks : list Task) (i : nat) (t : Task)
    (p' : Prog (result TreasureDiscoveryResult * Service)) (d' : Device) :
    tasks !! i = Some t ->
    advance (c, device t) (rest t) = Some (p', (c', d')) ->
    step (c, tasks) (c', <[ i := {| device := d'; rest := p' |} ]> tasks).

Inductive steps : Config -> Config -> Prop :=
| steps_refl (cfg : Config) : steps cfg cfg
| steps_step (cfg1 cfg2 cfg3 : Config) :
    step cfg1 cfg2 -> steps cfg2 cfg3 -> steps cfg1 cfg3.

Definition finished (t : Task) : Prop := exists out, rest t = Ret out.

Definition all_finished (cfg : Config) : Prop :=
  forall i t, snd cfg !! i = Some t -> finished t.

(** How a finished task ended. *)
Definition settled_ok (t : Task) : Prop :=
  exists r svc, rest t = Ret (Ok r, svc).

Definition ended_with (message : string) (t : Task) : Prop :=
  exists svc, rest t = Ret (Err message, svc).

(** One caller of [discover]: a device, its service object and the
    location proof it presents. *)
Record Caller := {
  caller_device : Device;
  caller_service : Service;
  caller_proof : string
}.

Section Calls.
Variable Number_of_string : string -> float.
Variable treasure : string.

Definition start (who : Caller) : Task :=
  {| device := caller_device who;
     rest := findTreasure Number_of_string treasure (caller_proof who)
               (caller_service who) |}.

(** A caller whose claim is valid on its own: the wallet is loaded and
    holds enough for the gas, the registry and the profile are known and
    live, the location proof verifies and the rank suffices. *)
Definition ready (c : Chain) (who : Caller) : Prop :=
  exists a rid pid b,
    keypair (caller_service who) = Some a /\
    treasureRegistryId (caller_service who) = Some rid /\
    hunterProfileId (caller_service who) = Some pid /\
    rid ∈ objects c /\ pid ∈ objects c /\
    coins c !! a = Some b /\
    low_balance Number_of_string b = false /\
    location_ok treasure (caller_proof who) = true /\
    rank_ok pid treasure = true.

(** Requests that are served by the device alone. *)
Definition is_local {X} (op : Op X) : bool :=
  match op with
  | RandomRarity | Now | AppendFoundTreasure _ => true
  | _ => false
  end.

(** The rest of a call whose transaction has settled: it only talks to
    its device and resolves. *)
Inductive claims : Prog (result TreasureDiscoveryResult * Service) -> Prop :=
| claims_done (r : TreasureDiscoveryResult) (svc : Service) :
    claims (Ret (Ok r, svc))
| claims_local (X : Type) (op : Op X)
    (k : X -> Prog (result TreasureDiscoveryResult * Service)) :
    is_local op = true -> (forall x : X, claims (k x)) -> claims (Call op k).

(** The rest of a call of a ready caller that has not submitted yet: it
    reads its balance and its objects, which other callers do not change,
    and then submits a valid claim for the treasure; it resolves when the
    claim settles and rejects with [already_found] when the ledger answers
    that the treasure is taken. *)
Inductive poised (c0 : Chain)
  : Prog (result TreasureDiscoveryResult * Service) -> Prop :=
| poised_balance (owner coin b : string)
    (k : result string -> Prog (result TreasureDiscoveryResult * Service)) :
    coins c0 !! owner = Some b ->
    poised c0 (k (Ok b)) ->
    poised c0 (Call (GetBalance owner coin) k)
| poised_object (ident : string)
    (k : result unit -> Prog (result TreasureDiscoveryResult * Service)) :
    ident ∈ objects c0 ->
    poised c0 (k (Ok tt)) ->
    poised c0 (Call (GetObject ident) k)
| poised_submit (tx : Tx) (reg prof proof clk : string)
    (k : result TxResult -> Prog (result TreasureDiscoveryResult * Service)) :
    call tx = find_treasure reg prof treasure proof clk ->
    location_ok treasure proof = true ->
    rank_ok prof treasure = true ->
    claims (k (Ok (success_of treasure "TreasureNFT" ("nft:" ++ treasure)))) ->
    (exists svc, k (Ok (abort_of "E_TREASURE_ALREADY_FOUND"))
                 = Ret (Err already_found, svc)) ->
    poised c0 (Call (SignAndExecute tx) k).

(** What the calls leave untouched on the ledger they started from. *)
Definition frame (c0 c : Chain) : Prop :=
  coins c = coins c0 /\ objects c0 ⊆ objects c /\ registered c = registered c0.

(** The invariant of the race: as long as the treasure has no settled
    discovery every task is poised; once it has one, a single task holds
    the claim and every other task is poised or has lost. *)
Definition race_invariant (c0 : Chain) (cfg : Config) : Prop :=
  frame c0 (fst cfg) /\
  (((treasure ∉ settled (fst cfg)) /\
    (forall i t, snd cfg !! i = Some t -> poised c0 (rest t))) \/
   ((treasure ∈ settled (fst cfg)) /\
    exists j winner,
      snd cfg !! j = Some winner /\ claims (rest winner) /\
      (forall i t, i <> j -> snd cfg !! i = Some t ->
                   poised c0 (rest t) \/ ended_with already_found t))).

End Calls.
End Contract.

End Ledger.
(** * JavaScript values and JSON

    The payload decoders of the NFC services work on what [JSON.parse]
    returns, with no check of its shape: they read properties of values
    of any type, convert them to strings and numbers and test them for
    truth.  This part models those values, the conversions the decoders
    apply, and [JSON.stringify] / [JSON.parse] on them.

    - A number is a binary64 value.  How a number is printed
      ([Number::toString]) and how a numeral is read ([StringToNumber])
      belong to the runtime, as do the texts of the errors it throws.
    - A string is the [string] of its UTF-8 bytes; strings with unpaired
      surrogates, which [JSON.stringify] would escape, are outside of
      that representation.
    - An object is the list of its own properties in creation order
      (property names that are array indices, which an engine lists
      first, are not told apart: the objects of the decoders have none).
      The decoders read the properties [type], [data], [treasure_name],
      [nfc_data], [id], [lat], [lng], [t] and [h]: none of them is
      inherited from a prototype, so a property that is not an own
      property reads as [undefined]. *)

Module JS.

Inductive Value : Type :=
| Undefined
| Null
| Boolean (b : bool)
| Number (x : float)
| Str (s : string)
| Array (items : list Value)
| Object (members : list (string * Value)).

(** The errors that the decoders throw or catch. *)
Inductive Exception : Type :=
| Error (message : string)
| SyntaxError (message : string)
| TypeError (message : string).

(** [e.message] *)
Definition message (e : Exception) : string :=
  match e with
  | Error m | SyntaxError m | TypeError m => m
  end.

Definition name (e : Exception) : string :=
  match e with
  | Error _ => "Error"
  | SyntaxError _ => "SyntaxError"
  | TypeError _ => "TypeError"
  end.

(** [String(e)], the text of [e] in a template literal
    ([Error.prototype.toString]). *)
Definition text (e : Exception) : string :=
  if String.eqb (message e) "" then name e
  else name e ++ ": " ++ message e.

Inductive outcome (A : Type) : Type :=
| Return (a : A)
| Throw (e : Exception).
Arguments Return {A} a.
Arguments Throw {A} e.

Definition bind {A B} (c : outcome A) (k : A -> outcome B) : outcome B :=
  match c with
  | Return a => k a
  | Throw e => Throw e
  end.

Notation "'do!' x ':=' c 'in' k" := (bind c (fun x => k))
  (at level 10, x name, c at level 200, k at level 200).

(** [try { body } catch (e) { handler }] *)
Definition try_catch {A} (body : outcome A) (handler : Exception -> outcome A)
  : outcome A :=
  match body with
  | Return a => Return a
  | Throw e => handler e
  end.

(** What the decoders take from the JavaScript runtime. *)
Record Runtime := {
  (* Number::toString(x), radix 10 *)
  Number_toString : float -> string;
  (* StringToNumber: the number a numeral denotes, NaN when it is none *)
  Number_of_string : string -> float;
  (* the message of the SyntaxError of JSON.parse on a text *)
  syntax_error_message : string -> string;
  (* the message of the TypeError of reading a property of null or undefined *)
  type_error_message : string -> string
}.

Section Conversions.
Variable rt : Runtime.

(** [ToBoolean] *)
Definition ToBoolean (v : Value) : bool :=
  match v with
  | Undefined | Null => false
  | Boolean b => b
  | Number x => negb (PrimFloat.eqb x 0 || PrimFloat.is_nan x)
  | Str s => negb (String.eqb s "")
  | Array _ | Object _ => true
  end.

(** [ToString]; an array is joined with commas, its [undefined] and
    [null] items as empty texts. *)
Fixpoint ToString (v : Value) : string :=
  match v with
  | Undefined => "undefined"
  | Null => "null"
  | Boolean true => "true"
  | Boolean false => "false"
  | Number x => Number_toString rt x
  | Str s => s
  | Array items =>
      String.concat ","
        (map (fun item => match item with
                          | Undefined | Null => ""
                          | _ => ToString item
                          end) items)
  | Object _ => "[object Object]"
  end.

(** [ToNumber]; arrays and objects go through their text. *)
Definition ToNumber (v : Value) : float :=
  match v with
  | Undefined => PrimFloat.nan
  | Null => 0%float
  | Boolean true => 1%float
  | Boolean false => 0%float
  | Number x => x
  | Str s => Number_of_string rt s
  | Array _ | Object _ => Number_of_string rt (ToString v)
  end.

Fixpoint lookup_member (key : string) (members : list (string * Value))
  : option Value :=
  match members with
  | [] => None
  | (k, v) :: rest => if String.eqb k key then Some v else lookup_member key rest
  end.

(** [v.key] *)
Definition Get (v : Value) (key : string) : outcome Value :=
  match v with
  | Undefined | Null => Throw (TypeError (type_error_message rt key))
  | Object members =>
      Return (match lookup_member key members with
              | Some x => x
              | None => Undefined
              end)
  | _ => Return Undefined
  end.

(** [a || b] *)
Definition or_else (a b : Value) : Value := if ToBoolean a then a else b.

End Conversions.

(** ** [JSON.stringify] *)

Definition quote : ascii := "034"%char.
Definition backslash : ascii := "092"%char.

Definition hex_digit (n : N) : ascii :=
  if (n <? 10)%N then ascii_of_N (48 + n) else ascii_of_N (87 + n).

(** One character of a string in [QuoteJSONString]. *)
Definition escape_char (c : ascii) : string :=
  let n := N_of_ascii c in
  if (n =? 8)%N then "\b"
  else if (n =? 9)%N then "\t"
  else if (n =? 10)%N then "\n"
  else if (n =? 12)%N then "\f"
  else if (n =? 13)%N then "\r"
  else if (n =? 34)%N then String backslash (String quote "")
  else if (n =? 92)%N then "\\"
  else if (n <? 32)%N then
    "\u00" ++ String (hex_digit (n / 16)) (String (hex_digit (n mod 16)) "")
  else String c "".

Fixpoint escape (s : string) : string :=
  match s with
  | EmptyString => ""
  | String c r => escape_char c ++ escape r
  end.

Definition QuoteJSONString (s : string) : string :=
  String quote (escape s ++ String quote "").

(** [SerializeJSONProperty]: [None] is [undefined].  A property whose
    value is [undefined] is left out of its object, an [undefined] item
    of an array is written [null], and so is a number that is not
    finite. *)
Fixpoint SerializeJSONProperty (rt : Runtime) (v : Value) : option string :=
  match v with
  | Undefined => None
  | Null => Some "null"
  | Boolean true => Some "true"
  | Boolean false => Some "false"
  | Number x =>
      Some (if PrimFloat.is_finite x then Number_toString rt x else "null")
  | Str s => Some (QuoteJSONString s)
  | Array items =>
      Some ("[" ++ String.concat ","
                     (map (fun item =>
                             match SerializeJSONProperty rt item with
                             | Some t => t
                             | None => "null"
                             end) items) ++ "]")
  | Object members =>
      Some ("{" ++ String.concat ","
                     (omap (fun member =>
                              match SerializeJSONProperty rt (snd member) with
                              | Some t => Some (QuoteJSONString (fst member) ++ ":" ++ t)
                              | None => None
                              end) members) ++ "}")
  end.

(** [SerializeJSONObject]: [JSON.stringify] of an object. *)
Definition SerializeJSONObject (rt : Runtime) (members : list (string * Value))
  : string :=
  "{" ++ String.concat ","
           (omap (fun member =>
                    match SerializeJSONProperty rt (snd member) with
                    | Some t => Some (QuoteJSONString (fst member) ++ ":" ++ t)
                    | None => None
                    end) members) ++ "}".

(** ** [JSON.parse] *)

Definition is_ws (c : ascii) : bool :=
  let n := N_of_ascii c in
  ((n =? 32) || (n =? 9) || (n =? 10) || (n =? 13))%N.

Fixpoint skip_ws (s : string) : string :=
  match s with
  | EmptyString => ""
  | String c r => if is_ws c then skip_ws r else s
  end.

Definition hex_value (c : ascii) : option N :=
  let n := N_of_ascii c in
  if ((48 <=? n) && (n <=? 57))%N then Some (n - 48)%N
  else if ((97 <=? n) && (n <=? 102))%N then Some (n - 87)%N
  else if ((65 <=? n) && (n <=? 70))%N then Some (n - 55)%N
  else None.

Definition hex4 (a b c d : ascii) : option N :=
  match hex_value a, hex_value b, hex_value c, hex_value d with
  | Some x, Some y, Some z, Some w => Some (((x * 16 + y) * 16 + z) * 16 + w)%N
  | _, _, _, _ => None
  end.

(** The UTF-8 bytes of a code point. *)
Definition utf8 (cp : N) : string :=
  (if cp <? 128 then String (ascii_of_N cp) ""
   else if cp <? 2048 then
     String (ascii_of_N (192 + cp / 64))
       (String (ascii_of_N (128 + cp mod 64)) "")
   else if cp <? 65536 then
     String (ascii_of_N (224 + cp / 4096))
       (String (ascii_of_N (128 + (cp / 64) mod 64))
          (String (ascii_of_N (128 + cp mod 64)) ""))
   else
     String (ascii_of_N (240 + cp / 262144))
       (String (ascii_of_N (128 + (cp / 4096) mod 64))
          (String (ascii_of_N (128 + (cp / 64) mod 64))
             (String (ascii_of_N (128 + cp mod 64)) ""))))%N.

Definition is_high_surrogate (u : N) : bool := ((55296 <=? u) && (u <=? 56319))%N.
Definition is_low_surrogate (u : N) : bool := ((56320 <=? u) && (u <=? 57343))%N.

(** A low surrogate escape at the head of a text. *)
Definition low_surrogate_escape (s : string) : option (N * string) :=
  match s with
  | String b (String u (String h1 (String h2 (String h3 (String h4 r))))) =>
      if Ascii.eqb b backslash && Ascii.eqb u "u" then
        match hex4 h1 h2 h3 h4 with
        | Some l => if is_low_surrogate l then Some (l, r) else None
        | None => None
        end
      else None
  | _ => None
  end.

Definition simple_escape (e : ascii) : option ascii :=
  if Ascii.eqb e quote then Some quote
  else if Ascii.eqb e backslash then Some backslash
  else if Ascii.eqb e "/" then Some "/"%char
  else if Ascii.eqb e "b" then Some "008"%char
  else if Ascii.eqb e "f" then Some "012"%char
  else if Ascii.eqb e "n" then Some "010"%char
  else if Ascii.eqb e "r" then Some "013"%char
  else if Ascii.eqb e "t" then Some "009"%char
  else None.

Definition prepend (p : string) (r : option (string * string))
  : option (string * string) :=
  match r with
  | Some (s, rest) => Some (p ++ s, rest)
  | None => None
  end.

(** The characters of a string literal after its opening quote: the
    string they denote and the text after the closing quote. *)
Fixpoint parse_chars (s : string) : option (string * string) :=
  match s with
  | EmptyString => None
  | String c r =>
      if Ascii.eqb c quote then Some ("", r)
      else if Ascii.eqb c backslash then
        match r with
        | EmptyString => None
        | String e r1 =>
            if Ascii.eqb e "u" then
              match r1 with
              | String h1 (String h2 (String h3 (String h4 r2))) =>
                  match hex4 h1 h2 h3 h4 with
                  | None => None
                  | Some u =>
                      if is_high_surrogate u then
                        match r2 with
                        | String b (String v (String l1 (String l2 (String l3 (String l4 r3))))) =>
                            match low_surrogate_escape r2 with
                            | Some (l, _) =>
                                prepend (utf8 (65536 + (u - 55296) * 1024 + (l - 56320))%N)
                                        (parse_chars r3)
                            | None => prepend (utf8 u) (parse_chars r2)
                            end
                        | _ => prepend (utf8 u) (parse_chars r2)
                        end
                      else prepend (utf8 u) (parse_chars r2)
                  end
              | _ => None
              end
            else
              match simple_escape e with
              | Some ch => prepend (String ch "") (parse_chars r1)
              | None => None
              end
        end
      else if (N_of_ascii c <? 32)%N then None
      else prepend (String c "") (parse_chars r)
  end.

Definition is_digit (c : ascii) : bool :=
  let n := N_of_ascii c in ((48 <=? n) && (n <=? 57))%N.

Definition is_number_char (c : ascii) : bool :=
  is_digit c || Ascii.eqb c "-" || Ascii.eqb c "+" || Ascii.eqb c "."
  || Ascii.eqb c "e" || Ascii.eqb c "E".

(** The longest prefix made of the characters of numerals, and the rest.
    A value is followed by white space, a comma, a closing bracket or
    the end of the text, so a numeral ends where these characters end. *)
Fixpoint span_number (s : string) : string * string :=
  match s with
  | EmptyString => ("", "")
  | String c r =>
      if is_number_char c
      then let tr := span_number r in (String c (fst tr), snd tr)
      else ("", s)
  end.

Fixpoint skip_digits (s : string) : string :=
  match s with
  | EmptyString => ""
  | String c r => if is_digit c then skip_digits r else s
  end.

(** One digit at least, then what follows the digits. *)
Definition digits1 (s : string) : option string :=
  match s with
  | EmptyString => None
  | String c r => if is_digit c then Some (skip_digits r) else None
  end.

Definition exponent_ok (s : string) : bool :=
  match s with
  | EmptyString => true
  | String c r =>
      if Ascii.eqb c "e" || Ascii.eqb c "E" then
        let r' := match r with
                  | String sg r1 =>
                      if Ascii.eqb sg "+" || Ascii.eqb sg "-" then r1 else r
                  | EmptyString => r
                  end in
        match digits1 r' with
        | Some EmptyString => true
        | _ => false
        end
      else false
  end.

Definition fraction_ok (s : string) : bool :=
  match s with
  | String c r =>
      if Ascii.eqb c "." then
        match digits1 r with
        | Some r' => exponent_ok r'
        | None => false
        end
      else exponent_ok s
  | EmptyString => true
  end.

(** The grammar of a JSON number: an optional minus sign; a zero, or a
    digit from 1 to 9 and any digits; optionally a point and one digit at
    least; optionally an [e] or [E], an optional sign and one digit at
    least. *)
Definition json_number (t : string) : bool :=
  let unsigned := match t with
                  | String c r => if Ascii.eqb c "-" then r else t
                  | EmptyString => t
                  end in
  match unsigned with
  | EmptyString => false
  | String c r =>
      if Ascii.eqb c "0" then fraction_ok r
      else if is_digit c then fraction_ok (skip_digits r)
      else false
  end.

(** A property defined twice keeps its place and takes the later value. *)
Fixpoint set_member (members : list (string * Value)) (key : string) (v : Value)
  : list (string * Value) :=
  match members with
  | [] => [(key, v)]
  | (k, x) :: rest =>
      if String.eqb k key then (k, v) :: rest
      else (k, x) :: set_member rest key v
  end.

Fixpoint drop_chars (n : nat) (s : string) : string :=
  match n, s with
  | O, _ => s
  | S n', String _ r => drop_chars n' r
  | S _, EmptyString => ""
  end.

Section Parser.
Variable rt : Runtime.

(** A value at the head of a text, and the text after it.  The fuel
    bounds the number of values and members that are read; a text holds
    fewer of them than it has characters. *)
Fixpoint parse_value (fuel : nat) (s : string) : option (Value * string) :=
  match fuel with
  | O => None
  | S fuel' =>
      match skip_ws s with
      | EmptyString => None
      | String c r =>
          if Ascii.eqb c "{" then
            match skip_ws r with
            | String c' r' =>
                if Ascii.eqb c' "}" then Some (Object [], r')
                else parse_members fuel' [] r
            | EmptyString => None
            end
          else if Ascii.eqb c "[" then
            match skip_ws r with
            | String c' r' =>
                if Ascii.eqb c' "]" then Some (Array [], r')
                else parse_elements fuel' [] r
            | EmptyString => None
            end
          else if Ascii.eqb c quote then
            match parse_chars r with
            | Some (str, rest) => Some (Str str, rest)
            | None => None
            end
          else if startsWith "true" (String c r) then
            Some (Boolean true, drop_chars 4 (String c r))
          else if startsWith "false" (String c r) then
            Some (Boolean false, drop_chars 5 (String c r))
          else if startsWith "null" (String c r) then
            Some (Null, drop_chars 4 (String c r))
          else
            let tr := span_number (String c r) in
            if json_number (fst tr)
            then Some (Number (Number_of_string rt (fst tr)), snd tr)
            else None
      end
  end
with parse_members (fuel : nat) (acc : list (string * Value)) (s : string)
  : option (Value * string) :=
  match fuel with
  | O => None
  | S fuel' =>
      match skip_ws s with
      | EmptyString => None
      | String c r =>
          if Ascii.eqb c quote then
            match parse_chars r with
            | None => None
            | Some (key, r1) =>
                match skip_ws r1 with
                | EmptyString => None
                | String c1 r2 =>
                    if Ascii.eqb c1 ":" then
                      match parse_value fuel' r2 with
                      | None => None
                      | Some (v, r3) =>
                          match skip_ws r3 with
                          | EmptyString => None
                          | String c3 r4 =>
                              if Ascii.eqb c3 "," then
                                parse_members fuel' (set_member acc key v) r4
                              else if Ascii.eqb c3 "}" then
                                Some (Object (set_member acc key v), r4)
                              else None
                          end
                      end
                    else None
                end
            end
          else None
      end
  end
with parse_elements (fuel : nat) (acc : list Value) (s : string)
  : option (Value * string) :=
  match fuel with
  | O => None
  | S fuel' =>
      match parse_value fuel' s with
      | None => None
      | Some (v, r) =>
          match skip_ws r with
          | EmptyString => None
          | String c r' =>
              if Ascii.eqb c "," then parse_elements fuel' (acc ++ [v])%list r'
              else if Ascii.eqb c "]" then Some (Array (acc ++ [v])%list, r')
              else None
          end
      end
  end.

(** [JSON.parse(text)]: one value, with white space around it and
    nothing else. *)
Definition JSON_parse (text : string) : outcome Value :=
  match parse_value (S (String.length text)) text with
  | Some (v, rest) =>
      match skip_ws rest with
      | EmptyString => Return v
      | String _ _ => Throw (SyntaxError (syntax_error_message rt text))
      end
  | None => Throw (SyntaxError (syntax_error_message rt text))
  end.

(** [JSON.parse(v)] for a [v] of any type: the argument is converted to
    a string first. *)
Definition JSON_parse_value (v : Value) : outcome Value :=
  JSON_parse (ToString rt v).

End Parser.

(** ** Values that survive [JSON.stringify] and [JSON.parse] *)

(** A number that is written as a numeral and read back as itself: by
    the rules of the language every finite number but [-0] is. *)
Definition number_survives (rt : Runtime) (x : float) : Prop :=
  PrimFloat.is_finite x = true /\
  json_number (Number_toString rt x) = true /\
  Number_of_string rt (Number_toString rt x) = x.

Fixpoint plain (rt : Runtime) (v : Value) : Prop :=
  match v with
  | Undefined => False
  | Null | Boolean _ | Str _ => True
  | Number x => number_survives rt x
  | Array items =>
      (fix all (l : list Value) : Prop :=
         match l with
         | [] => True
         | item :: rest => plain rt item /\ all rest
         end) items
  | Object members =>
      NoDup (map fst members) /\
      (fix all (l : list (string * Value)) : Prop :=
         match l with
         | [] => True
         | member :: rest => plain rt (snd member) /\ all rest
         end) members
  end.

(** The text of a value inside an array, and of a member of an object. *)
Definition text_of (rt : Runtime) (v : Value) : string :=
  match SerializeJSONProperty rt v with
  | Some t => t
  | None => "null"
  end.

Definition member_text (rt : Runtime) (member : string * Value) : string :=
  QuoteJSONString (fst member) ++ ":" ++ text_of rt (snd member).

Fixpoint all_number_chars (s : string) : bool :=
  match s with
  | EmptyString => true
  | String c r => is_number_char c && all_number_chars r
  end.

(** A text that may follow a numeral. *)
Definition delimited (rest : string) : Prop :=
  match rest with
  | EmptyString => True
  | String c _ => is_number_char c = false
  end.

(** The characters a value may start with. *)
Definition value_start (c : ascii) : bool :=
  is_digit c || Ascii.eqb c "-" || Ascii.eqb c quote || Ascii.eqb c "{"
  || Ascii.eqb c "[" || Ascii.eqb c "t" || Ascii.eqb c "f" || Ascii.eqb c "n".

(** Texts of values are read back with any fuel above their length:
    the statement for the fuels up to [n]. *)
Definition reads (rt : Runtime) (n : nat) : Prop :=
  forall (fuel : nat) (v : Value) (rest : string),
    (fuel <= n)%nat -> plain rt v ->
    (String.length (text_of rt v) < fuel)%nat -> delimited rest ->
    parse_value rt fuel (text_of rt v ++ rest) = Some (v, rest).

End JS.

(** * The NFC and QR payload decoders
    ([services/NFCService.ts], [services/AlternativeNFCService.ts]) *)

Module NFC.
Import JS.

(** What the services take from the platform besides the language: the
    text-record decoder of [react-native-nfc-manager] and [TextDecoder].
    Either may throw (the library may have failed to load, and
    [TextDecoder] is not defined on every runtime). *)
Record Platform := {
  runtime : Runtime;
  (* Ndef.text.decodePayload(bytes) *)
  Ndef_text_decodePayload : list Z -> outcome string;
  (* new TextDecoder('utf-8').decode(bytes) *)
  TextDecoder_decode : list Z -> outcome string
}.

(** [tag.ndefMessage] and [record.payload], [None] when missing. *)
Record NdefRecord := { payload : option (list Z) }.
Record Tag := { ndefMessage : option (list NdefRecord) }.

(** [new Uint8Array(numbers)] *)
Definition Uint8Array (numbers : list Z) : list Z :=
  map (fun n => n mod 256) numbers.

(** [interface TreasureNFCData] *)
Record TreasureNFCData := {
  treasureId : string;
  name : string;
  description : string;
  rarity : float;
  coordinates : string;
  location : string;
  imageUrl : option string;
  requiredRank : float;
  rewardPoints : float;
  createdAt : float;
  signature : option string
}.

Definition optional (key : string) (field : option string)
  : list (string * Value) :=
  match field with
  | Some s => [(key, Str s)]
  | None => []
  end.

(** The object that is a [TreasureNFCData]; an optional property that
    is missing is not a property of the object. *)
Definition value_of (d : TreasureNFCData) : Value :=
  Object ([("treasureId", Str (treasureId d));
           ("name", Str (name d));
           ("description", Str (description d));
           ("rarity", Number (rarity d));
           ("coordinates", Str (coordinates d));
           ("location", Str (location d))]
          ++ optional "imageUrl" (imageUrl d)
          ++ [("requiredRank", Number (requiredRank d));
              ("rewardPoints", Number (rewardPoints d));
              ("createdAt", Number (createdAt d))]
          ++ optional "signature" (signature d))%list.

(** [v === 'text'] *)
Definition is_string (v : Value) (s : string) : bool :=
  match v with
  | Str x => String.eqb x s
  | _ => false
  end.

Section Decoders.
Variable pf : Platform.
Local Notation rt := (runtime pf).

(** The [try] block of the treasure format: both services hold the
    same code.  [now] is [Date.now()]. *)
Definition treasure_format (now : float) (payloadString : string)
  : outcome Value :=
  do! data := JSON_parse rt payloadString in
  do! nfc_data := Get rt data "nfc_data" in
  do! nfcData := JSON_parse_value rt nfc_data in
  do! id := Get rt nfcData "id" in
  do! treasure_name := Get rt data "treasure_name" in
  do! lat := Get rt nfcData "lat" in
  do! lng := Get rt nfcData "lng" in
  do! location_name := Get rt data "treasure_name" in
  do! t := Get rt nfcData "t" in
  do! h := Get rt nfcData "h" in
  Return (Object
            [("treasureId", or_else id (Str "unknown"));
             ("name", treasure_name);
             ("description", Str "Treasure discovered via NFC");
             ("rarity", Number 2);
             ("coordinates", Str (ToString rt lat ++ "," ++ ToString rt lng));
             ("location", location_name);
             ("requiredRank", Number 1);
             ("rewardPoints", Number 250);
             ("createdAt",
              Number (if ToBoolean t then (ToNumber rt t * 1000)%float else now));
             ("signature", h)]).

Definition has_treasure_format (payloadString : string) : bool :=
  includes payloadString "treasure_name" && includes payloadString "nfc_data".

(** The [try] block of the QR format in [NFCService]: a value when the
    payload is such a document, [None] when the test fails. *)
Definition qr_format (payloadString : string) : outcome (option Value) :=
  do! parsed := JSON_parse rt payloadString in
  do! type := Get rt parsed "type" in
  if is_string type "treasure_hunt_qr" then
    do! data := Get rt parsed "data" in
    if ToBoolean data then Return (Some data) else Return None
  else Return None.

(** The text with which a payload is accepted by the loop over the skip
    values: [decoded.includes('treasure_name') || decoded.includes('{')]. *)
Definition accepted (decoded : string) : bool :=
  includes decoded "treasure_name" || includes decoded "{".

(** One turn of the loop: the text of the payload from [skip] on, when
    [TextDecoder] returns one and it is accepted. *)
Definition decode_from (skip : nat) (payload : list Z) : option string :=
  match TextDecoder_decode pf (Uint8Array (drop skip payload)) with
  | Return decoded => if accepted decoded then Some decoded else None
  | Throw _ => None
  end.

(** [for (let skip = 0; skip <= 5; skip++)], left at the first text that
    is accepted. *)
Fixpoint first_decoded (skips : list nat) (payload : list Z) : option string :=
  match skips with
  | [] => None
  | skip :: rest =>
      match decode_from skip payload with
      | Some decoded => Some decoded
      | None => first_decoded rest payload
      end
  end.

(** The decoding of the payload in [processNFCTag]. *)
Definition decode_payload (payload : list Z) : result string :=
  match Ndef_text_decodePayload pf (Uint8Array payload) with
  | Return payloadString => Ok payloadString
  | Throw _ =>
      match first_decoded [0; 1; 2; 3; 4; 5]%nat payload with
      | Some payloadString => Ok payloadString
      | None => Err "Failed to decode NFC payload"
      end
  end.

(** [processNFCTag], which both services hold word for word, over the
    [parseTreasureFromPayload] of the service. *)
Definition process_tag (parse : string -> result Value) (tag : Tag)
  : result Value :=
  match ndefMessage tag with
  | None | Some [] => Err "No NDEF data found on tag"
  | Some (record :: _) =>
      match payload record with
      | None => Err "No payload in NDEF record"
      | Some bytes =>
          match decode_payload bytes with
          | Ok payloadString => parse payloadString
          | Err message => Err message
          end
      end
  end.

End Decoders.

(** What [getRarityInfo] and [getRankInfo] return. *)
Record DisplayInfo := {
  info_name : string;
  info_color : string;
  info_emoji : string
}.

(** ** [services/NFCService.ts] *)

Module NFCService.

(** [getRarityInfo]: a [switch] on the number. *)
Definition getRarityInfo (rarity : float) : DisplayInfo :=
  if (rarity =? 3)%float then
    {| info_name := "Legendary"; info_color := "#ffd700"; info_emoji := "💎" |}
  else if (rarity =? 2)%float then
    {| info_name := "Rare"; info_color := "#c084fc"; info_emoji := "💜" |}
  else if (rarity =? 1)%float then
    {| info_name := "Common"; info_color := "#10b981"; info_emoji := "💚" |}
  else
    {| info_name := "Unknown"; info_color := "#6b7280"; info_emoji := "❓" |}.

(** [getRankInfo] *)
Definition getRankInfo (rank : float) : DisplayInfo :=
  if (rank =? 4)%float then
    {| info_name := "Master Hunter"; info_color := "#f59e0b"; info_emoji := "🏆" |}
  else if (rank =? 3)%float then
    {| info_name := "Hunter"; info_color := "#8b5cf6"; info_emoji := "🎯" |}
  else if (rank =? 2)%float then
    {| info_name := "Explorer"; info_color := "#3b82f6"; info_emoji := "🧭" |}
  else if (rank =? 1)%float then
    {| info_name := "Beginner"; info_color := "#10b981"; info_emoji := "🌟" |}
  else
    {| info_name := "Unknown"; info_color := "#6b7280"; info_emoji := "❓" |}.

Section Service.
Variable pf : Platform.
Local Notation rt := (runtime pf).

Definition parseTreasureFromPayload (now : float) (payloadString : string)
  : result Value :=
  if has_treasure_format payloadString then
    match treasure_format pf now payloadString with
    | Return treasure => Ok treasure
    | Throw parseError =>
        Err ("Failed to parse treasure format: " ++ text parseError)
    end
  else
    match qr_format pf payloadString with
    | Return (Some data) => Ok data
    | Return None | Throw _ => Err "Unrecognized payload format"
    end.

Definition processNFCTag (now : float) (tag : Tag) : result Value :=
  process_tag pf (parseTreasureFromPayload now) tag.

Definition generateQRData (treasureData : Value) : string :=
  SerializeJSONObject rt
    [("type", Str "treasure_hunt_qr");
     ("version", Str "1.0");
     ("data", treasureData)].

(** The [try] block of [parseQRData], after [JSON.parse]. *)
Definition qr_data (parsed : Value) : outcome Value :=
  do! type := Get rt parsed "type" in
  if negb (is_string type "treasure_hunt_qr") then
    Throw (Error "Invalid QR treasure data format")
  else
    do! data := Get rt parsed "data" in
    if negb (ToBoolean data) then Throw (Error "Invalid QR treasure data format")
    else Return data.

Definition qr_document (qrString : string) : outcome Value :=
  do! parsed := JSON_parse rt qrString in
  qr_data parsed.

Definition parseQRData (qrString : string) : result Value :=
  match qr_document qrString with
  | Return data => Ok data
  | Throw error => Err ("Invalid QR data: " ++ message error)
  end.

End Service.
End NFCService.

(** ** [services/AlternativeNFCService.ts] *)

Module AlternativeNFCService.
Section Service.
Variable pf : Platform.

Definition parseTreasureFromPayload (now : float) (payloadString : string)
  : result Value :=
  if has_treasure_format payloadString then
    match treasure_format pf now payloadString with
    | Return treasure => Ok treasure
    | Throw parseError =>
        Err ("Failed to parse treasure format: " ++ text parseError)
    end
  else Err "Unrecognized payload format".

Definition processNFCTag (now : float) (tag : Tag) : result Value :=
  process_tag pf (parseTreasureFromPayload now) tag.

End Service.
End AlternativeNFCService.

(** What both services make of a tag, given the text that the decoding
    of the payload settles on, or the error it ends with. *)
Definition chooses (pf : Platform) (now : float) (tag : Tag)
  (choice : result string) : Prop :=
  NFCService.processNFCTag pf now tag
  = match choice with
    | Ok decoded => NFCService.parseTreasureFromPayload pf now decoded
    | Err message => Err message
    end /\
  AlternativeNFCService.processNFCTag pf now tag
  = match choice with
    | Ok decoded => AlternativeNFCService.parseTreasureFromPayload pf now decoded
    | Err message => Err message
    end.

(** The value of a property of an object, [undefined] for any other
    value. *)
Definition property (v : Value) (key : string) : Value :=
  match v with
  | Object members =>
      match lookup_member key members with
      | Some x => x
      | None => Undefined
      end
  | _ => Undefined
  end.

(** What [JSON.stringify] leaves of a number: a number that is not
    finite is written [null]. *)
Definition through_json (x : float) : Value :=
  if PrimFloat.is_finite x then Number x else Null.

(** The object of a [TreasureNFCData] with its numbers as
    [JSON.stringify] leaves them. *)
Definition read_back (d : TreasureNFCData) : Value :=
  Object ([("treasureId", Str (treasureId d));
           ("name", Str (name d));
           ("description", Str (description d));
           ("rarity", through_json (rarity d));
           ("coordinates", Str (coordinates d));
           ("location", Str (location d))]
          ++ optional "imageUrl" (imageUrl d)
          ++ [("requiredRank", through_json (requiredRank d));
              ("rewardPoints", through_json (rewardPoints d));
              ("createdAt", through_json (createdAt d))]
          ++ optional "signature" (signature d))%list.

(** The numeric properties of a [TreasureNFCData], by name. *)
Definition number_fields (d : TreasureNFCData) : list (string * float) :=
  [("rarity", rarity d); ("requiredRank", requiredRank d);
   ("rewardPoints", rewardPoints d); ("createdAt", createdAt d)].

(** The numbers of a [TreasureNFCData]. *)
Definition numbers (d : TreasureNFCData) : list float :=
  [rarity d; requiredRank d; rewardPoints d; createdAt d].

End NFC.

(** * What every run of a program satisfies *)

Module Runs.
Import Sui.

(** [always p post]: whatever the answers to its requests, the program
    [p] ends with a trace and an outcome that satisfy [post]. *)
Fixpoint always {A : Type} (p : Prog A) (post : list Event -> A -> Prop) : Prop :=
  match p with
  | Ret a => post [] a
  | Call op k => forall x, always (k x) (fun trace a => post (event op x :: trace) a)
  end.

(** The transaction with which [createHunterProfile] registers a hunter. *)
Definition create_profile_tx (a username : string) : Tx :=
  {| sender := a; gasBudget := 20000000;
     target := packageId ++ "::treasure_nft::create_hunter_profile";
     call := create_hunter_profile username |}.

(** An object of [res] that was created, whose type holds [marker] and
    whose identifier is [oid]. *)
Definition creates (res : TxResult) (marker oid : string) : Prop :=
  exists c, In c (createdObjects res) /\
            created_of_type marker c = true /\ objectId c = Some oid.

(** The transactions of a trace that were executed, each with what the
    node answered. *)
Definition executed (e : Event) : list (Tx * TxResult) :=
  match e with
  | event op answer =>
      match op in Op X return X -> list (Tx * TxResult) with
      | SignAndExecute tx => fun r => match r with Ok res => [(tx, res)] | Err _ => [] end
      | _ => fun _ => []
      end answer
  end.

Definition executions (trace : list Event) : list (Tx * TxResult) :=
  flat_map executed trace.

(** The transactions [findTreasure] may submit for the wallet [a]: at
    most one registration of a hunter named TreasureHunter, then at most
    one [find_treasure] for the treasure and the location proof of the
    call. *)
Definition budget (a treasureId locationProof : string) (txs : list Tx) : Prop :=
  txs = [] \/
  txs = [create_profile_tx a "TreasureHunter"] \/
  (exists reg prof,
      txs = [find_treasure_tx a reg prof treasureId locationProof]) \/
  (exists reg prof,
      txs = [create_profile_tx a "TreasureHunter";
             find_treasure_tx a reg prof treasureId locationProof]).

(** Whether a request of the trace is a [getObject] for [ident] that was
    answered. *)
Definition object_seen (ident : string) (e : Event) : bool :=
  match e with
  | event op answer =>
      match op in Op X return X -> bool with
      | GetObject i => fun r => String.eqb i ident && is_ok r
      | _ => fun _ => false
      end answer
  end.

(** What a resolved [findTreasure] rests on: the wallet [a] submitted
    one [find_treasure] for the treasure and the location proof of the
    call, after at most one registration of the hunter; the node executed
    it with success and created the NFT that is returned; the registry
    named in it had answered a [getObject]; and the result repeats the
    digest, the treasure, the proof and the NFT. *)
Definition settled_by (treasureId locationProof : string) (trace : list Event)
  (r : TreasureDiscoveryResult) (svc' : Service) : Prop :=
  exists a reg prof res,
    keypair svc' = Some a /\
    treasureRegistryId svc' = Some reg /\
    hunterProfileId svc' = Some prof /\
    (submitted trace = [find_treasure_tx a reg prof treasureId locationProof] \/
     submitted trace = [create_profile_tx a "TreasureHunter";
                        find_treasure_tx a reg prof treasureId locationProof]) /\
    find_answers trace = [Ok res] /\
    succeeded res = true /\
    creates res "TreasureNFT" (nftObjectId r) /\
    existsb (object_seen reg) trace = true /\
    transactionDigest r = digest res /\
    hunterProfileUpdated r = true /\
    td_treasureId (treasureData r) = treasureId /\
    td_locationProof (treasureData r) = locationProof /\
    td_nftObjectId (treasureData r) = nftObjectId r /\
    td_transactionDigest (treasureData r) = digest res.

(** What [findTreasure] and its [try] block keep to in every run, and
    what a resolved call rests on. *)
Definition find_post (s : Service) (a treasureId locationProof : string)
  (trace : list Event) (out : result TreasureDiscoveryResult * Service) : Prop :=
  budget a treasureId locationProof (submitted trace) /\
  (treasureRegistryId s = None -> submitted trace = [] /\ exists m, fst out = Err m) /\
  (forall r, fst out = Ok r -> settled_by treasureId locationProof trace r (snd out)).

(** Whether a request is a balance query that was rejected. *)
Definition balance_rejected (e : Event) : bool :=
  match e with
  | event op answer =>
      match op in Op X return X -> bool with
      | GetBalance _ _ => fun r => negb (is_ok r)
      | _ => fun _ => false
      end answer
  end.

(** Whether a request writes [value] under [key] in the local storage
    and is answered. *)
Definition stored (key value : string) (e : Event) : bool :=
  match e with
  | event op answer =>
      match op in Op X return X -> bool with
      | StorageSet k v => fun r => String.eqb k key && String.eqb v value && is_ok r
      | _ => fun _ => false
      end answer
  end.

End Runs.


(** * The treasures kept on the device
    ([storeTreasureLocally] and [getLocalTreasures] of
    [services/SuiService.ts], over [AsyncStorage] and [JSON]) *)

Module LocalStore.
Import Sui JS.

Section Store.
Variable rt : Runtime.

(** The items of a text that is spread, [[...text]]: the strings of its
    code points. *)
Variable characters : string -> list string.

(** [getLocalTreasures]: [treasuresJson ? JSON.parse(treasuresJson) : []],
    and [[]] when the read or [JSON.parse] throws. *)
Definition getLocalTreasures : Prog Value :=
  Call (StorageGet "found_treasures")
    (fun answer =>
       Ret match answer with
           | Ok (Some treasuresJson) =>
               if String.eqb treasuresJson "" then Array []
               else match JSON_parse rt treasuresJson with
                    | Return treasures => treasures
                    | Throw _ => Array []
                    end
           | Ok None | Err _ => Array []
           end).

(** [[...existingTreasures, treasureData]]: an array and a text are
    iterated, every other value throws a [TypeError]. *)
Definition with_treasure (existingTreasures treasureData : Value)
  : option (list Value) :=
  match existingTreasures with
  | Array items => Some (items ++ [treasureData])%list
  | Str s => Some (map Str (characters s) ++ [treasureData])%list
  | _ => None
  end.

(** [storeTreasureLocally]: the [catch] block logs and returns, also when
    [setItem] is rejected.  [JSON.stringify] of an array is a text. *)
Definition storeTreasureLocally (treasureData : Value) : Prog unit :=
  pbind getLocalTreasures
    (fun existingTreasures =>
       match with_treasure existingTreasures treasureData with
       | Some updatedTreasures =>
           Call (StorageSet "found_treasures" (text_of rt (Array updatedTreasures)))
             (fun _ => Ret tt)
       | None => Ret tt
       end).

End Store.

(** What a trace writes to the local storage, in order. *)
Definition written_of (e : Event) : list (string * string) :=
  match e with
  | event op _ =>
      match op with
      | StorageSet key value => [(key, value)]
      | _ => []
      end
  end.

Definition written (trace : list Event) : list (string * string) :=
  flat_map written_of trace.

(** A storage that keeps what is set: [items] reads the items out of the
    state of the environment; a read answers with the item and changes none,
    a write is answered and replaces one item. *)
Definition keeps_items {S : Type} (env : Env S)
  (items : S -> string -> option string) : Prop :=
  (forall (key : string) (s : S),
      fst (env _ (StorageGet key) s) = Ok (items s key) /\
      forall k, items (snd (env _ (StorageGet key) s)) k = items s k) /\
  (forall (key value : string) (s : S) (k : string),
      items (snd (env _ (StorageSet key value) s)) k
      = if String.eqb k key then Some value else items s k).

(** The store holds the treasures [found]: no item yet and no treasure,
    or the JSON text of the list. *)
Definition holds (rt : Runtime) (item : option string) (found : list Value) : Prop :=
  match item with
  | None => found = []%list
  | Some treasuresJson => treasuresJson = text_of rt (Array found)
  end.

End LocalStore.

(** * The treasure slice ([store/slices/treasureSlice.ts]) *)

Module TreasureSlice.

#[local] Open Scope list_scope.

Inductive Rarity := common | rare | epic | legendary.

(** The key of a rarity in [rarityDistribution]. *)
Definition rarity_name (r : Rarity) : string :=
  match r with
  | common => "common"
  | rare => "rare"
  | epic => "epic"
  | legendary => "legendary"
  end.

Inductive Category := historical | nature | urban | mystery | art | technology.
Inductive ClueType := text | image | riddle | coordinate.
Inductive RequirementType := level | achievement | time | weather | group_size.
Inductive HuntStatus := active | completed | abandoned | failed.
Inductive SortBy := by_distance | by_rarity | by_difficulty | by_created | by_reward.
Inductive SortOrder := asc | desc.

Record Coordinates := {
  latitude : float;
  longitude : float
}.

Record NFTAttribute := {
  trait_type : string;
  trait_value : string + float
}.

Record TreasureNFTMetadata := {
  nft_name : string;
  nft_description : string;
  image_url : string;
  attributes : list NFTAttribute;
  external_url : option string;
  animation_url : option string
}.

Record TreasureClue := {
  clue_id : string;
  clue_type : ClueType;
  content : string;
  isRevealed : bool;
  revealedAt : option string;
  order : float
}.

Record TreasureRequirement := {
  requirement_type : RequirementType;
  requirement_value : JS.Value;
  requirement_description : string;
  isMet : bool
}.

Record Reward := {
  experience : float;
  sui : float;
  nftMetadata : option TreasureNFTMetadata
}.

Record Treasure := {
  id : string;
  name : string;
  description : string;
  rarity : Rarity;
  coordinates : Coordinates;
  address : option string;
  imageUrl : option string;
  isFound : bool;
  foundAt : option string;
  foundBy : option string;
  createdAt : string;
  expiresAt : option string;
  difficulty : float;
  reward : Reward;
  clues : list TreasureClue;
  requirements : list TreasureRequirement;
  tags : list string;
  category : Category;
  distance : option float
}.

Record TreasureFilter := {
  filter_rarity : option (list Rarity);
  filter_difficulty : option (list float);
  filter_category : option (list string);
  maxDistance : option float;
  showFound : option bool;
  sortBy : option SortBy;
  sortOrder : option SortOrder
}.

(** [Partial<TreasureFilter>]: a key is missing ([None]) or holds a
    value, which may be [undefined]. *)
Record FilterUpdate := {
  update_rarity : option (option (list Rarity));
  update_difficulty : option (option (list float));
  update_category : option (option (list string));
  update_maxDistance : option (option float);
  update_showFound : option (option bool);
  update_sortBy : option (option SortBy);
  update_sortOrder : option (option SortOrder)
}.

Record RoutePoint := {
  route_latitude : float;
  route_longitude : float;
  route_timestamp : string
}.

Record TreasureHunt := {
  hunt_id : string;
  treasureId : string;
  hunterId : string;
  startedAt : string;
  completedAt : option string;
  status : HuntStatus;
  timeSpent : float;
  hintsUsed : float;
  hunt_distance : float;
  route : list RoutePoint
}.

Record UserLocation := {
  user_latitude : float;
  user_longitude : float;
  accuracy : option float;
  user_timestamp : string
}.

Record Stats := {
  totalFound : float;
  totalDistance : float;
  averageHuntTime : float;
  successRate : float;
  favoriteCategory : string;
  rarityDistribution : list (string * float)
}.

Record TreasureState := {
  nearbyTreasures : list Treasure;
  foundTreasures : list Treasure;
  allTreasures : list Treasure;
  currentTreasure : option Treasure;
  activeHunt : option TreasureHunt;
  huntHistory : list TreasureHunt;
  isLoading : bool;
  error : option string;
  filters : TreasureFilter;
  searchQuery : string;
  userLocation : option UserLocation;
  stats : Stats
}.

Definition initialState : TreasureState :=
  {| nearbyTreasures := []; foundTreasures := []; allTreasures := [];
     currentTreasure := None; activeHunt := None; huntHistory := [];
     isLoading := false; error := None;
     filters := {| filter_rarity := None; filter_difficulty := None;
                   filter_category := None; maxDistance := None;
                   showFound := Some false; sortBy := Some by_distance;
                   sortOrder := Some asc |};
     searchQuery := "";
     userLocation := None;
     stats := {| totalFound := 0; totalDistance := 0; averageHuntTime := 0;
                 successRate := 0; favoriteCategory := "";
                 rarityDistribution := [] |} |}.

(** ** Assignments to the draft *)

Definition set_nearbyTreasures (l : list Treasure) (st : TreasureState) :=
  {| nearbyTreasures := l; foundTreasures := foundTreasures st;
     allTreasures := allTreasures st; currentTreasure := currentTreasure st;
     activeHunt := activeHunt st; huntHistory := huntHistory st;
     isLoading := isLoading st; error := error st; filters := filters st;
     searchQuery := searchQuery st; userLocation := userLocation st;
     stats := stats st |}.

Definition set_foundTreasures (l : list Treasure) (st : TreasureState) :=
  {| nearbyTreasures := nearbyTreasures st; foundTreasures := l;
     allTreasures := allTreasures st; currentTreasure := currentTreasure st;
     activeHunt := activeHunt st; huntHistory := huntHistory st;
     isLoading := isLoading st; error := error st; filters := filters st;
     searchQuery := searchQuery st; userLocation := userLocation st;
     stats := stats st |}.

Definition set_allTreasures (l : list Treasure) (st : TreasureState) :=
  {| nearbyTreasures := nearbyTreasures st; foundTreasures := foundTreasures st;
     allTreasures := l; currentTreasure := currentTreasure st;
     activeHunt := activeHunt st; huntHistory := huntHistory st;
     isLoading := isLoading st; error := error st; filters := filters st;
     searchQuery := searchQuery st; userLocation := userLocation st;
     stats := stats st |}.

Definition set_currentTreasure (t : option Treasure) (st : TreasureState) :=
  {| nearbyTreasures := nearbyTreasures st; foundTreasures := foundTreasures st;
     allTreasures := allTreasures st; currentTreasure := t;
     activeHunt := activeHunt st; huntHistory := huntHistory st;
     isLoading := isLoading st; error := error st; filters := filters st;
     searchQuery := searchQuery st; userLocation := userLocation st;
     stats := stats st |}.

Definition set_activeHunt (h : option TreasureHunt) (st : TreasureState) :=
  {| nearbyTreasures := nearbyTreasures st; foundTreasures := foundTreasures st;
     allTreasures := allTreasures st; currentTreasure := currentTreasure st;
     activeHunt := h; huntHistory := huntHistory st;
     isLoading := isLoading st; error := error st; filters := filters st;
     searchQuery := searchQuery st; userLocation := userLocation st;
     stats := stats st |}.

Definition set_huntHistory (l : list TreasureHunt) (st : TreasureState) :=
  {| nearbyTreasures := nearbyTreasures st; foundTreasures := foundTreasures st;
     allTreasures := allTreasures st; currentTreasure := currentTreasure st;
     activeHunt := activeHunt st; huntHistory := l;
     isLoading := isLoading st; error := error st; filters := filters st;
     searchQuery := searchQuery st; userLocation := userLocation st;
     stats := stats st |}.

Definition set_isLoading (b : bool) (st : TreasureState) :=
  {| nearbyTreasures := nearbyTreasures st; foundTreasures := foundTreasures st;
     allTreasures := allTreasures st; currentTreasure := currentTreasure st;
     activeHunt := activeHunt st; huntHistory := huntHistory st;
     isLoading := b; error := error st; filters := filters st;
     searchQuery := searchQuery st; userLocation := userLocation st;
     stats := stats st |}.

Definition set_error (e : option string) (st : TreasureState) :=
  {| nearbyTreasures := nearbyTreasures st; foundTreasures := foundTreasures st;
     allTreasures := allTreasures st; currentTreasure := currentTreasure st;
     activeHunt := activeHunt st; huntHistory := huntHistory st;
     isLoading := isLoading st; error := e; filters := filters st;
     searchQuery := searchQuery st; userLocation := userLocation st;
     stats := stats st |}.

Definition set_filters (f : TreasureFilter) (st : TreasureState) :=
  {| nearbyTreasures := nearbyTreasures st; foundTreasures := foundTreasures st;
     allTreasures := allTreasures st; currentTreasure := currentTreasure st;
     activeHunt := activeHunt st; huntHistory := huntHistory st;
     isLoading := isLoading st; error := error st; filters := f;
     searchQuery := searchQuery st; userLocation := userLocation st;
     stats := stats st |}.

Definition set_searchQuery (q : string) (st : TreasureState) :=
  {| nearbyTreasures := nearbyTreasures st; foundTreasures := foundTreasures st;
     allTreasures := allTreasures st; currentTreasure := currentTreasure st;
     activeHunt := activeHunt st; huntHistory := huntHistory st;
     isLoading := isLoading st; error := error st; filters := filters st;
     searchQuery := q; userLocation := userLocation st;
     stats := stats st |}.

Definition set_userLocation (l : option UserLocation) (st : TreasureState) :=
  {| nearbyTreasures := nearbyTreasures st; foundTreasures := foundTreasures st;
     allTreasures := allTreasures st; currentTreasure := currentTreasure st;
     activeHunt := activeHunt st; huntHistory := huntHistory st;
     isLoading := isLoading st; error := error st; filters := filters st;
     searchQuery := searchQuery st; userLocation := l;
     stats := stats st |}.

Definition set_stats (s : Stats) (st : TreasureState) :=
  {| nearbyTreasures := nearbyTreasures st; foundTreasures := foundTreasures st;
     allTreasures := allTreasures st; currentTreasure := currentTreasure st;
     activeHunt := activeHunt st; huntHistory := huntHistory st;
     isLoading := isLoading st; error := error st; filters := filters st;
     searchQuery := searchQuery st; userLocation := userLocation st;
     stats := s |}.

(** [treasure.isFound = true; treasure.foundAt = ...], and
    [treasure.foundBy = ...] where the reducer assigns it. *)
Definition found (at_time : string) (by_hunter : option string) (t : Treasure)
  : Treasure :=
  {| id := id t; name := name t; description := description t;
     rarity := rarity t; coordinates := coordinates t; address := address t;
     imageUrl := imageUrl t; isFound := true; foundAt := Some at_time;
     foundBy := match by_hunter with Some h => Some h | None => foundBy t end;
     createdAt := createdAt t; expiresAt := expiresAt t;
     difficulty := difficulty t; reward := reward t; clues := clues t;
     requirements := requirements t; tags := tags t; category := category t;
     distance := distance t |}.

Definition with_clues (t : Treasure) (l : list TreasureClue) : Treasure :=
  {| id := id t; name := name t; description := description t;
     rarity := rarity t; coordinates := coordinates t; address := address t;
     imageUrl := imageUrl t; isFound := isFound t; foundAt := foundAt t;
     foundBy := foundBy t; createdAt := createdAt t; expiresAt := expiresAt t;
     difficulty := difficulty t; reward := reward t; clues := l;
     requirements := requirements t; tags := tags t; category := category t;
     distance := distance t |}.

(** [list.find(t => t.id === ident)] *)
Definition find_treasure (ident : string) (l : list Treasure) : option Treasure :=
  List.find (fun t => String.eqb (id t) ident) l.

(** [list.filter(t => t.id !== ident)] *)
Definition without (ident : string) (l : list Treasure) : list Treasure :=
  List.filter (fun t => negb (String.eqb (id t) ident)) l.

(** [distribution[key]], [undefined] when the object has no such
    property. *)
Fixpoint count_of (key : string) (distribution : list (string * float))
  : option float :=
  match distribution with
  | [] => None
  | (k, x) :: rest => if String.eqb k key then Some x else count_of key rest
  end.

(** [distribution[key] = x]: a property keeps its place, a new one
    comes last. *)
Fixpoint set_count (key : string) (x : float) (distribution : list (string * float))
  : list (string * float) :=
  match distribution with
  | [] => [(key, x)]
  | (k, y) :: rest =>
      if String.eqb k key then (k, x) :: rest
      else (k, y) :: set_count key x rest
  end.

(** [(distribution[key] || 0) + 1] *)
Definition next_count (key : string) (distribution : list (string * float))
  : float :=
  match count_of key distribution with
  | Some x =>
      if PrimFloat.eqb x 0 || PrimFloat.is_nan x then (0 + 1)%float
      else (x + 1)%float
  | None => (0 + 1)%float
  end.

(** ** The reducers *)

Definition setCurrentTreasure (payload : option Treasure) (st : TreasureState)
  : TreasureState :=
  set_currentTreasure payload st.

(** The payload of [setUserLocation]. *)
Record LocationFix := {
  fix_latitude : float;
  fix_longitude : float;
  fix_accuracy : option float
}.

(** [setUserLocation]; [now] is [new Date().toISOString()]. *)
Definition setUserLocation (now : string) (payload : LocationFix)
  (st : TreasureState) : TreasureState :=
  set_userLocation
    (Some {| user_latitude := fix_latitude payload;
             user_longitude := fix_longitude payload;
             accuracy := fix_accuracy payload;
             user_timestamp := now |}) st.

(** One key of [{ ...state.filters, ...action.payload }]. *)
Definition spread_key {A : Type} (old : option A) (new : option (option A))
  : option A :=
  match new with
  | Some v => v
  | None => old
  end.

Definition updateFilters (payload : FilterUpdate) (st : TreasureState)
  : TreasureState :=
  let f := filters st in
  set_filters
    {| filter_rarity := spread_key (filter_rarity f) (update_rarity payload);
       filter_difficulty := spread_key (filter_difficulty f) (update_difficulty payload);
       filter_category := spread_key (filter_category f) (update_category payload);
       maxDistance := spread_key (maxDistance f) (update_maxDistance payload);
       showFound := spread_key (showFound f) (update_showFound payload);
       sortBy := spread_key (sortBy f) (update_sortBy payload);
       sortOrder := spread_key (sortOrder f) (update_sortOrder payload) |} st.

Definition setSearchQuery (payload : string) (st : TreasureState) : TreasureState :=
  set_searchQuery payload st.

(** [markTreasureFound]; [now] is [new Date().toISOString()]. *)
Definition markTreasureFound (now : string) (ident hunter : string)
  (st : TreasureState) : TreasureState :=
  match find_treasure ident (nearbyTreasures st) with
  | Some treasure =>
      let treasure := found now (Some hunter) treasure in
      let s := stats st in
      let key := rarity_name (rarity treasure) in
      {| nearbyTreasures := without ident (nearbyTreasures st);
         foundTreasures := foundTreasures st ++ [treasure];
         allTreasures := allTreasures st;
         currentTreasure := currentTreasure st;
         activeHunt := activeHunt st; huntHistory := huntHistory st;
         isLoading := isLoading st; error := error st; filters := filters st;
         searchQuery := searchQuery st; userLocation := userLocation st;
         stats :=
           {| totalFound := (totalFound s + 1)%float;
              totalDistance := totalDistance s;
              averageHuntTime := averageHuntTime s;
              successRate := successRate s;
              favoriteCategory := favoriteCategory s;
              rarityDistribution :=
                set_count key (next_count key (rarityDistribution s))
                  (rarityDistribution s) |} |}
  | None => st
  end.

(** The first clue with the identifier is revealed. *)
Fixpoint reveal (now : string) (ident : string) (l : list TreasureClue)
  : list TreasureClue :=
  match l with
  | [] => []
  | c :: rest =>
      if String.eqb (clue_id c) ident then
        {| clue_id := clue_id c; clue_type := clue_type c; content := content c;
           isRevealed := true; revealedAt := Some now; order := order c |} :: rest
      else c :: reveal now ident rest
  end.

(** [revealClue] *)
Definition revealClue (now : string) (ident clue : string) (st : TreasureState)
  : TreasureState :=
  match currentTreasure st with
  | Some treasure =>
      if String.eqb (id treasure) ident then
        set_currentTreasure
          (Some (with_clues treasure (reveal now clue (clues treasure)))) st
      else st
  | None => st
  end.

(** The payload of [updateHuntProgress]. *)
Record HuntProgress := {
  progress_timeSpent : float;
  progress_distance : float;
  progress_location : Coordinates
}.

Definition updateHuntProgress (now : string) (payload : HuntProgress)
  (st : TreasureState) : TreasureState :=
  match activeHunt st with
  | Some h =>
      set_activeHunt
        (Some {| hunt_id := hunt_id h; treasureId := treasureId h;
                 hunterId := hunterId h; startedAt := startedAt h;
                 completedAt := completedAt h; status := status h;
                 timeSpent := progress_timeSpent payload;
                 hintsUsed := hintsUsed h;
                 hunt_distance := progress_distance payload;
                 route := route h ++
                   [{| route_latitude := latitude (progress_location payload);
                       route_longitude := longitude (progress_location payload);
                       route_timestamp := now |}] |}) st
  | None => st
  end.

Definition useHint (st : TreasureState) : TreasureState :=
  match activeHunt st with
  | Some h =>
      set_activeHunt
        (Some {| hunt_id := hunt_id h; treasureId := treasureId h;
                 hunterId := hunterId h; startedAt := startedAt h;
                 completedAt := completedAt h; status := status h;
                 timeSpent := timeSpent h;
                 hintsUsed := (hintsUsed h + 1)%float;
                 hunt_distance := hunt_distance h;
                 route := route h |}) st
  | None => st
  end.

(** [hunt.status = ...] and, where the reducer assigns it,
    [hunt.completedAt = ...]. *)
Definition closed (s : HuntStatus) (at_time : option string) (h : TreasureHunt)
  : TreasureHunt :=
  {| hunt_id := hunt_id h; treasureId := treasureId h; hunterId := hunterId h;
     startedAt := startedAt h;
     completedAt := match at_time with Some t => Some t | None => completedAt h end;
     status := s; timeSpent := timeSpent h; hintsUsed := hintsUsed h;
     hunt_distance := hunt_distance h; route := route h |}.

Definition abandonHunt (st : TreasureState) : TreasureState :=
  match activeHunt st with
  | Some h =>
      set_currentTreasure None
        (set_activeHunt None
           (set_huntHistory (huntHistory st ++ [closed abandoned None h]) st))
  | None => st
  end.

Definition addTreasureToNearby (payload : Treasure) (st : TreasureState)
  : TreasureState :=
  match find_treasure (id payload) (nearbyTreasures st) with
  | Some _ => st
  | None => set_nearbyTreasures (nearbyTreasures st ++ [payload]) st
  end.

Definition removeTreasureFromNearby (payload : string) (st : TreasureState)
  : TreasureState :=
  set_nearbyTreasures (without payload (nearbyTreasures st)) st.

Definition clearNearbyTreasures (st : TreasureState) : TreasureState :=
  set_nearbyTreasures [] st.

Definition setError (payload : option string) (st : TreasureState) : TreasureState :=
  set_error payload st.

Definition clearError (st : TreasureState) : TreasureState :=
  set_error None st.

Definition resetTreasureState (st : TreasureState) : TreasureState :=
  initialState.

(** ** The reducers of the thunks *)

(** [action.error.message || fallback] *)
Definition message_or (message : option string) (fallback : string) : string :=
  match message with
  | Some m => if String.eqb m "" then fallback else m
  | None => fallback
  end.

Definition loadNearbyTreasures_pending (st : TreasureState) : TreasureState :=
  set_error None (set_isLoading true st).

Definition loadNearbyTreasures_fulfilled (payload : list Treasure)
  (st : TreasureState) : TreasureState :=
  set_allTreasures (foundTreasures st ++ payload)
    (set_nearbyTreasures payload (set_isLoading false st)).

Definition loadNearbyTreasures_rejected (message : option string)
  (st : TreasureState) : TreasureState :=
  set_error (Some (message_or message "Failed to load nearby treasures"))
    (set_isLoading false st).

Definition startTreasureHunt_pending (st : TreasureState) : TreasureState :=
  set_isLoading true st.

Definition startTreasureHunt_fulfilled (payload : TreasureHunt)
  (st : TreasureState) : TreasureState :=
  let st := set_activeHunt (Some payload) (set_isLoading false st) in
  match find_treasure (treasureId payload) (nearbyTreasures st) with
  | Some treasure => set_currentTreasure (Some treasure) st
  | None => st
  end.

Definition startTreasureHunt_rejected (message : option string)
  (st : TreasureState) : TreasureState :=
  set_error (Some (message_or message "Failed to start treasure hunt"))
    (set_isLoading false st).

Definition completeTreasureHunt_pending (st : TreasureState) : TreasureState :=
  set_isLoading true st.

(** What the thunk [completeTreasureHunt] returns. *)
Record Completion := {
  huntId : string;
  success : bool;
  completion_completedAt : string;
  finalLocation : Coordinates
}.

(** The length of an array, as a number. *)
Definition length_of {A : Type} (l : list A) : float :=
  PrimFloat.of_uint63 (Uint63.of_Z (Z.of_nat (List.length l))).

(** [huntHistory.reduce((sum, hunt) => sum + hunt.timeSpent, 0)
     / huntHistory.length] *)
Definition average_time (history : list TreasureHunt) : float :=
  (fold_left (fun sum hunt => (sum + timeSpent hunt)%float) history 0%float
   / length_of history)%float.

Definition is_completed (h : TreasureHunt) : bool :=
  match status h with
  | completed => true
  | _ => false
  end.

(** [(huntHistory.filter(h => h.status === 'completed').length
      / huntHistory.length) * 100] *)
Definition success_rate (history : list TreasureHunt) : float :=
  (length_of (List.filter is_completed history) / length_of history * 100)%float.

Definition completeTreasureHunt_fulfilled (payload : Completion)
  (st : TreasureState) : TreasureState :=
  let st := set_isLoading false st in
  match activeHunt st with
  | Some h =>
      let hunt :=
        closed (if success payload then completed else failed)
          (Some (completion_completedAt payload)) h in
      let history := huntHistory st ++ [hunt] in
      let st := set_huntHistory history st in
      let st :=
        match success payload, currentTreasure st with
        | true, Some treasure =>
            let treasure := found (completion_completedAt payload) None treasure in
            let s := stats st in
            set_stats
              {| totalFound := (totalFound s + 1)%float;
                 totalDistance := (totalDistance s + hunt_distance hunt)%float;
                 averageHuntTime :=
                   if (0 <? length_of history)%float then average_time history
                   else 0%float;
                 successRate :=
                   if (0 <? length_of history)%float then success_rate history
                   else 0%float;
                 favoriteCategory := favoriteCategory s;
                 rarityDistribution := rarityDistribution s |}
              (set_nearbyTreasures (without (id treasure) (nearbyTreasures st))
                 (set_foundTreasures (foundTreasures st ++ [treasure]) st))
        | _, _ => st
        end in
      set_currentTreasure None (set_activeHunt None st)
  | None => st
  end.

Definition completeTreasureHunt_rejected (message : option string)
  (st : TreasureState) : TreasureState :=
  set_error (Some (message_or message "Failed to complete treasure hunt"))
    (set_isLoading false st).

(** ** The slice as one reducer *)

(** The actions of the slice, each with its payload and with the time
    at which its reducer runs where the reducer reads the clock.
    [updateStats], which spreads a [Partial] of the statistics over
    them, is left out. *)
Inductive Action :=
| SetCurrentTreasure (payload : option Treasure)
| SetUserLocation (now : string) (payload : LocationFix)
| UpdateFilters (payload : FilterUpdate)
| SetSearchQuery (payload : string)
| MarkTreasureFound (now : string) (ident hunter : string)
| RevealClue (now : string) (ident clue : string)
| UpdateHuntProgress (now : string) (payload : HuntProgress)
| UseHint
| AbandonHunt
| AddTreasureToNearby (payload : Treasure)
| RemoveTreasureFromNearby (payload : string)
| ClearNearbyTreasures
| SetError (payload : option string)
| ClearError
| ResetTreasureState
| LoadNearbyTreasuresPending
| LoadNearbyTreasuresFulfilled (payload : list Treasure)
| LoadNearbyTreasuresRejected (message : option string)
| StartTreasureHuntPending
| StartTreasureHuntFulfilled (payload : TreasureHunt)
| StartTreasureHuntRejected (message : option string)
| CompleteTreasureHuntPending
| CompleteTreasureHuntFulfilled (payload : Completion)
| CompleteTreasureHuntRejected (message : option string).

Definition reducer (st : TreasureState) (a : Action) : TreasureState :=
  match a with
  | SetCurrentTreasure payload => setCurrentTreasure payload st
  | SetUserLocation now payload => setUserLocation now payload st
  | UpdateFilters payload => updateFilters payload st
  | SetSearchQuery payload => setSearchQuery payload st
  | MarkTreasureFound now ident hunter => markTreasureFound now ident hunter st
  | RevealClue now ident clue => revealClue now ident clue st
  | UpdateHuntProgress now payload => updateHuntProgress now payload st
  | UseHint => useHint st
  | AbandonHunt => abandonHunt st
  | AddTreasureToNearby payload => addTreasureToNearby payload st
  | RemoveTreasureFromNearby payload => removeTreasureFromNearby payload st
  | ClearNearbyTreasures => clearNearbyTreasures st
  | SetError payload => setError payload st
  | ClearError => clearError st
  | ResetTreasureState => resetTreasureState st
  | LoadNearbyTreasuresPending => loadNearbyTreasures_pending st
  | LoadNearbyTreasuresFulfilled payload => loadNearbyTreasures_fulfilled payload st
  | LoadNearbyTreasuresRejected message => loadNearbyTreasures_rejected message st
  | StartTreasureHuntPending => startTreasureHunt_pending st
  | StartTreasureHuntFulfilled payload => startTreasureHunt_fulfilled payload st
  | StartTreasureHuntRejected message => startTreasureHunt_rejected message st
  | CompleteTreasureHuntPending => completeTreasureHunt_pending st
  | CompleteTreasureHuntFulfilled payload => completeTreasureHunt_fulfilled payload st
  | CompleteTreasureHuntRejected message => completeTreasureHunt_rejected message st
  end.

(** Whether an action puts a treasure with the identifier on the nearby
    list: [addTreasureToNearby] of such a treasure, or the reducer of a
    finished [loadNearbyTreasures] whose list holds one. *)
Definition relists (ident : string) (a : Action) : bool :=
  match a with
  | AddTreasureToNearby payload => String.eqb (id payload) ident
  | LoadNearbyTreasuresFulfilled payload =>
      match find_treasure ident payload with
      | Some _ => true
      | None => false
      end
  | _ => false
  end.

(** How often an identifier occurs in a list of treasures. *)
Definition occurrences (ident : string) (l : list Treasure) : nat :=
  length (List.filter (fun t => String.eqb (id t) ident) l).

(** A treasure of the found list is flagged and dated. *)
Definition flagged (t : Treasure) : Prop :=
  isFound t = true /\ foundAt t <> None.

(** A hunt of the history is over. *)
Definition over (h : TreasureHunt) : Prop :=
  status h <> active.

End TreasureSlice.

(** * The NFC session ([services/NFCService.ts])

    The calls of [NfcManager] and of the progress callback are requests
    to an environment that may answer each of them with a value or with
    something thrown; [NfcManager] itself may be missing, in which case
    every call of it throws.  The static [isInitialized] of the class is
    passed along. *)

Module NFCSession.

(** What is thrown or rejected with: an [Error], or any other value. *)
Inductive Thrown :=
| thrown_error (e : JS.Exception)
| thrown_value (v : JS.Value).

(** [`${error}`] *)
Definition text_of_thrown (rt : JS.Runtime) (t : Thrown) : string :=
  match t with
  | thrown_error e => JS.text e
  | thrown_value v => JS.ToString rt v
  end.

(** [error instanceof Error ? error.message : 'Unknown NFC error'] *)
Definition message_of_thrown (t : Thrown) : string :=
  match t with
  | thrown_error e => JS.message e
  | thrown_value _ => "Unknown NFC error"
  end.

Inductive answer (X : Type) : Type :=
| resolved (x : X)
| rejected (t : Thrown).
Arguments resolved {X} x.
Arguments rejected {X} t.

Inductive Status :=
| initializing | requesting | scanning | processing | success | failure.

(** [interface NFCReadProgress]; [failure] is the status ['error']. *)
Record NFCReadProgress := {
  status : Status;
  message : string;
  progress : option float
}.

Inductive Op : Type -> Type :=
| isSupported : Op (answer bool)
| start : Op (answer unit)
| isEnabled : Op (answer bool)
| requestTechnology : Op (answer unit)
    (* [NfcManager.requestTechnology([NfcTech.Ndef])] *)
| getTag : Op (answer (option NFC.Tag))
| cancelTechnologyRequest : Op (answer unit)
| unregisterTagEvent : Op (answer unit)
| isSupported_is_function : Op bool
    (* [typeof NfcManager.isSupported === 'function'] *)
| onProgress (p : NFCReadProgress) : Op (answer unit)
| alert (title text : string) : Op (answer unit).
    (* [Alert.alert(title, text, [{ text: 'OK' }])] *)

Inductive Prog (A : Type) : Type :=
| Ret (a : A)
| Call (X : Type) (op : Op X) (k : X -> Prog A).
Arguments Ret {A} a.
Arguments Call {A X} op k.

Fixpoint pbind {A B} (p : Prog A) (f : A -> Prog B) : Prog B :=
  match p with
  | Ret a => f a
  | Call op k => Call op (fun x => pbind (k x) f)
  end.

(** A method of the class: it reads and writes [isInitialized] and
    resolves or rejects. *)
Definition M (A : Type) : Type := bool -> Prog (answer A * bool).

Definition ret {A} (a : A) : M A := fun i => Ret (resolved a, i).
Definition throw {A} (t : Thrown) : M A := fun i => Ret (rejected t, i).

Definition bind {A B} (c : M A) (f : A -> M B) : M B :=
  fun i => pbind (c i)
             (fun out => match fst out with
                         | resolved a => f a (snd out)
                         | rejected t => Ret (rejected t, snd out)
                         end).

Definition try_catch {A} (c : M A) (handler : Thrown -> M A) : M A :=
  fun i => pbind (c i)
             (fun out => match fst out with
                         | resolved a => Ret (resolved a, snd out)
                         | rejected t => handler t (snd out)
                         end).

(** [try { c } finally { f }]: what [f] throws replaces the outcome of
    [c]. *)
Definition finally {A} (c : M A) (f : M unit) : M A :=
  fun i => pbind (c i)
             (fun out => pbind (f (snd out))
                           (fun end_ => match fst end_ with
                                        | resolved _ => Ret (fst out, snd end_)
                                        | rejected t => Ret (rejected t, snd end_)
                                        end)).

Definition await {X} (op : Op (answer X)) : M X :=
  fun i => Call op (fun r => Ret (r, i)).

Definition ask {X} (op : Op X) : M X :=
  fun i => Call op (fun x => Ret (resolved x, i)).

Definition this_isInitialized : M bool := fun i => Ret (resolved i, i).
Definition set_isInitialized (b : bool) : M unit := fun _ => Ret (resolved tt, b).

Notation "'let!' x ':=' c 'in' k" := (bind c (fun x => k))
  (at level 10, x name, c at level 200, k at level 200).
Notation "'exec' c ';;' k" := (bind c (fun _ => k))
  (at level 10, c at level 99, k at level 200).

(** [new Error(message)] *)
Definition Error (message : string) : Thrown := thrown_error (JS.Error message).

(** What [checkNFCAvailability] returns. *)
Record Availability := {
  libraryLoaded : bool;
  deviceSupported : bool;
  nfcEnabled : bool;
  error : option string;
  details : string
}.

Section Service.
Variable pf : NFC.Platform.
(* [NfcManager !== null && typeof NfcManager === 'object'] *)
Variable isLibraryAvailable : bool.
(* [Platform.OS] *)
Variable OS : string.
(* [Date.now()] when the tag is processed *)
Variable now : float.

Local Notation rt := (NFC.runtime pf).

(** Check 3 of [checkNFCAvailability]: the answer of [isSupported], of
    its second call after [start] when the first one throws, or what the
    method returns when both throw. *)
Definition device_support : M (Availability + bool) :=
  try_catch
    (let! supported := await isSupported in ret (inr supported))
    (fun supportError =>
       try_catch
         (exec await start ;;
          let! supported := await isSupported in
          ret (inr supported))
         (fun startError =>
            let! is_function := ask isSupported_is_function in
            if is_function then
              ret (inl {| libraryLoaded := true; deviceSupported := false;
                          nfcEnabled := false;
                          error := Some "Library compatibility issue";
                          details := "NFC methods exist but fail: "
                                     ++ text_of_thrown rt supportError |})
            else
              ret (inl {| libraryLoaded := true; deviceSupported := false;
                          nfcEnabled := false;
                          error := Some "Incomplete library";
                          details := "NFC library missing required methods" |}))).

Definition checkNFCAvailability : M Availability :=
  if negb isLibraryAvailable then
    ret {| libraryLoaded := false; deviceSupported := false; nfcEnabled := false;
           error := Some "NFC library not loaded";
           details := "react-native-nfc-manager failed to import. Check installation." |}
  else if negb (String.eqb OS "android") && negb (String.eqb OS "ios") then
    ret {| libraryLoaded := true; deviceSupported := false; nfcEnabled := false;
           error := Some "Unsupported platform";
           details := "Platform " ++ OS ++ " is not supported for NFC" |}
  else
    try_catch
      (let! support := device_support in
       match support with
       | inl availability => ret availability
       | inr supported =>
           if negb supported then
             ret {| libraryLoaded := true; deviceSupported := false;
                    nfcEnabled := false;
                    error := Some "Hardware not supported";
                    details := "Device does not have NFC hardware" |}
           else
             try_catch
               (let! enabled := await isEnabled in
                ret {| libraryLoaded := true; deviceSupported := true;
                       nfcEnabled := enabled;
                       error := None;
                       details := if enabled then "NFC is ready"
                                  else "NFC is disabled in settings" |})
               (fun enabledError =>
                  ret {| libraryLoaded := true; deviceSupported := true;
                         nfcEnabled := false;
                         error := Some "Cannot check NFC status";
                         details := "Failed to determine if NFC is enabled: "
                                    ++ text_of_thrown rt enabledError |})
       end)
      (fun error_ =>
         ret {| libraryLoaded := true; deviceSupported := false;
                nfcEnabled := false;
                error := Some "Check failed";
                details := "NFC availability check failed: "
                           ++ text_of_thrown rt error_ |}).

Definition initialize : M bool :=
  let! initialized := this_isInitialized in
  if initialized then ret true
  else
    let! availability := checkNFCAvailability in
    if negb (libraryLoaded availability) then ret false
    else if negb (deviceSupported availability) then ret false
    else
      try_catch
        (exec await start ;;
         exec set_isInitialized true ;;
         ret true)
        (fun _ => ret false).

(** [onProgress?.(p)] *)
Definition report (callback : bool) (p : NFCReadProgress) : M unit :=
  if callback then await (onProgress p) else ret tt.

(** The steps that [readTreasureFromNFC] reports on its way. *)
Definition checking : NFCReadProgress :=
  {| status := initializing; message := "Checking NFC availability...";
     progress := Some 10%float |}.
Definition starting : NFCReadProgress :=
  {| status := initializing; message := "Initializing NFC...";
     progress := Some 20%float |}.
Definition asking : NFCReadProgress :=
  {| status := requesting; message := "Requesting NFC technology...";
     progress := Some 30%float |}.
Definition waiting : NFCReadProgress :=
  {| status := scanning; message := "Hold your phone near the NFC tag...";
     progress := Some 50%float |}.
Definition reading : NFCReadProgress :=
  {| status := processing; message := "Processing treasure data...";
     progress := Some 80%float |}.
Definition discovered : NFCReadProgress :=
  {| status := success; message := "Treasure discovered!";
     progress := Some 100%float |}.

(** The [try] block of [readTreasureFromNFC]. *)
Definition read_steps (callback : bool) : M JS.Value :=
  exec report callback checking ;;
  let! availability := checkNFCAvailability in
  if negb (libraryLoaded availability) then
    throw (Error "NFC library not loaded. Please reinstall react-native-nfc-manager")
  else if negb (deviceSupported availability) then
    throw (Error "This device does not support NFC")
  else if negb (nfcEnabled availability) then
    throw (Error "NFC is disabled. Please enable NFC in device settings")
  else
    exec report callback starting ;;
    let! initialized := this_isInitialized in
    exec (if negb initialized then
            let! initialized := initialize in
            if negb initialized then throw (Error "Failed to initialize NFC")
            else ret tt
          else ret tt) ;;
    exec report callback asking ;;
    exec await requestTechnology ;;
    exec report callback waiting ;;
    let! tag := await getTag in
    match tag with
    | None => throw (Error "No NFC tag detected")
    | Some tag =>
        exec report callback reading ;;
        match NFC.NFCService.processNFCTag pf now tag with
        | Err message => throw (Error message)
        | Ok treasureData =>
            exec report callback discovered ;;
            ret treasureData
        end
    end.

(** The progress reported by the [catch] block of [readTreasureFromNFC]. *)
Definition failed_with (t : Thrown) : NFCReadProgress :=
  {| status := failure; message := message_of_thrown t;
     progress := Some 0%float |}.

Definition readTreasureFromNFC (callback : bool) : M JS.Value :=
  finally
    (try_catch (read_steps callback)
       (fun error_ =>
          exec report callback (failed_with error_) ;;
          throw error_))
    (try_catch (await cancelTechnologyRequest) (fun cancelError => ret tt)).

Definition startNFCSessionWithProgress (callback : bool) : M JS.Value :=
  try_catch
    (let! nfcCheck := checkNFCAvailability in
     if negb (deviceSupported nfcCheck) then throw (Error (details nfcCheck))
     else if negb (nfcEnabled nfcCheck) then throw (Error (details nfcCheck))
     else readTreasureFromNFC callback)
    (fun error_ =>
       exec report callback
         {| status := failure; message := message_of_thrown error_;
            progress := None |} ;;
       throw error_).

(** [readNFCTag]: a treasure is not [null] or [undefined] when it is
    truthy, and reading a property of it does not throw. *)
Definition readNFCTag : M (option string) :=
  try_catch
    (let! treasureData := readTreasureFromNFC false in
     if JS.ToBoolean treasureData then
       ret (Some (JS.SerializeJSONObject rt
                    [("treasureId", NFC.property treasureData "treasureId");
                     ("coordinates", NFC.property treasureData "coordinates")]))
     else ret None)
    (fun _ => ret None).

Definition cleanup : M unit :=
  try_catch
    (let! initialized := this_isInitialized in
     if initialized then
       exec try_catch (await unregisterTagEvent) (fun _ => ret tt) ;;
       exec try_catch (await cancelTechnologyRequest) (fun _ => ret tt) ;;
       set_isInitialized false
     else ret tt)
    (fun _ => ret tt).

(** [attemptNFCRead] of [AlternativeNFCService], whose
    [checkNFCAvailability] and [initialize] are those of [NFCService]
    word for word. *)
Definition attemptNFCRead : M JS.Value :=
  let! availability := checkNFCAvailability in
  if negb (libraryLoaded availability) then
    throw (Error "NFC library not loaded. Please reinstall react-native-nfc-manager")
  else if negb (deviceSupported availability) then
    throw (Error "This device does not support NFC")
  else if negb (nfcEnabled availability) then
    throw (Error "NFC is disabled. Please enable NFC in device settings")
  else
    let! initialized := this_isInitialized in
    exec (if negb initialized then
            let! initialized := initialize in
            if negb initialized then throw (Error "Failed to initialize NFC")
            else ret tt
          else ret tt) ;;
    finally
      (try_catch
         (exec await requestTechnology ;;
          exec await (alert "NFC Ready" "Hold your phone near the NFC tag now") ;;
          let! tag := await getTag in
          match tag with
          | None => throw (Error "No NFC tag detected")
          | Some tag =>
              match NFC.AlternativeNFCService.processNFCTag pf now tag with
              | Err message => throw (Error message)
              | Ok treasureData => ret treasureData
              end
          end)
         (fun error_ => throw error_))
      (try_catch (await cancelTechnologyRequest) (fun cancelError => ret tt)).

End Service.

(** ** Runs *)

Inductive Event : Type :=
| event (X : Type) (op : Op X) (answer : X).
Arguments event {X} op answer.

Definition Env (S : Type) : Type := forall X : Type, Op X -> S -> X * S.

Fixpoint run {S A} (env : Env S) (p : Prog A) (s : S) : A * S * list Event :=
  match p with
  | Ret a => (a, s, [])
  | Call op k =>
      let xs := env _ op s in
      let out := run env (k (fst xs)) (snd xs) in
      (fst (fst out), snd (fst out), event op (fst xs) :: snd out)
  end.

(** What holds of the trace and the outcome of every run of a program,
    whatever the answers. *)
Fixpoint always {A : Type} (p : Prog A) (post : list Event -> A -> Prop) : Prop :=
  match p with
  | Ret a => post [] a
  | Call op k =>
      forall x, always (k x) (fun trace a => post (event op x :: trace) a)
  end.

(** A call of [cancelTechnologyRequest]. *)
Definition is_cancel (e : Event) : bool :=
  match e with
  | event op _ =>
      match op with
      | cancelTechnologyRequest => true
      | _ => false
      end
  end.

(** A call of [requestTechnology]. *)
Definition is_request (e : Event) : bool :=
  match e with
  | event op _ =>
      match op with
      | requestTechnology => true
      | _ => false
      end
  end.

(** A call of [NfcManager], as opposed to one of the callback. *)
Definition is_manager_call (e : Event) : bool :=
  match e with
  | event op _ =>
      match op with
      | onProgress _ => false
      | isSupported_is_function => false
      | _ => true
      end
  end.

(** The progress reported in a trace, in order. *)
Definition reported_of (e : Event) : list NFCReadProgress :=
  match e with
  | event op _ =>
      match op with
      | onProgress p => [p]
      | _ => []
      end
  end.

Definition reported (trace : list Event) : list NFCReadProgress :=
  flat_map reported_of trace.

(** No callback threw. *)
Definition callbacks_returned (trace : list Event) : bool :=
  forallb (fun e =>
             match e with
             | event op x =>
                 match op in Op X return X -> bool with
                 | onProgress _ => fun r => match r with
                                            | resolved _ => true
                                            | rejected _ => false
                                            end
                 | _ => fun _ => true
                 end x
             end) trace.

(** [isSupported] answered [true], [isEnabled] answered [true]. *)
Definition supported_answer (e : Event) : bool :=
  match e with
  | event op x =>
      match op in Op X return X -> bool with
      | isSupported => fun r => match r with
                                | resolved true => true
                                | _ => false
                                end
      | _ => fun _ => false
      end x
  end.

Definition enabled_answer (e : Event) : bool :=
  match e with
  | event op x =>
      match op in Op X return X -> bool with
      | isEnabled => fun r => match r with
                              | resolved true => true
                              | _ => false
                              end
      | _ => fun _ => false
      end x
  end.

(** [isEnabled] answered, with [true] or [false]. *)
Definition enabled_told (e : Event) : bool :=
  match e with
  | event op x =>
      match op in Op X return X -> bool with
      | isEnabled => fun r => match r with
                              | resolved _ => true
                              | rejected _ => false
                              end
      | _ => fun _ => false
      end x
  end.

(** The tags that [getTag] answered with. *)
Definition tags_of (e : Event) : list NFC.Tag :=
  match e with
  | event op x =>
      match op in Op X return X -> list NFC.Tag with
      | getTag => fun r => match r with
                           | resolved (Some tag) => [tag]
                           | _ => []
                           end
      | _ => fun _ => []
      end x
  end.

Definition tags (trace : list Event) : list NFC.Tag := flat_map tags_of trace.

(** The six steps of a read, in order. *)
Definition steps : list NFCReadProgress :=
  [checking; starting; asking; waiting; reading; discovered].

(** The requests of [checkNFCAvailability] and [initialize]. *)
Definition is_probe (e : Event) : bool :=
  match e with
  | event op _ =>
      match op with
      | isSupported | start | isEnabled | isSupported_is_function => true
      | _ => false
      end
  end.

(** Whether every [requestTechnology] of a trace is the only one and
    comes after an [isSupported] and an [isEnabled] that answered [true];
    [supported] and [enabled] tell what was answered before the trace. *)
Fixpoint ready_when_requested (supported enabled : bool) (trace : list Event)
  : bool :=
  match trace with
  | [] => true
  | e :: rest =>
      if is_request e then
        supported && enabled && negb (existsb is_request rest)
      else
        ready_when_requested (supported || supported_answer e)
          (enabled || enabled_answer e) rest
  end.

Section Outcomes.
Variable pf : NFC.Platform.
Variable isLibraryAvailable : bool.
Variable now : float.

(** What a read that resolves rests on. *)
Definition read_from_tag (callback : bool) (trace : list Event)
  (treasureData : JS.Value) (initialized : bool) : Prop :=
  exists tag,
    tags trace = [tag] /\
    NFC.NFCService.processNFCTag pf now tag = Ok treasureData /\
    initialized = true /\
    reported trace = (if callback then steps else []) /\
    isLibraryAvailable = true /\
    existsb is_request trace = true.

(** What the callback of a read that rejects has been told, when it is
    given and returns every time. *)
Definition told_of (callback : bool) (trace : list Event) (t : Thrown) : Prop :=
  callback = true -> callbacks_returned trace = true ->
  exists n, (1 <= n <= 5)%nat /\
            reported trace = (firstn n steps ++ [failed_with t])%list.

(** What the [try] and [catch] blocks of [readTreasureFromNFC] keep
    to. *)
Definition read_post (callback : bool) (trace : list Event)
  (out : answer JS.Value * bool) : Prop :=
  existsb is_cancel trace = false /\
  ready_when_requested false false trace = true /\
  match fst out with
  | resolved treasureData => read_from_tag callback trace treasureData (snd out)
  | rejected t => told_of callback trace t
  end.

(** The flags of an availability agree with each other and with the
    answers. *)
Definition consistent (trace : list Event) (a : Availability) : Prop :=
  libraryLoaded a = isLibraryAvailable /\
  (deviceSupported a = true ->
   libraryLoaded a = true /\ existsb supported_answer trace = true) /\
  (nfcEnabled a = true ->
   deviceSupported a = true /\ existsb enabled_answer trace = true /\
   details a = "NFC is ready") /\
  (error a = None <->
   deviceSupported a = true /\ existsb enabled_told trace = true).

End Outcomes.

(** What [checkNFCAvailability] keeps to: it resolves, leaves
    [isInitialized] as it is, and asks for nothing but the state of the
    device. *)
Definition check_post (isLibraryAvailable i : bool) (trace : list Event)
  (out : answer Availability * bool) : Prop :=
  exists a, out = (resolved a, i) /\
            forallb is_probe trace = true /\
            consistent isLibraryAvailable trace a.

(** What [initialize] keeps to. *)
Definition initialize_post (i : bool) (trace : list Event)
  (out : answer bool * bool) : Prop :=
  exists (b i' : bool),
    out = (resolved b, i') /\
    (b = true -> i' = true) /\ (b = false -> i' = i) /\
    forallb is_probe trace = true /\
    (i = true -> trace = [] /\ b = true).

(** A trace that holds neither a [requestTechnology] nor a
    [cancelTechnologyRequest]. *)
Definition idle (trace : list Event) : Prop :=
  existsb is_request trace = false /\ existsb is_cancel trace = false.

(** What follows a [requestTechnology] that is given back: calls that
    neither request nor cancel, and one [cancelTechnologyRequest] at the
    end. *)
Definition given_back (trace : list Event) : Prop :=
  exists between c,
    trace = (between ++ [event cancelTechnologyRequest c])%list /\
    idle between.

(** A trace in which the technology is given back exactly when it was
    requested: it holds neither call, or one [requestTechnology] and,
    at its end, one [cancelTechnologyRequest]. *)
Definition paired (trace : list Event) : Prop :=
  idle trace \/
  exists before x after,
    trace = (before ++ event requestTechnology x :: after)%list /\
    idle before /\ given_back after.

(** What [attemptNFCRead] keeps to, and what it rests on when it
    resolves. *)
Definition attempt_post (pf : NFC.Platform) (now : float) (trace : list Event)
  (out : answer JS.Value * bool) : Prop :=
  paired trace /\
  forall treasureData,
    fst out = resolved treasureData ->
    exists tag,
      tags trace = [tag] /\
      NFC.AlternativeNFCService.processNFCTag pf now tag = Ok treasureData /\
      snd out = true /\
      existsb is_request trace = true.

(** A trace that ends with the one [cancelTechnologyRequest] it holds. *)
Definition released (trace : list Event) : Prop :=
  exists before x,
    trace = (before ++ [event cancelTechnologyRequest x])%list /\
    existsb is_cancel before = false.

End NFCSession.
(** * The specification's progression rules, for comparison *)

Module Spec.

(** "rank is a pure monotonic function of totalTreasuresFound
    (thresholds: 5 -> Explorer, 20 -> Hunter, 50 -> Master)". *)
Definition rank_of_treasures (n : float) : string :=
  if (50 <=? n)%float then "Master"
  else if (20 <=? n)%float then "Hunter"
  else if (5 <=? n)%float then "Explorer"
  else "Beginner".

(** "Computes great-circle distance (haversine)", "using the standard
    mean Earth radius (6,371,000 m)": with the latitudes phi and the
    longitudes lambda in radians,
    a = sin^2(dphi/2) + cos phi1 * cos phi2 * sin^2(dlambda/2), the
    central angle is 2 * atan2(sqrt a, sqrt (1 - a)) and the distance is
    the radius times the central angle.  The products are taken from
    left to right. *)
Section GreatCircle.
Variables sin cos : float -> float.
Variable atan2 : float -> float -> float.

Definition radians (degrees : float) : float :=
  (degrees * Helpers.Math_PI / 180)%float.

Definition haversine_a (lat1 lng1 lat2 lng2 : float) : float :=
  let half_dphi := (radians (lat2 - lat1) / 2)%float in
  let half_dlambda := (radians (lng2 - lng1) / 2)%float in
  (sin half_dphi * sin half_dphi +
   cos (radians lat1) * cos (radians lat2) *
   sin half_dlambda * sin half_dlambda)%float.

Definition central_angle (lat1 lng1 lat2 lng2 : float) : float :=
  let a := haversine_a lat1 lng1 lat2 lng2 in
  (2 * atan2 (PrimFloat.sqrt a) (PrimFloat.sqrt (1 - a)))%float.

Definition mean_earth_radius : float := 6371000%float.

Definition great_circle_distance (lat1 lng1 lat2 lng2 : float) : float :=
  (mean_earth_radius * central_angle lat1 lng1 lat2 lng2)%float.
End GreatCircle.

Section Decoding.
Import JS NFC.
Variable pf : Platform.

(** "(a) standard text-record decoding honoring the embedded
    language-code length prefix, (b) raw UTF-8 decode skipping a fixed
    3-byte header, (c) raw UTF-8 decode with no skip", in that order. *)
Definition strategies (payload : list Z) : list (outcome string) :=
  [Ndef_text_decodePayload pf (Uint8Array payload);
   TextDecoder_decode pf (Uint8Array (drop 3 payload));
   TextDecoder_decode pf (Uint8Array payload)].

(** "The first strategy that yields a value parseable as JSON and
    containing the expected claim fields wins". *)
Definition wins (decoded : outcome string) : bool :=
  match decoded with
  | Return decoded =>
      match JSON_parse (runtime pf) decoded with
      | Return (Object members) =>
          match lookup_member "treasure_name" members,
                lookup_member "nfc_data" members with
          | Some _, Some _ => true
          | _, _ => false
          end
      | _ => false
      end
  | Throw _ => false
  end.

Definition winning_text (payload : list Z) : option string :=
  match List.find wins (strategies payload) with
  | Some (Return decoded) => Some decoded
  | _ => None
  end.

(** "unknown [type] or unsupported [version] is a [DecodeError]". *)
Definition qr_supported (parsed : Value) : bool :=
  match Get (runtime pf) parsed "type", Get (runtime pf) parsed "version" with
  | Return type, Return version =>
      is_string type "treasure_hunt_qr" && is_string version "1.0"
  | _, _ => false
  end.

End Decoding.

End Spec.

(** * Sample states *)

Module Samples.
Import HunterSlice.

(** A hunter who has settled four treasures since registration. *)
Definition four_found : HunterState :=
  settlements
    ["2024-05-01T08:00:00.000Z"; "2024-05-02T08:00:00.000Z";
     "2024-05-03T08:00:00.000Z"; "2024-05-04T08:00:00.000Z"]
    (setProfile initialState
       (newProfile "hunter_1714550000000" "TreasureHunter"
                   "2024-05-01T07:53:20.000Z")).

(** A hunter with nineteen treasures, a streak of seven and a last
    activity four years in the past. *)
Definition stale_explorer : HunterState :=
  setProfile initialState
    {| id := "hunter_1577836800000"; username := "TreasureHunter";
       rank := Explorer; level := 5%float; experience := 40%float;
       experienceToNext := 500%float; totalTreasuresFound := 19%float;
       currentStreak := 7%float; longestStreak := 9%float;
       joinedAt := "2020-01-01T00:00:00.000Z";
       lastActiveAt := "2020-01-02T00:00:00.000Z";
       stats := {| totalDistance := 12000%float;
                   treasuresFoundToday := 0%float;
                   treasuresFoundThisWeek := 0%float;
                   treasuresFoundThisMonth := 0%float;
                   favoriteHuntingTime := "afternoon";
                   mostFoundRarity := "common";
                   averageHuntTime := 20%float; successRate := 60%float |} |}.

(** Two hunters, and a later record of the first one. *)
Definition mai : HunterProfile :=
  newProfile "hunter_1714550000001" "Mai" "2024-05-01T07:53:20.001Z".

Definition linh : HunterProfile :=
  newProfile "hunter_1714550000002" "Linh" "2024-05-01T07:53:20.002Z".

Definition mai_renamed : HunterProfile :=
  newProfile "hunter_1714550000001" "Mai Anh" "2024-06-01T00:00:00.000Z".

(** A ledger with one registered treasure, two funded hunters with
    their profiles, and no settled discovery. *)
Definition open_chain : Ledger.Chain :=
  {| Ledger.coins := {[ "0xa11ce" := "1000000000"; "0xb0b" := "70000000" ]};
     Ledger.objects := {[ "0xregistry"; "0xprofile-a"; "0xprofile-b" ]};
     Ledger.profiles := {[ "0xa11ce" := "0xprofile-a"; "0xb0b" := "0xprofile-b" ]};
     Ledger.registered := {[ "treasure-7" ]};
     Ledger.settled := ∅ |}.

(** The same ledger once the treasure has a settled discovery. *)
Definition taken_chain : Ledger.Chain :=
  {| Ledger.coins := Ledger.coins open_chain;
     Ledger.objects := Ledger.objects open_chain;
     Ledger.profiles := Ledger.profiles open_chain;
     Ledger.registered := Ledger.registered open_chain;
     Ledger.settled := {[ "treasure-7" ]} |}.

Definition phone (owner : string) : Ledger.Device :=
  {| Ledger.address := owner; Ledger.storage := ∅;
     Ledger.found_treasures := []; Ledger.clock := "2024-05-05T08:00:00.000Z";
     Ledger.die := 2 |}.

Definition hunter (owner profile : string) : Ledger.Caller :=
  {| Ledger.caller_device := phone owner;
     Ledger.caller_service :=
       {| Sui.keypair := Some owner;
          Sui.treasureRegistryId := Some "0xregistry";
          Sui.hunterProfileId := Some profile;
          Sui.isInitialized := true |};
     Ledger.caller_proof := "21.028500,105.854200:1714896000000:5" |}.

Definition alice : Ledger.Caller := hunter "0xa11ce" "0xprofile-a".
Definition bob : Ledger.Caller := hunter "0xb0b" "0xprofile-b".

(** A verifier that accepts every proof and every rank. *)
Definition lenient : string -> string -> bool := fun _ _ => true.

(** A wallet that is loaded but knows no registry. *)
Definition unregistered : Sui.Service :=
  {| Sui.keypair := Some "0xa11ce"; Sui.treasureRegistryId := None;
     Sui.hunterProfileId := Some "0xprofile-a"; Sui.isInitialized := true |}.

(** A device that is cut off from the node: the key store and the local
    storage answer, every request to the node is rejected. *)
Definition offline : Sui.Env unit :=
  fun X op s =>
    (match op in Sui.Op X return X with
     | Sui.LoadOrCreateKeypair => Ok "0x51a7"
     | Sui.StorageGet _ => Ok None
     | Sui.StorageSet _ _ => Ok tt
     | Sui.GetBalance _ _ => Err "Network request failed"
     | Sui.GetObject _ => Err "Network request failed"
     | Sui.GetOwnedObjects _ _ => Err "Network request failed"
     | Sui.QueryEvents _ _ => Err "Network request failed"
     | Sui.SignAndExecute _ => Err "Network request failed"
     | Sui.RandomRarity => 1
     | Sui.Now => "2024-05-05T08:00:00.000Z"
     | Sui.AppendFoundTreasure _ => Ok tt
     end, s).

(** ** Payloads *)

(** The sample texts are written with single quotes where the payload
    has double quotes. *)
Fixpoint dq (s : string) : string :=
  match s with
  | EmptyString => EmptyString
  | String c r => String (if Ascii.eqb c "'" then JS.quote else c) (dq r)
  end.

Definition bytes_of_string (s : string) : list Z :=
  map (fun c => Z.of_N (N_of_ascii c)) (list_ascii_of_string s).

Definition string_of_bytes (bytes : list Z) : string :=
  string_of_list_ascii (map (fun b => ascii_of_N (Z.to_N b)) bytes).

(** The integer that a number is, when it is one of magnitude below
    2^53. *)
Definition integer_of (x : float) : option Z :=
  match Prim2SF x with
  | S754_zero _ => Some 0
  | S754_finite negative m e =>
      let sign := if negative then (-1) else 1 in
      if e =? 0 then Some (sign * Zpos m)
      else if (e <? 0) && (Zpos m mod 2 ^ (- e) =? 0)
           then Some (sign * (Zpos m / 2 ^ (- e)))
           else None
  | _ => None
  end.

(** A runtime for the samples.  It prints the integers of magnitude below
    2^53 and reads the numerals without sign, fraction and exponent,
    as the language does; no sample holds another number or numeral (for
    which it gives the empty text and NaN). *)
Definition sample_runtime : JS.Runtime :=
  {| JS.Number_toString := fun x =>
       if PrimFloat.is_nan x then "NaN"
       else match integer_of x with
            | Some z => NilZero.string_of_int (Z.to_int z)
            | None =>
                if PrimFloat.is_infinity x
                then (if PrimFloat.ltb x 0 then "-Infinity" else "Infinity")
                else ""
            end;
     JS.Number_of_string := Sui.Number_of_decimal;
     JS.syntax_error_message := fun _ => "JSON Parse error";
     JS.type_error_message := fun key =>
       "Cannot read property '" ++ key ++ "' of null" |}.

(** A platform for the samples: the text record is decoded as the debug
    screen does by hand ([languageLength = statusByte & 0x3F], the text
    starts at [1 + languageLength]), and bytes that are well-formed UTF-8
    are the string they encode. *)
Definition sample_platform : NFC.Platform :=
  {| NFC.runtime := sample_runtime;
     NFC.Ndef_text_decodePayload := fun bytes =>
       match bytes with
       | [] => JS.Return ""
       | statusByte :: _ =>
           JS.Return
             (string_of_bytes
                (drop (1 + Z.to_nat (Z.land statusByte 63)) bytes))
       end;
     NFC.TextDecoder_decode := fun bytes => JS.Return (string_of_bytes bytes) |}.

(** The same platform when the NFC library has failed to load:
    [Ndef] is [null] and [Ndef.text] throws. *)
Definition no_ndef_library : NFC.Platform :=
  {| NFC.runtime := sample_runtime;
     NFC.Ndef_text_decodePayload := fun _ =>
       JS.Throw (JS.TypeError "Cannot read property 'text' of null");
     NFC.TextDecoder_decode := NFC.TextDecoder_decode sample_platform |}.

(** The text written on a tag: the name of the treasure and, as a
    string, the JSON text of its data.  It also carries a rarity, a rank
    and a reward. *)
Definition tag_text : string :=
  dq ("{'treasure_name':'Old Quarter Cache','rarity':3,'requiredRank':4,"
      ++ "'rewardPoints':9000,"
      ++ "'nfc_data':'{\'id\':\'treasure-7\',\'lat\':\'21.0285\',"
      ++ "\'lng\':\'105.8542\',\'t\':1714896000,\'h\':\'9f2c\'}'}").

Definition tag_of (bytes : list Z) : NFC.Tag :=
  {| NFC.ndefMessage := Some [{| NFC.payload := Some bytes |}] |}.

(** A tag written with a three-byte header (status byte and language
    [en]), as a text record is. *)
Definition text_record_tag : NFC.Tag :=
  tag_of ([2; 101; 110] ++ bytes_of_string tag_text)%list.

(** A tag written with a three-byte header whose first byte announces
    a language code of five bytes. *)
Definition long_language_tag : NFC.Tag :=
  tag_of ([5; 101; 110] ++ bytes_of_string tag_text)%list.

(** What the decoders return for [tag_text]. *)
Definition tag_treasure : JS.Value :=
  JS.Object
    [("treasureId", JS.Str "treasure-7");
     ("name", JS.Str "Old Quarter Cache");
     ("description", JS.Str "Treasure discovered via NFC");
     ("rarity", JS.Number 2);
     ("coordinates", JS.Str "21.0285,105.8542");
     ("location", JS.Str "Old Quarter Cache");
     ("requiredRank", JS.Number 1);
     ("rewardPoints", JS.Number 250);
     ("createdAt", JS.Number 1714896000000);
     ("signature", JS.Str "9f2c")].

(** A treasure as the QR code of a treasure holds it. *)
Definition cache : NFC.TreasureNFCData :=
  {| NFC.treasureId := "treasure-7";
     NFC.name := "Old Quarter Cache";
     NFC.description := dq "A tin box, marked 'TH', under the bench";
     NFC.rarity := 3;
     NFC.coordinates := "21.0285,105.8542";
     NFC.location := "Hoan Kiem";
     NFC.imageUrl := None;
     NFC.requiredRank := 2;
     NFC.rewardPoints := 500;
     NFC.createdAt := 1714896000000;
     NFC.signature := Some "9f2c" |}.

(** The same treasure with a creation time that is not a number, as
    [nfcData.t * 1000] is for a [t] that is not a numeral. *)
Definition undated_cache : NFC.TreasureNFCData :=
  {| NFC.treasureId := NFC.treasureId cache;
     NFC.name := NFC.name cache;
     NFC.description := NFC.description cache;
     NFC.rarity := NFC.rarity cache;
     NFC.coordinates := NFC.coordinates cache;
     NFC.location := NFC.location cache;
     NFC.imageUrl := NFC.imageUrl cache;
     NFC.requiredRank := NFC.requiredRank cache;
     NFC.rewardPoints := NFC.rewardPoints cache;
     NFC.createdAt := PrimFloat.nan;
     NFC.signature := NFC.signature cache |}.

(** A treasure whose description quotes the keys of the tag format. *)
Definition labelled_cache : NFC.TreasureNFCData :=
  {| NFC.treasureId := NFC.treasureId cache;
     NFC.name := NFC.name cache;
     NFC.description := "Written as treasure_name and nfc_data on the tag";
     NFC.rarity := NFC.rarity cache;
     NFC.coordinates := NFC.coordinates cache;
     NFC.location := NFC.location cache;
     NFC.imageUrl := NFC.imageUrl cache;
     NFC.requiredRank := NFC.requiredRank cache;
     NFC.rewardPoints := NFC.rewardPoints cache;
     NFC.createdAt := NFC.createdAt cache;
     NFC.signature := NFC.signature cache |}.

(** The characters of a text that holds ASCII only. *)
Definition ascii_characters (s : string) : list string :=
  map (fun c => String c "") (list_ascii_of_string s).

(** The items of the local storage of a device of the ledger. *)
Definition device_items (w : Ledger.Chain * Ledger.Device) (key : string)
  : option string :=
  Ledger.storage (snd w) !! key.

(** A device whose list of found treasures was overwritten by an
    object. *)
Definition damaged_phone : Ledger.Device :=
  Ledger.with_storage (phone "0xa11ce") {[ "found_treasures" := "{}" ]}.

(** A QR document of a version that does not exist. *)
Definition future_qr_text : string :=
  dq "{'type':'treasure_hunt_qr','version':'9.9','data':{'treasureId':'treasure-7'}}".

End Samples.

(** * Sample treasures and hunts *)

Module TreasureSamples.
Import TreasureSlice.

(** The first treasure of the mock data of [loadNearbyTreasures], without
    its NFT metadata. *)
Definition temple : Treasure :=
  {| id := "treasure_1"; name := "Ancient Temple Secret";
     description := "A hidden treasure in the heart of the ancient temple";
     rarity := rare;
     coordinates := {| latitude := 21.0295; longitude := 105.8552 |};
     address := Some "Temple of Literature, Hanoi";
     imageUrl := None; isFound := false; foundAt := None; foundBy := None;
     createdAt := "2024-05-05T08:00:00.000Z"; expiresAt := None;
     difficulty := 3;
     reward := {| experience := 150; sui := 0.5; nftMetadata := None |};
     clues := [{| clue_id := "clue_1"; clue_type := text;
                  content := "Where scholars once walked and wisdom was sought...";
                  isRevealed := true; revealedAt := None; order := 1 |}];
     requirements := [{| requirement_type := level;
                         requirement_value := JS.Number 3;
                         requirement_description := "Minimum level 3 required";
                         isMet := true |}];
     tags := ["historical"; "temple"; "wisdom"];
     category := historical;
     distance := Some 850%float |}.

(** A hunt for it, as [startTreasureHunt] returns one. *)
Definition temple_hunt : TreasureHunt :=
  {| hunt_id := "hunt_1714896000000"; treasureId := "treasure_1";
     hunterId := "hunter_1714550000001";
     startedAt := "2024-05-05T08:00:00.000Z"; completedAt := None;
     status := active; timeSpent := 0; hintsUsed := 0; hunt_distance := 0;
     route := [{| route_latitude := 21.0285; route_longitude := 105.8542;
                  route_timestamp := "2024-05-05T08:00:00.000Z" |}] |}.

Definition temple_nearby : TreasureState :=
  loadNearbyTreasures_fulfilled [temple] initialState.

Definition arrival (found_it : bool) : Completion :=
  {| huntId := "hunt_1714896000000"; success := found_it;
     completion_completedAt := "2024-05-05T08:40:00.000Z";
     finalLocation := {| latitude := 21.0295; longitude := 105.8552 |} |}.

End TreasureSamples.

(** * Sample devices for the NFC session *)

Module SessionSamples.
Import NFCSession.

(** A phone with NFC switched on or off, held to the tag of the
    samples: every call is answered, and the callback returns. *)
Definition phone_with_nfc (switched_on : bool) : Env unit :=
  fun X op s =>
    (match op in Op X return X with
     | isSupported => resolved true
     | start => resolved tt
     | isEnabled => resolved switched_on
     | requestTechnology => resolved tt
     | getTag => resolved (Some Samples.text_record_tag)
     | cancelTechnologyRequest => resolved tt
     | unregisterTagEvent => resolved tt
     | isSupported_is_function => true
     | onProgress _ => resolved tt
     | alert _ _ => resolved tt
     end, s).

(** A read on an Android phone, with a callback, before the first
    [initialize]. *)
Definition first_read : Prog (answer JS.Value * bool) :=
  readTreasureFromNFC Samples.sample_platform true "android" 0 true false.

End SessionSamples.
(** * Whole numbers as doubles

    Sums, differences and products of whole numbers from 0 to 2^53 - 1
    are computed exactly by the operations on doubles, and such numbers
    compare as doubles the way they compare as integers. *)

Section WholeFacts.

Lemma digits_bounds (p : positive) :
  2 ^ (Zpos (digits2_pos p) - 1) <= Zpos p < 2 ^ Zpos (digits2_pos p).
Proof.
  induction p as [p IH | p IH |]; cbn [digits2_pos].
  - rewrite Pos2Z.inj_succ. replace (Z.succ (Zpos (digits2_pos p)) - 1)
      with (Zpos (digits2_pos p)) by lia.
    rewrite Z.pow_succ_r by lia.
    assert (2 ^ Zpos (digits2_pos p) = 2 * 2 ^ (Zpos (digits2_pos p) - 1)) as E.
    { rewrite <- Z.pow_succ_r by lia. f_equal. lia. }
    lia.
  - rewrite Pos2Z.inj_succ. replace (Z.succ (Zpos (digits2_pos p)) - 1)
      with (Zpos (digits2_pos p)) by lia.
    rewrite Z.pow_succ_r by lia.
    assert (2 ^ Zpos (digits2_pos p) = 2 * 2 ^ (Zpos (digits2_pos p) - 1)) as E.
    { rewrite <- Z.pow_succ_r by lia. f_equal. lia. }
    lia.
  - cbn. lia.
Qed.

Lemma digits_unique (p : positive) (d : Z) :
  2 ^ (d - 1) <= Zpos p < 2 ^ d -> Zpos (digits2_pos p) = d.
Proof.
  intros [Hlow Hhigh]. pose proof (digits_bounds p) as [Hl Hh].
  assert (0 < d) as Hd.
  { destruct (Z.ltb_spec 0 d); [assumption |].
    assert (2 ^ d <= 2 ^ 0) by (apply Z.pow_le_mono_r; lia). cbn in *. lia. }
  destruct (Z.lt_trichotomy (Zpos (digits2_pos p)) d) as [H | [H | H]];
    [| exact H |].
  - assert (2 ^ Zpos (digits2_pos p) <= 2 ^ (d - 1))
      by (apply Z.pow_le_mono_r; lia). lia.
  - assert (2 ^ d <= 2 ^ (Zpos (digits2_pos p) - 1))
      by (apply Z.pow_le_mono_r; lia). lia.
Qed.

(** The digits of [z * 2 ^ k]. *)
Lemma digits_scaled (m p : positive) (k : Z) :
  0 <= k -> Zpos m = Zpos p * 2 ^ k ->
  Zpos (digits2_pos m) = Zpos (digits2_pos p) + k.
Proof.
  intros Hk Hm. apply digits_unique. rewrite Hm.
  pose proof (digits_bounds p) as [Hl Hh].
  replace (Zpos (digits2_pos p) + k - 1) with (Zpos (digits2_pos p) - 1 + k) by lia.
  rewrite !Z.pow_add_r by lia.
  assert (0 < 2 ^ k) by (apply Z.pow_pos_nonneg; lia).
  split; nia.
Qed.

(** Shifting an exact multiple of a power of two to the right loses
    nothing. *)
Lemma shr_exact (p : positive) :
  forall m q : positive,
    Zpos m = Zpos q * 2 ^ Zpos p ->
    SpecFloat.iter_pos shr_1 p {| shr_m := Zpos m; shr_r := false; shr_s := false |}
    = {| shr_m := Zpos q; shr_r := false; shr_s := false |}.
Proof.
  induction p as [p IH | p IH |]; intros m q Hm; cbn [SpecFloat.iter_pos].
  - replace (Zpos p~1) with (Zpos p + Zpos p + 1) in Hm by lia.
    rewrite !Z.pow_add_r, Z.pow_1_r in Hm by lia.
    destruct m as [m | m |]; try lia. cbn [shr_1 orb].
    rewrite (IH m (q * 2 ^ p)%positive), (IH (q * 2 ^ p)%positive q).
    + reflexivity.
    + rewrite Pos2Z.inj_mul, Pos2Z.inj_pow. reflexivity.
    + rewrite Pos2Z.inj_mul, Pos2Z.inj_pow. lia.
  - replace (Zpos p~0) with (Zpos p + Zpos p) in Hm by lia.
    rewrite !Z.pow_add_r in Hm by lia.
    rewrite (IH m (q * 2 ^ p)%positive), (IH (q * 2 ^ p)%positive q).
    + reflexivity.
    + rewrite Pos2Z.inj_mul, Pos2Z.inj_pow. reflexivity.
    + rewrite Pos2Z.inj_mul, Pos2Z.inj_pow. lia.
  - destruct m as [m | m |]; try lia. cbn [shr_1 orb]. f_equal. lia.
Qed.

Lemma shl_align_spec (m : positive) (e e' : Z) :
  snd (shl_align m e e') = Z.min e e' /\
  Zpos (fst (shl_align m e e')) = Zpos m * 2 ^ (e - Z.min e e').
Proof.
  unfold shl_align. destruct (e' - e) as [| d | d] eqn:E; cbn [fst snd].
  - replace (Z.min e e') with e by lia. rewrite Z.sub_diag. cbn. lia.
  - replace (Z.min e e') with e by lia. rewrite Z.sub_diag. cbn. lia.
  - replace (Z.min e e') with e' by lia. split; [reflexivity |].
    replace (e - e') with (Zpos d) by lia.
    clear E. induction d as [| d IH] using Pos.peano_ind.
    + cbn. lia.
    + rewrite Pos.iter_succ, Pos2Z.inj_succ, Z.pow_succ_r by lia.
      rewrite Pos2Z.inj_xO, IH. lia.
Qed.


Lemma shr_whole (m q : positive) (e n : Z) :
  0 <= n -> Zpos m = Zpos q * 2 ^ n ->
  shr {| shr_m := Zpos m; shr_r := false; shr_s := false |} e n
  = ({| shr_m := Zpos q; shr_r := false; shr_s := false |}, e + n).
Proof.
  intros Hn Hm. unfold shr. destruct n as [| n | n]; try lia.
  - rewrite Z.pow_0_r, Z.mul_1_r in Hm. injection Hm as ->.
    rewrite Z.add_0_r. reflexivity.
  - rewrite (shr_exact n m q Hm). reflexivity.
Qed.

Lemma digits_le_prec (p : positive) :
  Zpos p < 2 ^ 53 -> 1 <= Zpos (digits2_pos p) <= 53.
Proof.
  intros Hp. pose proof (digits_bounds p) as [Hl _]. split; [lia |].
  destruct (Z_le_gt_dec (Zpos (digits2_pos p)) 53) as [H | H]; [exact H |].
  exfalso. assert (2 ^ 53 <= 2 ^ (Zpos (digits2_pos p) - 1)).
  { apply Z.pow_le_mono_r; lia. }
  lia.
Qed.

Lemma scaled_pos (p : positive) (k : Z) :
  0 <= k -> Zpos (Z.to_pos (Zpos p * 2 ^ k)) = Zpos p * 2 ^ k.
Proof.
  intros Hk. apply Z2Pos.id.
  assert (0 < 2 ^ k) by (apply Z.pow_pos_nonneg; lia). nia.
Qed.

Lemma round_aux_canon (p M : positive) (e : Z) :
  Zpos p < 2 ^ 53 ->
  e <= Zpos (digits2_pos p) - 53 ->
  Zpos M = Zpos p * 2 ^ (- e) ->
  binary_round_aux prec emax false (Zpos M) e loc_Exact = canon (Zpos p).
Proof.
  intros Hp He HM.
  pose proof (digits_le_prec p Hp) as Hd.
  set (d := Zpos (digits2_pos p)) in *.
  set (q := Z.to_pos (Zpos p * 2 ^ (53 - d))).
  assert (Hq : Zpos q = Zpos p * 2 ^ (53 - d)) by (apply scaled_pos; lia).
  assert (HdM : Zpos (digits2_pos M) = d + - e).
  { apply digits_scaled; [lia | exact HM]. }
  assert (Hdq : Zpos (digits2_pos q) = 53).
  { rewrite (digits_scaled q p (53 - d)); [fold d; lia | lia | exact Hq]. }
  unfold binary_round_aux, shr_fexp.
  cbn [shr_record_of_loc Zdigits2]. rewrite HdM.
  replace (fexp prec emax (d + - e + e) - e) with (d - 53 - e)
    by (unfold fexp, emin, prec, emax; lia).
  rewrite (shr_whole M q e (d - 53 - e)).
  - cbn [shr_m loc_of_shr_record round_nearest_even shr_record_of_loc Zdigits2].
    rewrite Hdq.
    replace (fexp prec emax (53 + (e + (d - 53 - e))) - (e + (d - 53 - e))) with 0
      by (unfold fexp, emin, prec, emax; lia).
    cbn [shr shr_m].
    replace (e + (d - 53 - e)) with (d - 53) by lia.
    replace (d - 53 <=? emax - prec) with true
      by (symmetry; apply Z.leb_le; unfold emax, prec; lia).
    reflexivity.
  - lia.
  - rewrite HM, Hq, <- Z.mul_assoc, <- Z.pow_add_r by lia.
    f_equal. f_equal. lia.
Qed.

Lemma normalize_canon (m z e : Z) :
  0 <= z < 2 ^ 53 -> e <= 0 -> m = z * 2 ^ (- e) ->
  binary_normalize prec emax m e false = canon z.
Proof.
  intros Hz He Hm.
  assert (0 < 2 ^ (- e)) by (apply Z.pow_pos_nonneg; lia).
  destruct z as [| p | p]; try lia.
  - subst m. reflexivity.
  - destruct m as [| M | M]; try nia.
    cbn [binary_normalize]. unfold binary_round.
    pose proof (digits_le_prec p ltac:(lia)) as Hd.
    assert (HdM : Zpos (digits2_pos M) = Zpos (digits2_pos p) + - e).
    { apply digits_scaled; [lia | exact Hm]. }
    rewrite HdM.
    replace (fexp prec emax (Zpos (digits2_pos p) + - e + e))
      with (Zpos (digits2_pos p) - 53)
      by (unfold fexp, emin, prec, emax; lia).
    pose proof (shl_align_spec M e (Zpos (digits2_pos p) - 53)) as [He' HM'].
    destruct (shl_align M e (Zpos (digits2_pos p) - 53)) as [mz ez].
    cbn [fst snd] in *.
    apply round_aux_canon; [lia | lia |].
    rewrite HM', Hm, <- Z.mul_assoc, <- Z.pow_add_r by lia.
    f_equal. f_equal. lia.
Qed.


Lemma canon_whole (z : Z) :
  0 <= z < 2 ^ 53 -> Prim2SF (whole z) = canon z.
Proof.
  intros Hz. unfold whole. rewrite FloatAxioms.of_uint63_spec.
  rewrite Uint63.of_Z_spec, Z.mod_small.
  - apply normalize_canon; [exact Hz | lia |]. cbn. lia.
  - split; [lia |]. apply Z.lt_trans with (2 ^ 53); [lia | reflexivity].
Qed.

(** The mantissa and the exponent of a positive whole number. *)
Lemma canon_pos (p : positive) :
  Zpos p < 2 ^ 53 ->
  exists m e,
    canon (Zpos p) = S754_finite false m e /\
    e = Zpos (digits2_pos p) - 53 /\ e <= 0 /\
    Zpos m = Zpos p * 2 ^ (- e).
Proof.
  intros Hp. pose proof (digits_le_prec p Hp) as Hd.
  eexists _, _. split; [reflexivity |]. split; [reflexivity |].
  split; [lia |]. rewrite scaled_pos by lia. f_equal. f_equal. lia.
Qed.

Lemma aligned (m : positive) (z e ez : Z) :
  ez <= e -> e <= 0 -> Zpos m = z * 2 ^ (- e) ->
  Zpos (fst (shl_align m e ez)) = z * 2 ^ (- ez).
Proof.
  intros Hez He Hm.
  pose proof (shl_align_spec m e ez) as [_ H]. rewrite H, Hm.
  rewrite <- Z.mul_assoc, <- Z.pow_add_r by lia. f_equal. f_equal. lia.
Qed.

Lemma canon_add (a b : Z) :
  0 <= a -> 0 <= b -> a + b < 2 ^ 53 ->
  SF64add (canon a) (canon b) = canon (a + b).
Proof.
  intros Ha Hb Hab.
  destruct a as [| p | p]; try lia; [destruct b; try lia; reflexivity |].
  destruct b as [| q | q]; try lia; [rewrite Z.add_0_r; reflexivity |].
  destruct (canon_pos p ltac:(lia)) as (mp & ep & -> & _ & Hep & Hmp).
  destruct (canon_pos q ltac:(lia)) as (mq & eq & -> & _ & Heq & Hmq).
  unfold SF64add, SFadd. cbn [cond_Zopp].
  apply normalize_canon; [lia | lia |].
  rewrite (aligned mp (Zpos p) ep), (aligned mq (Zpos q) eq) by (try assumption; lia).
  lia.
Qed.

Lemma canon_sub (a b : Z) :
  0 <= b <= a -> a < 2 ^ 53 ->
  SF64sub (canon a) (canon b) = canon (a - b).
Proof.
  intros Hb Ha.
  destruct b as [| q | q]; try lia.
  { rewrite Z.sub_0_r. destruct a as [| p | p]; try lia; reflexivity. }
  destruct a as [| p | p]; try lia.
  destruct (canon_pos p ltac:(lia)) as (mp & ep & -> & _ & Hep & Hmp).
  destruct (canon_pos q ltac:(lia)) as (mq & eq & -> & _ & Heq & Hmq).
  unfold SF64sub, SFsub. cbn [cond_Zopp].
  apply normalize_canon; [lia | lia |].
  rewrite (aligned mp (Zpos p) ep), (aligned mq (Zpos q) eq) by (try assumption; lia).
  lia.
Qed.

Lemma digits_mul (p q : positive) :
  Zpos (digits2_pos p) + Zpos (digits2_pos q) - 1 <= Zpos (digits2_pos (p * q)).
Proof.
  pose proof (digits_bounds p) as [Hp _]. pose proof (digits_bounds q) as [Hq _].
  pose proof (digits_bounds (p * q)) as [_ Hpq].
  set (dp := Zpos (digits2_pos p)) in *. set (dq := Zpos (digits2_pos q)) in *.
  set (d := Zpos (digits2_pos (p * q))) in *.
  destruct (Z_le_gt_dec (dp + dq - 1) d) as [H | H]; [exact H | exfalso].
  assert (1 <= dp) by (subst dp; lia). assert (1 <= dq) by (subst dq; lia).
  assert (1 <= d) by (subst d; lia).
  assert (2 ^ d <= 2 ^ (dp - 1 + (dq - 1))) by (apply Z.pow_le_mono_r; lia).
  rewrite Z.pow_add_r in * by lia. rewrite Pos2Z.inj_mul in Hpq.
  assert (0 < 2 ^ (dp - 1)) by (apply Z.pow_pos_nonneg; lia).
  assert (0 < 2 ^ (dq - 1)) by (apply Z.pow_pos_nonneg; lia).
  nia.
Qed.

Lemma canon_mul (a b : Z) :
  0 <= a -> 0 <= b -> a * b < 2 ^ 53 ->
  SF64mul (canon a) (canon b) = canon (a * b).
Proof.
  intros Ha Hb Hab.
  destruct a as [| p | p]; try lia.
  { destruct b as [| q | q]; try lia; reflexivity. }
  destruct b as [| q | q]; try lia.
  { rewrite Z.mul_0_r. reflexivity. }
  assert (Zpos p < 2 ^ 53) by nia. assert (Zpos q < 2 ^ 53) by nia.
  destruct (canon_pos p ltac:(lia)) as (mp & ep & -> & Edp & Hep & Hmp).
  destruct (canon_pos q ltac:(lia)) as (mq & eq & -> & Edq & Heq & Hmq).
  unfold SF64mul, SFmul. cbn [xorb].
  change (Zpos p * Zpos q) with (Zpos (p * q)) in *.
  pose proof (digits_mul p q).
  apply round_aux_canon; [exact Hab | lia |].
  rewrite !Pos2Z.inj_mul, Hmp, Hmq.
  replace (- (ep + eq)) with (- ep + - eq) by lia.
  rewrite Z.pow_add_r by lia. ring.
Qed.

Lemma canon_compare (a b : Z) :
  0 <= a < 2 ^ 53 -> 0 <= b < 2 ^ 53 ->
  SFcompare (canon a) (canon b) = Some (a ?= b).
Proof.
  intros Ha Hb.
  destruct a as [| p | p]; try lia; destruct b as [| q | q]; try lia;
    try reflexivity.
  destruct (canon_pos p ltac:(lia)) as (mp & ep & -> & Edp & Hep & Hmp).
  destruct (canon_pos q ltac:(lia)) as (mq & eq & -> & Edq & Heq & Hmq).
  cbn [SFcompare]. f_equal.
  pose proof (digits_bounds p) as [Hpl Hph].
  pose proof (digits_bounds q) as [Hql Hqh].
  destruct (Z.compare_spec ep eq) as [E | E | E].
  - change (Pos.compare_cont Eq mp mq) with (Zpos mp ?= Zpos mq).
    rewrite Hmp, Hmq, E.
    assert (0 < 2 ^ (- eq)) by (apply Z.pow_pos_nonneg; lia).
    destruct (Z.compare_spec (Zpos p) (Zpos q)) as [C | C | C];
      [rewrite C; apply Z.compare_refl | apply Z.compare_lt_iff; nia
      | apply Z.compare_gt_iff; nia].
  - symmetry. apply Z.compare_lt_iff.
    assert (2 ^ Zpos (digits2_pos p) <= 2 ^ (Zpos (digits2_pos q) - 1))
      by (apply Z.pow_le_mono_r; lia).
    lia.
  - symmetry. apply Z.compare_gt_iff.
    assert (2 ^ Zpos (digits2_pos q) <= 2 ^ (Zpos (digits2_pos p) - 1))
      by (apply Z.pow_le_mono_r; lia).
    lia.
Qed.

(** ** Whole numbers as doubles *)

Lemma whole_add (a b : Z) :
  0 <= a -> 0 <= b -> a + b < 2 ^ 53 ->
  (whole a + whole b)%float = whole (a + b).
Proof.
  intros Ha Hb Hab. apply FloatAxioms.Prim2SF_inj.
  rewrite FloatAxioms.add_spec, !canon_whole by lia. now apply canon_add.
Qed.

Lemma whole_sub (a b : Z) :
  0 <= b <= a -> a < 2 ^ 53 ->
  (whole a - whole b)%float = whole (a - b).
Proof.
  intros Hb Ha. apply FloatAxioms.Prim2SF_inj.
  rewrite FloatAxioms.sub_spec, !canon_whole by lia. now apply canon_sub.
Qed.

Lemma whole_mul (a b : Z) :
  0 <= a < 2 ^ 53 -> 0 <= b < 2 ^ 53 -> a * b < 2 ^ 53 ->
  (whole a * whole b)%float = whole (a * b).
Proof.
  intros Ha Hb Hab. apply FloatAxioms.Prim2SF_inj.
  rewrite FloatAxioms.mul_spec, !canon_whole by nia.
  apply canon_mul; lia.
Qed.

Lemma whole_leb (a b : Z) :
  0 <= a < 2 ^ 53 -> 0 <= b < 2 ^ 53 ->
  (whole a <=? whole b)%float = (a <=? b).
Proof.
  intros Ha Hb.
  rewrite FloatAxioms.leb_spec, !canon_whole by lia.
  unfold SFleb. rewrite canon_compare by lia.
  unfold Z.leb. destruct (a ?= b); reflexivity.
Qed.

Lemma whole_ltb (a b : Z) :
  0 <= a < 2 ^ 53 -> 0 <= b < 2 ^ 53 ->
  (whole a <? whole b)%float = (a <? b).
Proof.
  intros Ha Hb.
  rewrite FloatAxioms.ltb_spec, !canon_whole by lia.
  unfold SFltb. rewrite canon_compare by lia.
  unfold Z.ltb. destruct (a ?= b); reflexivity.
Qed.

Lemma whole_inj (a b : Z) :
  0 <= a < 2 ^ 53 -> 0 <= b < 2 ^ 53 -> whole a = whole b -> a = b.
Proof.
  intros Ha Hb E. apply Z.compare_eq.
  assert (SFcompare (Prim2SF (whole a)) (Prim2SF (whole a)) = Some (a ?= b)) as H.
  { rewrite E at 2. rewrite !canon_whole by lia. now apply canon_compare. }
  rewrite canon_whole, canon_compare, Z.compare_refl in H by lia. congruence.
Qed.

End WholeFacts.
(** * Properties of the hunter profile slice *)

Section HunterSliceFacts.
Import HunterSlice.

Lemma SFleb_trans (x y z : spec_float) :
  SFleb x y = true -> SFleb y z = true -> SFleb x z = true.
Proof.
  unfold SFleb.
  destruct x as [sx | sx | | sx mx ex], y as [sy | sy | | sy my ey],
           z as [sz | sz | | sz mz ez]; cbn [SFcompare];
    repeat match goal with s : bool |- _ => destruct s end;
    try discriminate; try reflexivity;
    change (Pos.compare_cont Eq) with Pos.compare;
    destruct (Z.compare_spec ex ey), (Z.compare_spec ey ez),
             (Z.compare_spec ex ez);
    try discriminate; try reflexivity; try lia;
    destruct (Pos.compare_spec mx my), (Pos.compare_spec my mz),
             (Pos.compare_spec mx mz);
    cbn; try discriminate; try reflexivity; lia.
Qed.

Lemma leb_trans (a b c : float) :
  (a <=? b)%float = true -> (b <=? c)%float = true -> (a <=? c)%float = true.
Proof. rewrite !FloatAxioms.leb_spec. apply SFleb_trans. Qed.

Lemma rankForLevel_mono (a b : float) :
  (a <=? b)%float = true ->
  rank_index (rankForLevel a) <= rank_index (rankForLevel b).
Proof.
  intros Hab. unfold rankForLevel.
  destruct (20 <=? a)%float eqn:E20;
    [rewrite (leb_trans _ _ _ E20 Hab); cbn; lia |].
  destruct (15 <=? a)%float eqn:E15;
    [rewrite (leb_trans _ _ _ E15 Hab); destruct (20 <=? b)%float; cbn; lia |].
  destruct (10 <=? a)%float eqn:E10;
    [rewrite (leb_trans _ _ _ E10 Hab);
     destruct (20 <=? b)%float, (15 <=? b)%float; cbn; lia |].
  destruct (5 <=? a)%float eqn:E5;
    [rewrite (leb_trans _ _ _ E5 Hab);
     destruct (20 <=? b)%float, (15 <=? b)%float, (10 <=? b)%float; cbn; lia |].
  destruct (20 <=? b)%float, (15 <=? b)%float, (10 <=? b)%float,
           (5 <=? b)%float; cbn; lia.
Qed.

(** The rank of a whole level. *)
Lemma rankForLevel_whole (l : Z) :
  0 <= l < 2 ^ 53 ->
  rankForLevel (whole l) =
    if 20 <=? l then MasterHunter
    else if 15 <=? l then Expert
    else if 10 <=? l then Adventurer
    else if 5 <=? l then Explorer
    else Beginner.
Proof.
  intros Hl. unfold rankForLevel.
  change 20%float with (whole 20). change 15%float with (whole 15).
  change 10%float with (whole 10). change 5%float with (whole 5).
  rewrite !whole_leb by first [exact Hl | split; [lia | reflexivity]].
  reflexivity.
Qed.

(** More rounds than needed change nothing. *)
Lemma level_up_more (fuel : nat) :
  forall (g g' : Progress) (fuel' : nat),
    level_up fuel g = Some g' -> (fuel <= fuel')%nat ->
    level_up fuel' g = Some g'.
Proof.
  induction fuel as [| fuel IH]; intros g g' fuel' Hg Hle.
  - destruct fuel'; cbn in *;
      destruct (p_experienceToNext g <=? p_experience g)%float;
      congruence.
  - destruct fuel' as [| fuel']; [lia |]. cbn in *.
    destruct (p_experienceToNext g <=? p_experience g)%float; [| exact Hg].
    apply IH; [exact Hg | lia].
Qed.

(** When the loop ends, its condition is false, and either no round was
    made or the rank and the threshold are those of the level. *)
Lemma level_up_exit (fuel : nat) :
  forall g g' : Progress,
    level_up fuel g = Some g' ->
    (p_experienceToNext g' <=? p_experience g')%float = false /\
    (g' = g \/
     (p_rank g' = rankForLevel (p_level g') /\
      p_experienceToNext g' = (p_level g' * 100)%float)).
Proof.
  induction fuel as [| fuel IH]; intros g g' Hg; cbn in Hg;
    destruct (p_experienceToNext g <=? p_experience g)%float eqn:E;
    try discriminate.
  - injection Hg as <-. auto.
  - destruct (IH _ _ Hg) as [Hexit [-> | Hround]]; split; auto.
  - injection Hg as <-. auto.
Qed.

(** On whole numbers the loop ends, within as many rounds as there are
    points of experience, and it neither makes nor loses experience:
    what is taken away is the threshold of the first level and 100 times
    every level passed after it. *)
Lemma level_up_whole (k : nat) :
  forall (l n e : Z) (r : Rank),
    0 <= l -> 1 <= n < 2 ^ 53 -> 0 <= e <= Z.of_nat k ->
    100 * (l + e) < 2 ^ 53 ->
    exists (l' n' e' : Z) (r' : Rank),
      level_up k {| p_experience := whole e; p_experienceToNext := whole n;
                    p_level := whole l; p_rank := r |}
      = Some {| p_experience := whole e'; p_experienceToNext := whole n';
                p_level := whole l'; p_rank := r' |} /\
      0 <= e' < n' /\ n' < 2 ^ 53 /\ 100 * l' < 2 ^ 53 /\
      ((l' = l /\ n' = n /\ e' = e /\ r' = r) \/
       (l < l' /\ n' = 100 * l' /\ r' = rankForLevel (whole l') /\
        e' + n + 50 * (l' - l - 1) * (l' + l) = e)).
Proof.
  induction k as [| k IH]; intros l n e r Hl Hn He Hbound;
    cbn [level_up p_experience p_experienceToNext];
    rewrite whole_leb by lia; destruct (Z.leb_spec n e) as [Hge | Hlt];
    try lia.
  - exists l, n, e, r. split; [reflexivity |]. repeat split; try lia. left. auto.
  - unfold level_up_once. cbn [p_experience p_experienceToNext p_level].
    change 1%float with (whole 1). change 100%float with (whole 100).
    rewrite whole_sub, whole_add by lia.
    rewrite whole_mul by first [split; [lia | reflexivity] | lia].
    destruct (IH (l + 1) ((l + 1) * 100) (e - n) (rankForLevel (whole (l + 1))))
      as (l' & n' & e' & r' & Hrun & He' & Hn' & Hl' & Hcases); try lia.
    exists l', n', e', r'. split; [exact Hrun |].
    repeat split; try lia. right.
    destruct Hcases as [(-> & -> & -> & ->) | (Hlt & -> & -> & Hsum)].
    + repeat split; lia.
    + repeat split; lia.
  - exists l, n, e, r. split; [reflexivity |]. repeat split; try lia. left. auto.
Qed.

(** [addExperience] on a profile of whole numbers. *)
Lemma addExperience_whole (st : HunterState) (p : HunterProfile)
  (l n e amount : Z) :
  profile st = Some p ->
  0 <= l -> 1 <= n < 2 ^ 53 -> 0 <= e -> 0 <= amount ->
  100 * (l + e + amount) < 2 ^ 53 ->
  level p = whole l -> experienceToNext p = whole n -> experience p = whole e ->
  exists (fuel : nat) (l' n' e' : Z) (r' : Rank),
    (forall fuel' : nat,
        (fuel <= fuel')%nat ->
        addExperience fuel' st (whole amount)
        = Some (with_profile st
                  {| id := id p; username := username p; rank := r';
                     level := whole l'; experience := whole e';
                     experienceToNext := whole n';
                     totalTreasuresFound := totalTreasuresFound p;
                     currentStreak := currentStreak p;
                     longestStreak := longestStreak p;
                     joinedAt := joinedAt p; lastActiveAt := lastActiveAt p;
                     stats := stats p |})) /\
    0 <= e' < n' /\ n' < 2 ^ 53 /\ 100 * l' < 2 ^ 53 /\
    ((l' = l /\ n' = n /\ e' = e + amount /\ r' = rank p) \/
     (l < l' /\ n' = 100 * l' /\ r' = rankForLevel (whole l') /\
      e' + n + 50 * (l' - l - 1) * (l' + l) = e + amount)).
Proof.
  intros Hp Hl Hn He Ha Hbound El En Ee.
  destruct (level_up_whole (Z.to_nat (e + amount)) l n (e + amount) (rank p))
    as (l' & n' & e' & r' & Hrun & He' & Hn' & Hl' & Hcases); try lia.
  exists (Z.to_nat (e + amount)), l', n', e', r'.
  split; [| repeat split; try lia; exact Hcases].
  intros fuel' Hfuel. unfold addExperience. rewrite Hp.
  rewrite El, En, Ee, whole_add by lia.
  rewrite (level_up_more _ _ _ fuel' Hrun Hfuel). reflexivity.
Qed.

(** An infinite experience stays above every threshold: from a whole
    level the loop is still running after any number of rounds that
    keeps 100 times the level below 2^53. *)
Lemma level_up_unending (fuel : nat) :
  forall (l n : Z) (r : Rank),
    0 <= l -> 0 <= n < 2 ^ 53 -> 100 * (l + Z.of_nat fuel) < 2 ^ 53 ->
    level_up fuel {| p_experience := infinity; p_experienceToNext := whole n;
                     p_level := whole l; p_rank := r |} = None.
Proof.
  assert (forall n, 0 <= n < 2 ^ 53 -> (whole n <=? infinity)%float = true)
    as Hbelow.
  { intros n Hn. rewrite FloatAxioms.leb_spec, canon_whole by exact Hn.
    destruct n; reflexivity. }
  assert (forall n, 0 <= n < 2 ^ 53 -> (infinity - whole n)%float = infinity)
    as Hminus.
  { intros n Hn. apply FloatAxioms.Prim2SF_inj.
    rewrite FloatAxioms.sub_spec, canon_whole by exact Hn.
    destruct n; reflexivity. }
  induction fuel as [| fuel IH]; intros l n r Hl Hn Hbound;
    cbn [level_up p_experience p_experienceToNext];
    rewrite Hbelow by exact Hn; [reflexivity |].
  unfold level_up_once. cbn [p_experience p_experienceToNext p_level].
  change 1%float with (whole 1). change 100%float with (whole 100).
  rewrite Hminus, whole_add by lia.
  rewrite whole_mul by first [split; [lia | reflexivity] | lia].
  apply IH; lia.
Qed.

Lemma settlements_profile (times : list string) :
  forall (st : HunterState) (p : HunterProfile),
    profile st = Some p ->
    exists p', profile (settlements times st) = Some p' /\
               rank p' = rank p /\ level p' = level p /\
               experience p' = experience p /\
               totalTreasuresFound p' =
                 Nat.iter (length times) (fun x => (x + 1)%float)
                          (totalTreasuresFound p).
Proof.
  induction times as [| now times IH]; intros st p Hp; cbn [settlements fold_left].
  - exists p. repeat split; assumption.
  - destruct (IH (incrementTreasuresFound now st)
                {| id := id p; username := username p; rank := rank p;
                   level := level p; experience := experience p;
                   experienceToNext := experienceToNext p;
                   totalTreasuresFound := (totalTreasuresFound p + 1)%float;
                   currentStreak := (currentStreak p + 1)%float;
                   longestStreak :=
                     if (longestStreak p <? currentStreak p + 1)%float
                     then (currentStreak p + 1)%float else longestStreak p;
                   joinedAt := joinedAt p; lastActiveAt := now;
                   stats := bump_stats (stats p) |})
      as (p' & Hp' & Hr & Hl & He & Ht).
    + unfold incrementTreasuresFound. rewrite Hp. reflexivity.
    + exists p'. cbn [rank level experience totalTreasuresFound] in *.
      repeat split; try assumption.
      rewrite Ht. cbn [length]. rewrite Nat.iter_succ_r. reflexivity.
Qed.

(** Adding 1 to a whole number [k] times. *)
Lemma iter_succ_whole (k : nat) (n : Z) :
  0 <= n -> n + Z.of_nat k < 2 ^ 53 ->
  Nat.iter k (fun x => (x + 1)%float) (whole n) = whole (n + Z.of_nat k).
Proof.
  induction k as [| k IH]; intros Hn Hk.
  - cbn. now rewrite Z.add_0_r.
  - rewrite Nat.iter_succ, IH by lia.
    change 1%float with (whole 1). rewrite whole_add by lia.
    f_equal. lia.
Qed.

End HunterSliceFacts.

Section ProgressionClaims.
Import HunterSlice Samples.

(** C2, as stated, fails: the fifth settlement of a Beginner brings
    [totalTreasuresFound] to 5 and leaves the rank at Beginner, where the
    stated function of [totalTreasuresFound] gives Explorer. *)
Lemma C2_rank_is_not_recomputed :
  exists p',
    profile (incrementTreasuresFound "2024-05-05T08:00:00.000Z" four_found) = Some p' /\
    totalTreasuresFound p' = 5%float /\
    rank p' = Beginner /\
    Spec.rank_of_treasures (totalTreasuresFound p') = "Explorer" /\
    rank_name (rank p') <> Spec.rank_of_treasures (totalTreasuresFound p').
Proof.
  eexists. split; [vm_compute; reflexivity |].
  repeat split; try (vm_compute; reflexivity).
  vm_compute. discriminate.
Qed.

(** C2, amended: a settlement ([incrementTreasuresFound]) adds one to
    [totalTreasuresFound] (exactly, for whole counts below 2^53) and
    leaves rank and level as they were, so over any sequence of
    settlements the rank never decreases, but it is not a function of
    [totalTreasuresFound].  [addExperience], when its loop ends, leaves
    the loop condition false and either made no round or set the rank to
    that of the level reached and the threshold to 100 times that level;
    on a profile of whole numbers (level at least 0, threshold at least
    1, 100 * (level + experience + points) below 2^53) the loop does
    end, with any bound from the number of points on, and the level does
    not go down.  The rank of a level is monotone
    in the level, with thresholds 5 (Explorer), 10 (Adventurer),
    15 (Expert), 20 (Master Hunter).  The thresholds 5, 20 and 50 on the
    number of treasures are what [getNextRankRequirement] reports as
    treasures still needed for Explorer, Hunter and Master. *)
Theorem C2_rank_follows_level_not_treasures :
  (forall (times : list string) (st : HunterState) (p : HunterProfile),
      exists p',
        profile (settlements times (setProfile st p)) = Some p' /\
        rank p' = rank p /\ level p' = level p /\
        totalTreasuresFound p' =
          Nat.iter (length times) (fun x => (x + 1)%float)
                   (totalTreasuresFound p) /\
        (forall n : Z,
            0 <= n -> n + Z.of_nat (length times) < 2 ^ 53 ->
            totalTreasuresFound p = whole n ->
            totalTreasuresFound p' = whole (n + Z.of_nat (length times)))) /\
  (forall (fuel : nat) (st st' : HunterState) (p : HunterProfile)
          (amount : float),
      addExperience fuel (setProfile st p) amount = Some st' ->
      exists p',
        profile st' = Some p' /\
        (experienceToNext p' <=? experience p')%float = false /\
        totalTreasuresFound p' = totalTreasuresFound p /\
        ((level p' = level p /\ rank p' = rank p /\
          experienceToNext p' = experienceToNext p /\
          experience p' = (experience p + amount)%float) \/
         (rank p' = rankForLevel (level p') /\
          experienceToNext p' = (level p' * 100)%float))) /\
  (forall (st : HunterState) (p : HunterProfile) (l n e amount : Z),
      0 <= l -> 1 <= n < 2 ^ 53 -> 0 <= e -> 0 <= amount ->
      100 * (l + e + amount) < 2 ^ 53 ->
      level p = whole l -> experienceToNext p = whole n ->
      experience p = whole e ->
      exists (fuel : nat) (p' : HunterProfile) (l' : Z),
        (forall fuel' : nat,
            (fuel <= fuel')%nat ->
            addExperience fuel' (setProfile st p) (whole amount)
            = Some (setProfile st p')) /\
        level p' = whole l' /\ l <= l' < 2 ^ 53 /\
        (l' = l -> rank p' = rank p) /\
        (l < l' -> rank p' = rankForLevel (whole l')) /\
        (experienceToNext p' <=? experience p')%float = false /\
        totalTreasuresFound p' = totalTreasuresFound p) /\
  (forall a b : float,
      (a <=? b)%float = true ->
      rank_index (rankForLevel a) <= rank_index (rankForLevel b)) /\
  (forall l : Z,
      0 <= l < 2 ^ 53 ->
      rankForLevel (whole l) =
        if 20 <=? l then MasterHunter
        else if 15 <=? l then Expert
        else if 10 <=? l then Adventurer
        else if 5 <=? l then Explorer
        else Beginner) /\
  (forall n : Z,
      Helpers.getNextRankRequirement "Beginner" n =
        {| Helpers.nextRank := "Explorer"; Helpers.treasuresNeeded := Z.max 0 (5 - n) |} /\
      Helpers.getNextRankRequirement "Explorer" n =
        {| Helpers.nextRank := "Hunter"; Helpers.treasuresNeeded := Z.max 0 (20 - n) |} /\
      Helpers.getNextRankRequirement "Hunter" n =
        {| Helpers.nextRank := "Master"; Helpers.treasuresNeeded := Z.max 0 (50 - n) |} /\
      Helpers.getNextRankRequirement "Master" n =
        {| Helpers.nextRank := "Max Level"; Helpers.treasuresNeeded := 0 |}).
Proof.
  split; [| split; [| split; [| split; [| split]]]].
  - intros times st p.
    destruct (settlements_profile times (setProfile st p) p eq_refl)
      as (p' & Hp' & Hr & Hl & _ & Ht).
    exists p'. repeat split; try assumption.
    intros n Hn Hbound En. rewrite Ht, En. now apply iter_succ_whole.
  - intros fuel st st' p amount. unfold addExperience, setProfile, with_profile.
    cbn [profile].
    destruct (level_up fuel _) as [g |] eqn:Hg; [| discriminate].
    intros [= <-]. eexists. split; [reflexivity |].
    cbn [experience experienceToNext level rank totalTreasuresFound].
    destruct (level_up_exit _ _ _ Hg) as [Hexit [-> | Hround]].
    + repeat split; [exact Hexit |]. left. repeat split.
    + repeat split; [exact Hexit |]. right. exact Hround.
  - intros st p l n e amount Hl Hn He Ha Hbound El En Ee.
    destruct (addExperience_whole (setProfile st p) p l n e amount eq_refl
                Hl Hn He Ha Hbound El En Ee)
      as (fuel & l' & n' & e' & r' & Hrun & He' & Hn' & Hl' & Hcases).
    eexists fuel, _, l'. split; [exact Hrun |].
    cbn [level rank experience experienceToNext totalTreasuresFound].
    repeat split; try (destruct Hcases as [(? & ?) | (? & ?)]; lia).
    + intros E. destruct Hcases as [(_ & _ & _ & ->) | (? & _)];
        [reflexivity | lia].
    + intros E. destruct Hcases as [(? & _) | (_ & _ & -> & _)];
        [lia | reflexivity].
    + rewrite whole_leb by lia. apply Z.leb_gt. lia.
  - exact rankForLevel_mono.
  - exact rankForLevel_whole.
  - intros n. repeat split.
Qed.

Lemma C2_rank_follows_level_not_treasures_witness :
  exists (fuel : nat) (p' : HunterProfile) (l' : Z),
    (forall fuel' : nat,
        (fuel <= fuel')%nat ->
        addExperience fuel'
          (setProfile initialState
             (newProfile "hunter_1714550000000" "TreasureHunter"
                         "2024-05-01T07:53:20.000Z"))
          (whole 250)
        = Some (setProfile initialState p')) /\
    level p' = whole l' /\ 1 <= l' < 2 ^ 53 /\
    (l' = 1 -> rank p' = Beginner) /\
    (1 < l' -> rank p' = rankForLevel (whole l')) /\
    (experienceToNext p' <=? experience p')%float = false /\
    totalTreasuresFound p' = 0%float.
Proof.
  apply (proj1 (proj2 (proj2 C2_rank_follows_level_not_treasures))
           initialState
           (newProfile "hunter_1714550000000" "TreasureHunter"
                       "2024-05-01T07:53:20.000Z")
           1 100 0 250);
    try reflexivity; try lia; try (split; [lia | reflexivity]).
Defined.

(** C5, as stated, fails: a settlement four years after the last activity
    takes the streak from 7 to 8 instead of resetting it to 1, leaves the
    rank at Explorer although twenty treasures make a Hunter under the
    stated function, and [resetStreak] sets the streak to 0, not 1. *)
Lemma C5_settlement_keeps_rank_and_streak :
  exists p',
    profile (incrementTreasuresFound "2024-01-02T00:00:00.000Z" stale_explorer) = Some p' /\
    currentStreak p' = 8%float /\ (currentStreak p' =? 1)%float = false /\
    totalTreasuresFound p' = 20%float /\
    rank p' = Explorer /\
    Spec.rank_of_treasures (totalTreasuresFound p') = "Hunter" /\
    rank_name (rank p') <> Spec.rank_of_treasures (totalTreasuresFound p') /\
    option_map currentStreak (profile (resetStreak stale_explorer)) = Some 0%float.
Proof.
  eexists. split; [vm_compute; reflexivity |].
  repeat split; try (vm_compute; reflexivity).
  vm_compute. discriminate.
Qed.

(** C5, amended: [incrementTreasuresFound] adds 1 to
    [totalTreasuresFound], in the arithmetic of doubles: exactly 1 for a
    whole count below 2^53 - 1, while a count of 2^53 stays as it is.  It
    adds 1 to [currentStreak] whatever the time of the last activity,
    raises [longestStreak] to the new streak when that is larger, adds 1
    to the day, week and month counters, sets [lastActiveAt] to the
    current time and leaves rank, level and experience untouched.
    [resetStreak] sets the streak to 0 and keeps the rest; without a
    loaded profile both do nothing. *)
Theorem C5_settlement_updates_profile :
  forall (now : string) (st : HunterState) (p : HunterProfile),
    (exists p',
        profile (incrementTreasuresFound now (setProfile st p)) = Some p' /\
        totalTreasuresFound p' = (totalTreasuresFound p + 1)%float /\
        currentStreak p' = (currentStreak p + 1)%float /\
        longestStreak p' =
          (if (longestStreak p <? currentStreak p + 1)%float
           then (currentStreak p + 1)%float else longestStreak p) /\
        lastActiveAt p' = now /\
        rank p' = rank p /\ level p' = level p /\
        experience p' = experience p /\
        experienceToNext p' = experienceToNext p /\
        treasuresFoundToday (stats p') = (treasuresFoundToday (stats p) + 1)%float /\
        treasuresFoundThisWeek (stats p') = (treasuresFoundThisWeek (stats p) + 1)%float /\
        treasuresFoundThisMonth (stats p') = (treasuresFoundThisMonth (stats p) + 1)%float /\
        (forall n : Z,
            0 <= n < 2 ^ 53 - 1 -> totalTreasuresFound p = whole n ->
            totalTreasuresFound p' = whole (n + 1)) /\
        (forall c m : Z,
            0 <= c < 2 ^ 53 - 1 -> 0 <= m < 2 ^ 53 ->
            currentStreak p = whole c -> longestStreak p = whole m ->
            currentStreak p' = whole (c + 1) /\
            longestStreak p' = whole (Z.max m (c + 1))) /\
        (totalTreasuresFound p = whole (2 ^ 53) ->
         totalTreasuresFound p' = totalTreasuresFound p)) /\
    (exists p',
        profile (resetStreak (setProfile st p)) = Some p' /\
        currentStreak p' = 0%float /\
        totalTreasuresFound p' = totalTreasuresFound p /\
        longestStreak p' = longestStreak p /\
        rank p' = rank p /\ lastActiveAt p' = lastActiveAt p) /\
    (profile st = None ->
     incrementTreasuresFound now st = st /\ resetStreak st = st).
Proof.
  intros now st p. split; [| split].
  - eexists. split; [reflexivity |].
    cbn [totalTreasuresFound currentStreak longestStreak lastActiveAt rank
         level experience experienceToNext stats bump_stats
         treasuresFoundToday treasuresFoundThisWeek treasuresFoundThisMonth].
    repeat split.
    + intros n Hn ->. change 1%float with (whole 1). apply whole_add; lia.
    + rewrite H1. change 1%float with (whole 1). apply whole_add; lia.
    + rewrite H1, H2. change 1%float with (whole 1).
      rewrite whole_add, whole_ltb by lia.
      destruct (Z.ltb_spec m (c + 1)); f_equal; lia.
    + intros ->. vm_compute. reflexivity.
  - eexists. split; [reflexivity |]. simpl. repeat split.
  - intros Hnone. unfold incrementTreasuresFound, resetStreak.
    rewrite Hnone. split; reflexivity.
Qed.

Lemma C5_settlement_updates_profile_witness :
  profile initialState = None /\
  incrementTreasuresFound "2024-01-02T00:00:00.000Z" initialState = initialState.
Proof.
  split; [reflexivity |].
  apply (C5_settlement_updates_profile "2024-01-02T00:00:00.000Z" initialState
           (newProfile "h" "u" "2024-01-01T00:00:00.000Z")).
  reflexivity.
Defined.

End ProgressionClaims.

(** * Properties of the dashboard gate *)

Section ProximityClaims.
Import Dashboard.

Lemma SFcompare_swap (a b : spec_float) :
  SFcompare b a = option_map CompOpp (SFcompare a b).
Proof.
  destruct a as [sa | sa | | sa ma ea], b as [sb | sb | | sb mb eb];
    simpl; try reflexivity;
    try (destruct sa; reflexivity); try (destruct sb; reflexivity);
    try (destruct sa, sb; reflexivity).
  rewrite (Z.compare_antisym ea eb).
  destruct sa, sb; simpl; try reflexivity;
    destruct (ea ?= eb)%Z; simpl; try reflexivity;
    pose proof (Pos.compare_cont_antisym ma mb Eq) as H; simpl in H;
    rewrite <- H; rewrite ?CompOpp_involutive; reflexivity.
Qed.

Lemma SFcompare_refl_cases (y : spec_float) :
  SFcompare y y = Some Eq \/ y = S754_nan.
Proof.
  destruct y as [s | s | | s m e]; simpl; auto.
  - destruct s; auto.
  - destruct s; rewrite Z.compare_refl, Pos.compare_cont_refl; auto.
Qed.

Lemma SF_not_lt_iff (x y : spec_float) :
  x <> S754_nan ->
  SFltb x y = false <-> (SFleb y x = true \/ SFeqb y y = false).
Proof.
  intros Hx. unfold SFltb, SFleb, SFeqb.
  rewrite (SFcompare_swap x y).
  destruct (SFcompare_refl_cases y) as [Hy | ->].
  - rewrite Hy.
    destruct (SFcompare x y) as [[] |] eqn:E; simpl; try intuition congruence.
    exfalso. destruct x, y; simpl in *; try discriminate; congruence.
  - destruct x; simpl; tauto.
Qed.

(** Over doubles, "not greater than 5000" is "at most 5000, or not a
    number". *)
Lemma not_gt_iff_le_or_nan (d : float) :
  (5000 <? d)%float = false <->
  ((d <=? 5000)%float = true \/ PrimFloat.is_nan d = true).
Proof.
  rewrite FloatAxioms.ltb_spec, FloatAxioms.leb_spec.
  unfold is_nan. rewrite FloatAxioms.eqb_spec.
  rewrite SF_not_lt_iff by (vm_compute; discriminate).
  destruct (SFeqb (Prim2SF d) (Prim2SF d)); simpl; intuition congruence.
Qed.

(** C4, as stated, fails: with the policy's default
    [maxDistanceMeters] of 100, a treasure reported 101 m away passes the
    gate. *)
Lemma C4_gate_ignores_policy_threshold :
  accepted (treasure_at 101) = true /\
  spec_within spec_default_maxDistanceMeters 101 = false /\
  navigateToTreasure (treasure_at 101) = Push "/hunt" "t-1".
Proof. repeat split. Qed.

(** C4, amended: the gate of the client, [navigateToTreasure], lets a
    treasure through exactly when its reported distance in meters is at
    most the fixed threshold 5000 (or is not a number), comparing the
    unrounded double: a distance of exactly 5000 is accepted and 5001 is
    refused with the "Too Far Away" alert.  [calculateDistance] is the
    great-circle distance of the haversine formula: the mean Earth
    radius 6,371,000 m times the central angle
    2 * atan2(sqrt a, sqrt (1 - a)), returned unrounded. *)
Theorem C4_gate_threshold :
  (forall t : NearbyTreasure,
      (accepted t = true <->
         ((distance t <=? 5000)%float = true \/
          PrimFloat.is_nan (distance t) = true)) /\
      (accepted t = false <->
         navigateToTreasure t =
           Alert "Too Far Away"
             "You need to be closer to this treasure to hunt it. Get within 5km to start hunting!") /\
      (accepted t = true <-> navigateToTreasure t = Push "/hunt" (treasureId t))) /\
  accepted (treasure_at 5000) = true /\
  accepted (treasure_at 5001) = false /\
  Helpers.R = 6371000%float /\
  (forall (sin cos : float -> float) (atan2 : float -> float -> float)
          (lat1 lng1 lat2 lng2 : float),
      Helpers.calculateDistance sin cos atan2 lat1 lng1 lat2 lng2 =
        Spec.great_circle_distance sin cos atan2 lat1 lng1 lat2 lng2 /\
      Helpers.calculateDistance sin cos atan2 lat1 lng1 lat2 lng2 =
        (6371000 *
         (2 * atan2
                (PrimFloat.sqrt (Spec.haversine_a sin cos lat1 lng1 lat2 lng2))
                (PrimFloat.sqrt (1 - Spec.haversine_a sin cos lat1 lng1 lat2 lng2))))%float).
Proof.
  split; [| repeat split].
  - intros t.
    pose proof (not_gt_iff_le_or_nan (distance t)) as H.
    unfold accepted, navigateToTreasure.
    destruct (5000 <? distance t)%float.
    + repeat split; intros; try discriminate; try reflexivity.
      apply H in H0. discriminate.
    + repeat split; intros; try discriminate; try reflexivity.
      apply H. reflexivity.
Qed.

End ProximityClaims.

(** * Properties of the wallet service *)

Section SuiFacts.
Import Sui.

Lemma only_pbind (P : forall X : Type, Op X -> bool) {A B : Type}
  (p : Prog A) (f : A -> Prog B) :
  only P p -> (forall a, only P (f a)) -> only P (pbind p f).
Proof.
  intros Hp Hf. induction Hp as [a | X op k Hop Hk IH]; simpl.
  - apply Hf.
  - apply only_Call; [exact Hop | exact IH].
Qed.

Lemma only_trace (P : forall X : Type, Op X -> bool) {S A : Type}
  (env : Env S) (p : Prog A) :
  only P p -> forall s : S, forallb (event_ok P) (snd (run env p s)) = true.
Proof.
  intros Hp. induction Hp as [a | X op k Hop Hk IH]; intros s; simpl.
  - reflexivity.
  - rewrite Hop. simpl. apply IH.
Qed.

Lemma quiet_submitted (trace : list Event) :
  forallb (event_ok no_submit) trace = true -> submitted trace = [].
Proof.
  induction trace as [| [X op x] tr IH]; simpl; [reflexivity |].
  intros H. apply andb_prop in H. destruct H as [H1 H2].
  unfold submitted in *. simpl. rewrite (IH H2).
  destruct op; simpl in *; try reflexivity; discriminate.
Qed.

Lemma quiet_balances (trace : list Event) :
  forallb (event_ok no_balance) trace = true -> balances trace = [].
Proof.
  induction trace as [| [X op x] tr IH]; simpl; [reflexivity |].
  intros H. apply andb_prop in H. destruct H as [H1 H2].
  unfold balances in *. simpl. rewrite (IH H2).
  destruct op; simpl in *; try reflexivity; discriminate.
Qed.

Lemma quiet_find_answers (trace : list Event) :
  forallb (event_ok no_find_submit) trace = true ->
  find_answers trace = [] /\ events_after_find trace = None.
Proof.
  induction trace as [| [X op x] tr IH]; simpl; [split; reflexivity |].
  intros H. apply andb_prop in H. destruct H as [H1 H2].
  destruct (IH H2) as [IH1 IH2].
  unfold find_answers in *. simpl. rewrite IH1, IH2.
  unfold no_find_submit in H1. apply negb_true_iff in H1. rewrite H1.
  split; [| reflexivity].
  destruct op; simpl in *; try reflexivity. rewrite H1. reflexivity.
Qed.

Lemma ends_pbind_only (P : forall X : Type, Op X -> bool) {A B : Type}
  (Q : A -> Prop) (p : Prog A) (f : A -> Prog B) :
  ends P Q p -> (forall a, Q a -> only P (f a)) -> only P (pbind p f).
Proof.
  intros Hp Hf. induction Hp as [a Ha | X op k Hop Hk IH]; simpl.
  - apply Hf, Ha.
  - apply only_Call; [exact Hop | exact IH].
Qed.

Lemma guarded_pbind (low : string -> bool) {A B : Type} (Q : A -> Prop)
  (p : Prog A) (f : A -> Prog (result B * Service)) :
  ends wallet_only Q p ->
  (forall a, Q a -> balance_guarded low (f a)) ->
  balance_guarded low (pbind p f).
Proof.
  intros Hp Hf. induction Hp as [a Ha | X op k Hop Hk IH]; simpl.
  - apply Hf, Ha.
  - apply guarded_wallet; [exact Hop | exact IH].
Qed.

Lemma shot_pbind {A B : Type} (Q : A -> Prop)
  (p : Prog A) (f : A -> Prog (result B * Service)) :
  ends no_find_submit Q p ->
  (forall a, Q a -> single_shot (f a)) ->
  single_shot (pbind p f).
Proof.
  intros Hp Hf. induction Hp as [a Ha | X op k Hop Hk IH]; simpl.
  - apply Hf, Ha.
  - apply shot_other; [| exact IH].
    unfold no_find_submit in Hop. apply negb_true_iff in Hop. exact Hop.
Qed.

Lemma ends_weaken (P P' : forall X : Type, Op X -> bool) {A : Type}
  (Q : A -> Prop) (p : Prog A) :
  (forall X op, P X op = true -> P' X op = true) ->
  ends P Q p -> ends P' Q p.
Proof.
  intros HP Hp. induction Hp as [a Ha | X op k Hop Hk IH].
  - apply ends_Ret, Ha.
  - apply ends_Call; [apply HP, Hop | exact IH].
Qed.

Lemma specific_insufficient :
  specific_error insufficient_balance = insufficient_balance.
Proof. vm_compute. reflexivity. Qed.

Ltac unfold_methods :=
  unfold findTreasure, findTreasure_try, findTreasure_submit,
    getBalanceInSui, getBalance, ensure_wallet,
    initializeWallet, loadCachedObjectIds, address_of_keypair, when_present,
    findTreasureRegistry, findOrCreateHunterProfile, createHunterProfile,
    storeTreasureLocally, verified,
    bind, try_catch, await, ask, this, update, ret, throw.

Ltac unfold_front :=
  unfold findTreasure_try, getBalanceInSui, getBalance, ensure_wallet,
    initializeWallet, loadCachedObjectIds, address_of_keypair, when_present,
    bind, try_catch, await, ask, this, update, ret, throw.

Ltac crunch :=
  cbn -[includes specific_error String.append List.find List.filter
        insufficient_balance createdObjects succeeded transaction_error
        find_treasure_tx PrimFloat.ltb PrimFloat.div MIST_PER_SUI low_balance
        rejection_text rejected findTreasure_submit].

Ltac crunch_in H :=
  cbn -[includes specific_error String.append List.find List.filter
        insufficient_balance createdObjects succeeded transaction_error
        find_treasure_tx PrimFloat.ltb PrimFloat.div MIST_PER_SUI low_balance
        rejection_text rejected findTreasure_submit] in H.

Ltac split_match :=
  match goal with
  | |- context [match ?x with _ => _ end] =>
      first [ is_var x; destruct x | destruct x eqn:? ]
  end.

Ltac walk_only :=
  repeat first
    [ apply only_Ret
    | apply only_Call; [reflexivity | intros ?]
    | progress crunch
    | split_match ].

Ltac walk_ends :=
  repeat first
    [ apply ends_Ret; crunch; first [ discriminate | intros; discriminate | eauto ]
    | apply ends_Call; [reflexivity | intros ?]
    | progress crunch
    | split_match ].

Section Shapes.
Variable N : string -> float.
Variables tid pr : string.

(** After [if (!this.keypair) await this.initializeWallet()] the key pair
    is there, or the call has failed; only the key store and the local
    storage were asked. *)
Lemma ensure_wallet_shape (s : Service) :
  ends wallet_only
       (fun out => fst out = Ok tt -> exists a, keypair (snd out) = Some a)
       (ensure_wallet s).
Proof.
  destruct s as [kp rid pid ini]. unfold_methods. walk_ends.
Qed.

Lemma submit_no_balance (s : Service) :
  only no_balance (findTreasure_submit tid pr s).
Proof.
  destruct s as [kp rid pid ini]. unfold_methods. walk_only.
Qed.

Lemma try_guarded (s : Service) (a : string) :
  keypair s = Some a ->
  balance_guarded (low_balance N) (try_catch (findTreasure_try N tid pr) on_error s).
Proof.
  destruct s as [kp rid pid ini]. simpl. intros Hk. subst kp.
  unfold on_error. unfold_front. crunch.
  apply guarded_balance. intros r. split; intros Hlow.
  - unfold low_balance in Hlow.
    destruct r; crunch; crunch_in Hlow; rewrite Hlow; crunch;
      rewrite specific_insufficient; eexists; reflexivity.
  - unfold low_balance in Hlow.
    destruct r; crunch; crunch_in Hlow; rewrite Hlow; crunch;
      (apply only_pbind; [apply submit_no_balance | intros [[] ?]; crunch; apply only_Ret]).
Qed.



Lemma findTreasure_guarded (s : Service) :
  balance_guarded (low_balance N) (findTreasure N tid pr s).
Proof.
  unfold findTreasure, bind.
  apply (guarded_pbind _ _ _ _ (ensure_wallet_shape s)).
  intros [[[] | m] s'] Hs'; simpl in *.
  - destruct (Hs' eq_refl) as [a Ha]. apply (try_guarded s' a Ha).
  - apply guarded_failed.
Qed.

Ltac walk_shot :=
  repeat first
    [ apply shot_done
    | apply shot_fired; [reflexivity |];
      let r := fresh "r" in let Hrej := fresh "Hrej" in
      intros r; split;
      [ destruct r; walk_only
      | intros Hrej; destruct r; unfold rejected, rejection_text in *; crunch;
        [ apply negb_true_iff in Hrej; rewrite Hrej; crunch; eexists; reflexivity
        | eexists; reflexivity ] ]
    | apply shot_other; [reflexivity | intros ?]
    | progress crunch
    | split_match ].

Lemma submit_shot (s : Service) :
  single_shot (try_catch (findTreasure_submit tid pr) on_error s).
Proof.
  destruct s as [kp rid pid ini]. unfold on_error. unfold_methods. walk_shot.
Qed.

Lemma try_shot (s : Service) :
  single_shot (try_catch (findTreasure_try N tid pr) on_error s).
Proof.
  pose proof submit_shot as Hsub. unfold try_catch, on_error in Hsub.
  destruct s as [kp rid pid ini]. unfold on_error. unfold_front.
  repeat first
    [ apply shot_done
    | apply Hsub
    | apply shot_other; [reflexivity | intros ?]
    | progress crunch
    | split_match ].
Qed.

Lemma findTreasure_single_shot (s : Service) :
  single_shot (findTreasure N tid pr s).
Proof.
  unfold findTreasure, bind.
  apply (shot_pbind (fun _ => True) (ensure_wallet s)).
  - apply (ends_weaken wallet_only).
    + intros X op. destruct op; simpl; intros; try reflexivity; discriminate.
    + destruct s as [kp rid pid ini]. unfold_methods. walk_ends.
  - intros [[[] | m] s'] _; simpl.
    + apply try_shot.
    + apply shot_done.
Qed.

End Shapes.





Lemma guarded_run (low : string -> bool) {S A : Type} (env : Env S)
  (p : Prog (result A * Service)) :
  balance_guarded low p ->
  forall s : S,
    existsb low (balances (snd (run env p s))) = true ->
    (exists svc', fst (fst (run env p s)) = (Err insufficient_balance, svc')) /\
    submitted (snd (run env p s)) = [] /\
    length (balances (snd (run env p s))) = 1%nat.
Proof.
  intros Hp. induction Hp as [m svc | X op k Hop Hk IH | owner coin k Hk];
    intros s Hlow.
  - simpl in Hlow. discriminate.
  - simpl in *. unfold wallet_only in Hop.
    apply andb_prop in Hop. destruct Hop as [Hs Hb].
    apply negb_true_iff in Hs. apply negb_true_iff in Hb.
    assert (Hbal : balance_of (event op (fst (env X op s))) = []).
    { destruct op; simpl in *; try reflexivity; discriminate. }
    assert (Hsub : submitted_of (event op (fst (env X op s))) = []).
    { destruct op; simpl in *; try reflexivity; discriminate. }
    unfold balances, submitted in *. simpl in *.
    rewrite Hbal in *. rewrite Hsub. simpl in *.
    apply (IH _ _ Hlow).
  - simpl in *. unfold balances, submitted in *. simpl in *.
    set (r := fst (env (result string) (GetBalance owner coin) s)) in *.
    set (s' := snd (env (result string) (GetBalance owner coin) s)) in *.
    destruct (Hk r) as [Hko Hhi].
    fold (balance_text r) in Hlow |- *.
    destruct (low (balance_text r)) eqn:Hr.
    + destruct (Hko eq_refl) as [svc' Hkr]. rewrite Hkr. simpl.
      split; [eexists; reflexivity |]. split; [reflexivity |].
      destruct r; reflexivity.
    + exfalso. simpl in Hlow.
      pose proof (only_trace no_balance env (k r) (Hhi eq_refl) s') as Hq.
      apply quiet_balances in Hq. unfold balances in Hq.
      rewrite Hq in Hlow. simpl in Hlow.
      unfold balance_text in Hr. destruct r; simpl in Hlow;
        rewrite Hr in Hlow; discriminate.
Qed.

Lemma shot_run {S A : Type} (env : Env S) (p : Prog (result A * Service)) :
  single_shot p ->
  forall s : S,
    (length (find_answers (snd (run env p s))) <= 1)%nat /\
    (forall r : result TxResult,
        In r (find_answers (snd (run env p s))) ->
        rejected r = true ->
        (exists svc', fst (fst (run env p s)) =
                        (Err (specific_error (rejection_text r)), svc')) /\
        events_after_find (snd (run env p s)) = Some []).
Proof.
  intros Hp. induction Hp as [out | X op k Hop Hk IH | tx k Htx Hk]; intros s.
  - simpl. split; [lia | intros r []].
  - assert (Hfa : find_answer_of (event op (fst (env X op s))) = []).
    { destruct op; simpl in *; try reflexivity. rewrite Hop. reflexivity. }
    cbn [run fst snd]. unfold find_answers in *.
    cbn [flat_map events_after_find is_find_event].
    rewrite Hfa, Hop. cbn [app]. apply IH.
  - simpl. unfold find_answers. simpl. rewrite Htx. simpl.
    set (r := fst (env (result TxResult) (SignAndExecute tx) s)) in *.
    set (s' := snd (env (result TxResult) (SignAndExecute tx) s)) in *.
    destruct (Hk r) as [Hquiet Hrej].
    pose proof (only_trace no_find_submit env (k r) Hquiet s') as Hq.
    apply quiet_find_answers in Hq. destruct Hq as [Hq _].
    unfold find_answers in Hq. rewrite Hq. simpl.
    split; [lia |].
    intros r0 [<- | []] Hr.
    destruct (Hrej Hr) as [svc' Hkr]. rewrite Hkr. simpl.
    split; [eexists; reflexivity | reflexivity].
Qed.

Lemma mentioned_specific (text : string) (k : TerminalKind) :
  mentioned_kind text = Some k -> specific_error text = message_of k.
Proof.
  unfold mentioned_kind, specific_error.
  destruct (includes text "E_TREASURE_ALREADY_FOUND");
    [intros [= <-]; reflexivity |].
  destruct (includes text "E_INVALID_LOCATION");
    [intros [= <-]; reflexivity |].
  destruct (includes text "E_INSUFFICIENT_RANK");
    [intros [= <-]; reflexivity |].
  destruct (includes text "E_INVALID_TREASURE_ID");
    [intros [= <-]; reflexivity | discriminate].
Qed.

Lemma message_of_injective (k1 k2 : TerminalKind) :
  k1 <> k2 -> message_of k1 <> message_of k2.
Proof.
  intros Hne Heq. apply Hne. clear Hne.
  destruct k1, k2; try reflexivity; vm_compute in Heq; discriminate.
Qed.

(** A call that failed with a terminal kind rejects with the message of
    that kind. *)
Lemma kind_message (N : string -> float) {S : Type} (env : Env S) (s : S)
  (svc : Service) (tid pr : string) (k : TerminalKind) :
  failure_kind N (snd (run env (findTreasure N tid pr svc) s)) = Some k ->
  exists svc',
    fst (fst (run env (findTreasure N tid pr svc) s)) = (Err (message_of k), svc').
Proof.
  unfold failure_kind. intros Hk.
  destruct (existsb (low_balance N) _) eqn:Hlow.
  - injection Hk as <-.
    destruct (guarded_run (low_balance N) env _ (findTreasure_guarded N tid pr svc) s Hlow)
      as [Hres _].
    exact Hres.
  - destruct (shot_run env _ (findTreasure_single_shot N tid pr svc) s) as [_ Hrej].
    destruct (find_answers _) as [| r [| ? ?]] eqn:Hfa; try discriminate.
    destruct (rejected r) eqn:Hr; try discriminate.
    destruct (Hrej r (or_introl eq_refl) Hr) as [[svc' Hres] _].
    exists svc'. rewrite Hres. rewrite (mentioned_specific _ _ Hk). reflexivity.
Qed.

End SuiFacts.

(** * Properties of interleaved discoveries *)

Section RaceFacts.
Import Sui Ledger.
Variable location_ok : string -> string -> bool.
Variable rank_ok : string -> string -> bool.
Variable treasure : string.

Local Notation world := (world location_ok rank_ok).
Local Notation step := (step location_ok rank_ok).
Local Notation steps := (steps location_ok rank_ok).
Local Notation poised := (poised location_ok rank_ok treasure).
Local Notation race_invariant := (race_invariant location_ok rank_ok treasure).

Lemma already_found_surfaces :
  specific_error ("Transaction failed: " ++
                  transaction_error (abort_of "E_TREASURE_ALREADY_FOUND"))
  = already_found.
Proof. vm_compute. reflexivity. Qed.

(** A ready caller starts poised. *)
Lemma ready_poised (N : string -> float) (c0 : Chain) (who : Caller) :
  ready location_ok rank_ok N treasure c0 who ->
  poised c0 (rest (start N treasure who)).
Proof.
  intros (a & rid & pid & b & Hk & Hr & Hp & Hrid & Hpid & Hb & Hlow & Hloc & Hrank).
  destruct who as [d [kp r p ini] proof]. simpl in *. subst kp r p.
  unfold findTreasure, findTreasure_try, findTreasure_submit,
    getBalanceInSui, getBalance, ensure_wallet, address_of_keypair,
    findTreasureRegistry, findOrCreateHunterProfile, storeTreasureLocally, verified,
    bind, try_catch, await, ask, this, update, ret, throw.
  cbn -[includes specific_error String.append PrimFloat.ltb PrimFloat.div
        MIST_PER_SUI].
  apply (poised_balance _ _ _ _ _ _ b); [exact Hb |].
  unfold low_balance in Hlow.
  cbn -[includes specific_error String.append PrimFloat.ltb PrimFloat.div
        MIST_PER_SUI].
  rewrite Hlow.
  cbn -[includes specific_error String.append].
  apply poised_object; [exact Hrid |].
  cbn -[includes specific_error String.append].
  apply poised_object; [exact Hpid |].
  cbn -[includes specific_error String.append].
  eapply poised_submit; [reflexivity | exact Hloc | exact Hrank | |].
  - cbn -[specific_error String.append].
    repeat (apply claims_local; [reflexivity | intros ?];
            cbn -[specific_error String.append]).
    destruct x1; apply claims_done.
  - replace (succeeded (abort_of "E_TREASURE_ALREADY_FOUND")) with false
      by reflexivity.
    cbn -[specific_error String.append transaction_error abort_of].
    rewrite already_found_surfaces. eexists. reflexivity.
Qed.

Lemma local_keeps_chain {X : Type} (op : Op X) (c : Chain) (d : Device) :
  is_local op = true -> fst (snd (world X op (c, d))) = c.
Proof. destruct op; simpl; intros; try reflexivity; discriminate. Qed.

Lemma frame_refl (c : Chain) : frame c c.
Proof. unfold frame. split; [reflexivity |]. split; [set_solver | reflexivity]. Qed.

Lemma insert_lookup_cases (tasks : list Task) (i i' : nat) (new t' : Task) :
  <[ i := new ]> tasks !! i' = Some t' ->
  (i' = i /\ t' = new) \/ (i' <> i /\ tasks !! i' = Some t').
Proof.
  intros H. destruct (decide (i' = i)) as [-> | Hne].
  - left. split; [reflexivity |].
    destruct (decide (i < length tasks)%nat) as [Hlt | Hge].
    + rewrite list_lookup_insert_eq in H by exact Hlt. congruence.
    + rewrite list_insert_ge in H by lia.
      apply lookup_lt_Some in H. lia.
  - right. split; [exact Hne |].
    rewrite list_lookup_insert_ne in H by congruence. exact H.
Qed.

(** A poised task that moves stays poised as long as it reads, and its
    submission settles on a ledger where the treasure is free and is
    refused with [already_found] where it is taken. *)
Lemma poised_advance (c0 c c' : Chain) (d d' : Device)
  (p p' : Prog (result TreasureDiscoveryResult * Service)) :
  treasure ∈ registered c0 ->
  frame c0 c ->
  poised c0 p ->
  advance location_ok rank_ok (c, d) p = Some (p', (c', d')) ->
  frame c0 c' /\
  ((treasure ∉ settled c ->
    (c' = c /\ poised c0 p') \/
    (treasure ∈ settled c' /\ claims p')) /\
   (treasure ∈ settled c ->
    c' = c /\ (poised c0 p' \/ exists svc, p' = Ret (Err already_found, svc)))).
Proof.
  intros Hreg (Hcoins & Hobj & Hregs) Hp Hadv.
  destruct Hp as [owner coin b k Hb Hk | ident k Hid Hk
                 | tx reg prof proof clk k Hcall Hloc Hrank Hwin Hlose];
    simpl in Hadv.
  - rewrite Hcoins, Hb in Hadv. injection Hadv as <- <- <-.
    split; [repeat split; assumption |]. split; intros _; auto.
  - rewrite bool_decide_eq_true_2 in Hadv by set_solver.
    injection Hadv as <- <- <-.
    split; [repeat split; assumption |]. split; intros _; auto.
  - unfold execute in Hadv. rewrite Hcall in Hadv.
    rewrite bool_decide_eq_true_2 in Hadv by (rewrite Hregs; exact Hreg).
    rewrite Hloc, Hrank in Hadv. simpl in Hadv.
    destruct (bool_decide (treasure ∈ settled c)) eqn:Hs.
    + apply bool_decide_eq_true_1 in Hs.
      simpl in Hadv. injection Hadv as <- <- <-.
      split; [repeat split; assumption |].
      split; [intros Hn; contradiction |].
      intros _. split; [reflexivity |]. right. exact Hlose.
    + apply bool_decide_eq_false_1 in Hs.
      simpl in Hadv. injection Hadv as <- <- <-.
      split; [repeat split; simpl; try assumption; set_solver |].
      split; [| intros Hin; contradiction].
      intros _. right. split; [simpl; set_solver | exact Hwin].
Qed.

Lemma claims_advance (c c' : Chain) (d d' : Device)
  (p p' : Prog (result TreasureDiscoveryResult * Service)) :
  claims p ->
  advance location_ok rank_ok (c, d) p = Some (p', (c', d')) ->
  c' = c /\ claims p'.
Proof.
  intros Hp Hadv. destruct Hp as [r svc | X op k Hop Hk]; simpl in Hadv.
  - discriminate.
  - pose proof (local_keeps_chain op c d Hop) as Hl.
    destruct (Ledger.world location_ok rank_ok X op (c, d)) as [x [c1 d1]].
    simpl in *. injection Hadv as <- <- <-.
    split; [exact Hl | apply Hk].
Qed.

Lemma step_invariant (c0 : Chain) (cfg cfg' : Config) :
  treasure ∈ registered c0 ->
  race_invariant c0 cfg -> step cfg cfg' -> race_invariant c0 cfg'.
Proof.
  intros Hreg [Hframe Hinv] Hstep.
  destruct Hstep as [c c' tasks i t p' d' Hi Hadv]. cbn [fst snd] in *.
  destruct Hinv as [[Hfree Hall] | (Htaken & j & winner & Hj & Hwin & Hothers)].
  - destruct (poised_advance c0 c c' _ _ _ _ Hreg Hframe (Hall i t Hi) Hadv)
      as (Hframe' & Hwhen & _).
    split; [exact Hframe' |].
    destruct (Hwhen Hfree) as [[-> Hp'] | [Hs' Hc']].
    + left. split; [exact Hfree |].
      intros i' t' Hi'. cbn [snd] in Hi'.
      destruct (insert_lookup_cases _ _ _ _ _ Hi') as [[_ ->] | [_ Hold]];
        [exact Hp' | exact (Hall _ _ Hold)].
    + right. split; [exact Hs' |].
      exists i, {| device := d'; rest := p' |}.
      split; [| split].
      * cbn [snd]. apply list_lookup_insert_eq. apply lookup_lt_Some in Hi. exact Hi.
      * exact Hc'.
      * intros i' t' Hne Hi'. cbn [snd] in Hi'.
        rewrite list_lookup_insert_ne in Hi' by congruence.
        left. exact (Hall _ _ Hi').
  - destruct (decide (i = j)) as [-> | Hne].
    + assert (t = winner) as -> by congruence.
      destruct (claims_advance _ _ _ _ _ _ Hwin Hadv) as [-> Hc'].
      split; [exact Hframe |]. right. split; [exact Htaken |].
      exists j, {| device := d'; rest := p' |}.
      split; [| split].
      * cbn [snd]. apply list_lookup_insert_eq. apply lookup_lt_Some in Hi. exact Hi.
      * exact Hc'.
      * intros i' t' Hne Hi'. cbn [snd] in Hi'.
        rewrite list_lookup_insert_ne in Hi' by congruence.
        exact (Hothers _ _ Hne Hi').
    + destruct (Hothers i t Hne Hi) as [Hp | [svc Hlost]].
      * destruct (poised_advance c0 c c' _ _ _ _ Hreg Hframe Hp Hadv)
          as (Hframe' & _ & Hwhen).
        destruct (Hwhen Htaken) as [-> Hp'].
        split; [exact Hframe |]. right. split; [exact Htaken |].
        exists j, winner.
        split; [| split].
        -- cbn [snd]. rewrite list_lookup_insert_ne by congruence. exact Hj.
        -- exact Hwin.
        -- intros i' t' Hne' Hi'. cbn [snd] in Hi'.
           destruct (insert_lookup_cases _ _ _ _ _ Hi') as [[_ ->] | [_ Hold]].
           ++ destruct Hp' as [Hp' | [svc Hp']]; [left; exact Hp' |].
              right. exists svc. exact Hp'.
           ++ exact (Hothers _ _ Hne' Hold).
      * rewrite Hlost in Hadv. simpl in Hadv. discriminate.
Qed.

Lemma steps_invariant (c0 : Chain) (cfg cfg' : Config) :
  treasure ∈ registered c0 ->
  race_invariant c0 cfg -> steps cfg cfg' -> race_invariant c0 cfg'.
Proof.
  intros Hreg Hinv Hsteps. induction Hsteps as [cfg | cfg1 cfg2 cfg3 H12 H23 IH].
  - exact Hinv.
  - apply IH. exact (step_invariant c0 _ _ Hreg Hinv H12).
Qed.

Lemma steps_length (cfg cfg' : Config) :
  steps cfg cfg' -> length (snd cfg') = length (snd cfg).
Proof.
  intros Hsteps. induction Hsteps as [cfg | cfg1 cfg2 cfg3 H12 H23 IH].
  - reflexivity.
  - rewrite IH. destruct H12. simpl. apply length_insert.
Qed.

Lemma steps_trans (cfg1 cfg2 cfg3 : Config) :
  steps cfg1 cfg2 -> steps cfg2 cfg3 -> steps cfg1 cfg3.
Proof.
  intros H12 H23. induction H12 as [cfg | a b c Hab Hbc IH].
  - exact H23.
  - eapply steps_step; [exact Hab | exact (IH H23)].
Qed.

(** A task can always be run to its end: a call is a finite tree. *)
Lemma finish_task (p : Prog (result TreasureDiscoveryResult * Service)) :
  forall (c : Chain) (tasks : list Task) (i : nat) (d : Device),
    tasks !! i = Some {| device := d; rest := p |} ->
    exists c' t', finished t' /\ steps (c, tasks) (c', <[ i := t' ]> tasks).
Proof.
  induction p as [out | X op k IH]; intros c tasks i d Hi.
  - exists c, {| device := d; rest := Ret out |}. split.
    + exists out. reflexivity.
    + rewrite list_insert_id by exact Hi. apply steps_refl.
  - destruct (Ledger.world location_ok rank_ok X op (c, d)) as [x [c1 d1]] eqn:Hw.
    assert (Hlt : (i < length tasks)%nat) by (apply lookup_lt_Some in Hi; exact Hi).
    destruct (IH x c1 (<[ i := {| device := d1; rest := k x |} ]> tasks) i d1)
      as (c' & t' & Hfin & Hsteps).
    { apply list_lookup_insert_eq. exact Hlt. }
    exists c', t'. split; [exact Hfin |].
    rewrite list_insert_insert_eq in Hsteps.
    eapply steps_step; [| exact Hsteps].
    apply (step_task location_ok rank_ok c c1 tasks i _ (k x) d1 Hi).
    simpl. rewrite Hw. reflexivity.
Qed.

Lemma finish_all (pending : list Task) :
  forall (finished_tasks : list Task) (c : Chain),
    (forall i t, finished_tasks !! i = Some t -> finished t) ->
    exists cfg, steps (c, (finished_tasks ++ pending)%list) cfg /\ all_finished cfg.
Proof.
  induction pending as [| [d p] pending IH]; intros done c Hdone.
  - exists (c, done). rewrite app_nil_r. split; [apply steps_refl | exact Hdone].
  - destruct (finish_task p c (done ++ {| device := d; rest := p |} :: pending)%list
                (length done) d) as (c' & t' & Hfin & Hsteps).
    { apply list_lookup_middle. reflexivity. }
    rewrite insert_app_r_alt in Hsteps by lia.
    replace (length done - length done)%nat with 0%nat in Hsteps by lia.
    simpl in Hsteps.
    destruct (IH (done ++ [t'])%list c') as (cfg & Hrest & Hall).
    { intros i t Hi. apply lookup_app_Some in Hi.
      destruct Hi as [Hi | [_ Hi]]; [exact (Hdone _ _ Hi) |].
      destruct (i - length done)%nat; simpl in Hi; [| discriminate].
      injection Hi as <-. exact Hfin. }
    exists cfg. split; [| exact Hall].
    eapply steps_trans; [exact Hsteps |].
    rewrite <- app_assoc in Hrest. exact Hrest.
Qed.

Lemma poised_not_finished (c0 : Chain) (t : Task) :
  poised c0 (rest t) -> finished t -> False.
Proof.
  intros Hp [out Hout]. rewrite Hout in Hp. inversion Hp.
Qed.

Lemma claims_finished (t : Task) :
  claims (rest t) -> finished t -> settled_ok t.
Proof.
  intros Hc [out Hout]. rewrite Hout in Hc.
  inversion Hc as [r svc Heq |]. subst.
  exists r, svc. exact Hout.
Qed.

End RaceFacts.

(** C1.  Any number (at least two) of ready callers run [findTreasure] for
    the same treasure at once, against one ledger on which the treasure is
    registered and has no settled discovery.  Whatever the interleaving
    of their requests, when all calls have ended the treasure has a
    settled discovery, exactly one call has resolved, and every other call
    has rejected with "This treasure has already been found by someone
    else!"; and the calls can always be run to their end. *)
Theorem C1_one_settled_discovery_per_treasure :
  forall (location_ok rank_ok : string -> string -> bool)
         (N : string -> float) (treasure : string)
         (c0 : Ledger.Chain) (callers : list Ledger.Caller),
    (2 <= length callers)%nat ->
    treasure ∈ Ledger.registered c0 ->
    treasure ∉ Ledger.settled c0 ->
    (forall who, who ∈ callers ->
                 Ledger.ready location_ok rank_ok N treasure c0 who) ->
    (exists cfg,
        Ledger.steps location_ok rank_ok
          (c0, map (Ledger.start N treasure) callers) cfg /\
        Ledger.all_finished cfg) /\
    (forall cfg,
        Ledger.steps location_ok rank_ok
          (c0, map (Ledger.start N treasure) callers) cfg ->
        Ledger.all_finished cfg ->
        treasure ∈ Ledger.settled (fst cfg) /\
        length (snd cfg) = length callers /\
        exists j winner,
          snd cfg !! j = Some winner /\ Ledger.settled_ok winner /\
          forall i t, i <> j -> snd cfg !! i = Some t ->
                      Ledger.ended_with Sui.already_found t).
Proof.
  intros location_ok rank_ok N treasure c0 callers Hn Hreg Hfree Hready.
  split.
  - destruct (finish_all location_ok rank_ok
                (map (Ledger.start N treasure) callers) [] c0)
      as (cfg & Hsteps & Hall).
    + intros i t Hi. rewrite lookup_nil in Hi. discriminate.
    + exists cfg. split; assumption.
  - intros cfg Hsteps Hall.
    assert (Hinit : Ledger.race_invariant location_ok rank_ok treasure c0
                      (c0, map (Ledger.start N treasure) callers)).
    { split; [apply frame_refl |]. left. split; [exact Hfree |].
      intros i t Hi. cbn [snd] in Hi.
      change (map (Ledger.start N treasure) callers) with
        (Ledger.start N treasure <$> callers) in Hi.
      rewrite list_lookup_fmap in Hi.
      destruct (callers !! i) as [who |] eqn:Hwho; [| discriminate].
      simpl in Hi. injection Hi as <-.
      apply ready_poised. apply Hready.
      apply list_elem_of_lookup. exists i. exact Hwho. }
    pose proof (steps_invariant location_ok rank_ok treasure c0 _ _ Hreg Hinit Hsteps)
      as [Hframe Hinv].
    pose proof (steps_length location_ok rank_ok _ _ Hsteps) as Hlen.
    cbn [snd] in Hlen. rewrite length_map in Hlen.
    destruct Hinv as [[_ Hall_poised] | (Htaken & j & winner & Hj & Hwin & Hothers)].
    + exfalso.
      destruct (snd cfg !! 0%nat) as [t |] eqn:H0.
      * exact (poised_not_finished location_ok rank_ok treasure c0 t
                 (Hall_poised _ _ H0) (Hall _ _ H0)).
      * apply lookup_ge_None in H0. lia.
    + split; [exact Htaken |]. split; [exact Hlen |].
      exists j, winner. split; [exact Hj |].
      split; [exact (claims_finished winner Hwin (Hall _ _ Hj)) |].
      intros i t Hne Hi.
      destruct (Hothers i t Hne Hi) as [Hp | Hlost]; [| exact Hlost].
      exfalso.
      exact (poised_not_finished location_ok rank_ok treasure c0 t Hp (Hall _ _ Hi)).
Qed.

(** * The claims about the wallet service *)

Section SuiClaims.
Import Sui Samples.

Lemma C1_one_settled_discovery_per_treasure_witness :
  exists cfg,
    Ledger.steps lenient lenient
      (open_chain, map (Ledger.start Number_of_decimal "treasure-7") [alice; bob]) cfg /\
    Ledger.all_finished cfg.
Proof.
  apply (C1_one_settled_discovery_per_treasure lenient lenient Number_of_decimal
           "treasure-7" open_chain [alice; bob]).
  - simpl. lia.
  - simpl. set_solver.
  - simpl. set_solver.
  - intros who Hwho.
    apply elem_of_cons in Hwho. destruct Hwho as [-> | Hwho];
      [| apply elem_of_cons in Hwho; destruct Hwho as [-> | Hwho];
         [| apply elem_of_nil in Hwho; contradiction]].
    + exists "0xa11ce", "0xregistry", "0xprofile-a", "1000000000".
      repeat split; try reflexivity; simpl; set_solver.
    + exists "0xb0b", "0xregistry", "0xprofile-b", "70000000".
      repeat split; try reflexivity; simpl; set_solver.
Defined.




(** C8.  Two calls of [findTreasure] that fail with different terminal
    kinds (too far, already claimed, rank too low, invalid treasure,
    insufficient funds) reject with different messages, each the message
    of its kind. *)
Theorem C8_distinct_kinds_distinct_errors :
  forall (N : string -> float) (S1 S2 : Type) (env1 : Env S1) (env2 : Env S2)
         (s1 : S1) (s2 : S2) (svc1 svc2 : Service)
         (treasure1 proof1 treasure2 proof2 : string) (k1 k2 : TerminalKind),
    let out1 := run env1 (findTreasure N treasure1 proof1 svc1) s1 in
    let out2 := run env2 (findTreasure N treasure2 proof2 svc2) s2 in
    failure_kind N (snd out1) = Some k1 ->
    failure_kind N (snd out2) = Some k2 ->
    k1 <> k2 ->
    exists m1 m2,
      fst (fst (fst out1)) = Err m1 /\ fst (fst (fst out2)) = Err m2 /\
      m1 = message_of k1 /\ m2 = message_of k2 /\ m1 <> m2.
Proof.
  intros N S1 S2 env1 env2 s1 s2 svc1 svc2 t1 p1 t2 p2 k1 k2 out1 out2 H1 H2 Hne.
  subst out1 out2.
  destruct (kind_message N env1 s1 svc1 t1 p1 k1 H1) as [svc1' E1].
  destruct (kind_message N env2 s2 svc2 t2 p2 k2 H2) as [svc2' E2].
  exists (message_of k1), (message_of k2).
  rewrite E1, E2. simpl.
  repeat split. apply message_of_injective. exact Hne.
Qed.

Lemma C8_distinct_kinds_distinct_errors_witness :
  exists m1 m2,
    fst (fst (fst (run poor_wallet
                     (findTreasure Number_of_decimal "treasure-7" "proof"
                                   fresh_service) tt))) = Err m1 /\
    fst (fst (fst (run (Ledger.world lenient lenient)
                     (findTreasure Number_of_decimal "treasure-7"
                        (Ledger.caller_proof bob) (Ledger.caller_service bob))
                     (taken_chain, Ledger.caller_device bob)))) = Err m2 /\
    m1 = message_of InsufficientFunds /\ m2 = message_of AlreadyClaimed /\
    m1 <> m2.
Proof.
  apply (C8_distinct_kinds_distinct_errors Number_of_decimal _ _ poor_wallet
           (Ledger.world lenient lenient) tt (taken_chain, Ledger.caller_device bob)
           fresh_service (Ledger.caller_service bob)
           "treasure-7" "proof" "treasure-7" (Ledger.caller_proof bob)
           InsufficientFunds AlreadyClaimed).
  - vm_compute. reflexivity.
  - vm_compute. reflexivity.
  - discriminate.
Defined.

(** Every terminal kind occurs: on the modelled ledger each of the five
    is the kind of some failed call. *)
Lemma every_kind_occurs (k : TerminalKind) :
  exists (location_ok rank_ok : string -> string -> bool)
         (c : Ledger.Chain) (treasure : string),
    failure_kind Number_of_decimal
      (snd (run (Ledger.world location_ok rank_ok)
              (findTreasure Number_of_decimal treasure
                 (Ledger.caller_proof alice) (Ledger.caller_service alice))
              (c, Ledger.caller_device alice))) = Some k.
Proof.
  destruct k.
  - exists (fun _ _ => false), lenient, open_chain, "treasure-7".
    vm_compute. reflexivity.
  - exists lenient, lenient, taken_chain, "treasure-7".
    vm_compute. reflexivity.
  - exists lenient, (fun _ _ => false), open_chain, "treasure-7".
    vm_compute. reflexivity.
  - exists lenient, lenient, open_chain, "treasure-8".
    vm_compute. reflexivity.
  - exists lenient, lenient,
      {| Ledger.coins := {[ "0xa11ce" := "49999999" ]};
         Ledger.objects := Ledger.objects open_chain;
         Ledger.profiles := Ledger.profiles open_chain;
         Ledger.registered := Ledger.registered open_chain;
         Ledger.settled := ∅ |}, "treasure-7".
    vm_compute. reflexivity.
Qed.

End SuiClaims.
(** * Facts about the JSON texts *)

Section JSONFacts.
Import JS.

(* Texts are computed with in the proofs below. *)
#[local] Arguments String.append !_ _ / : simpl nomatch.

Lemma append_assoc (a b c : string) : (a ++ b) ++ c = a ++ (b ++ c).
Proof. induction a as [|x a IH]; simpl; [reflexivity | f_equal; exact IH]. Qed.

Lemma append_empty_r (a : string) : a ++ "" = a.
Proof. induction a as [|x a IH]; simpl; [reflexivity | f_equal; exact IH]. Qed.

Lemma length_append (a b : string) :
  String.length (a ++ b) = (String.length a + String.length b)%nat.
Proof. induction a as [|x a IH]; simpl; [reflexivity | f_equal; exact IH]. Qed.

Lemma concat_one (sep x : string) : String.concat sep [x] = x.
Proof. reflexivity. Qed.

Lemma concat_more (sep x y : string) (l : list string) :
  String.concat sep (x :: y :: l) = x ++ sep ++ String.concat sep (y :: l).
Proof. reflexivity. Qed.

(** ** String literals *)

Ltac each_char c :=
  destruct c as [[] [] [] [] [] [] [] []].

(* The parser at a character that is known. *)
Ltac at_char :=
  repeat match goal with
         | |- context [skip_ws (String (Ascii ?a ?b ?c ?d ?e ?f ?g ?h) ?r)] =>
             change (skip_ws (String (Ascii a b c d e f g h) r))
               with (String (Ascii a b c d e f g h) r)
         end;
  repeat match goal with
         | |- context [Ascii.eqb (Ascii ?a ?b ?c ?d ?e ?f ?g ?h) ?y] =>
             let v := eval vm_compute in (Ascii.eqb (Ascii a b c d e f g h) y) in
             change (Ascii.eqb (Ascii a b c d e f g h) y) with v
         end;
  cbv iota.

Lemma parse_chars_escape_char (c : ascii) (t : string) :
  parse_chars (escape_char c ++ t) = prepend (String c "") (parse_chars t).
Proof. each_char c; reflexivity. Qed.

Lemma parse_chars_escape (s rest : string) :
  parse_chars (escape s ++ String quote rest) = Some (s, rest).
Proof.
  induction s as [|c s IH]; [reflexivity|].
  cbn [escape]. rewrite append_assoc, parse_chars_escape_char, IH. reflexivity.
Qed.

Lemma parse_chars_quoted (s rest : string) :
  exists t, QuoteJSONString s ++ rest = String quote t /\
            parse_chars t = Some (s, rest).
Proof.
  exists (escape s ++ String quote rest). split.
  - unfold QuoteJSONString. cbn. now rewrite append_assoc.
  - apply parse_chars_escape.
Qed.

(** ** Numerals *)

Lemma digit_number_char (c : ascii) :
  is_digit c = true -> is_number_char c = true.
Proof. unfold is_number_char. intros ->. reflexivity. Qed.

Lemma skip_digits_all (r : string) :
  all_number_chars (skip_digits r) = true -> all_number_chars r = true.
Proof.
  induction r as [|c r IH]; [easy|].
  cbn [skip_digits]. destruct (is_digit c) eqn:D; [|easy].
  intros H. cbn [all_number_chars].
  rewrite (digit_number_char _ D), (IH H). reflexivity.
Qed.

Lemma digits1_all (s r : string) :
  digits1 s = Some r -> all_number_chars r = true -> all_number_chars s = true.
Proof.
  destruct s as [|c s]; [discriminate|].
  cbn [digits1]. destruct (is_digit c) eqn:D; [|discriminate].
  intros [= <-] H. cbn [all_number_chars].
  rewrite (digit_number_char _ D), (skip_digits_all _ H). reflexivity.
Qed.

Lemma exponent_ok_all (s : string) :
  exponent_ok s = true -> all_number_chars s = true.
Proof.
  destruct s as [|c r]; [easy|]. cbn [exponent_ok].
  destruct (Ascii.eqb c "e" || Ascii.eqb c "E") eqn:E; [|discriminate].
  assert (is_number_char c = true) as Hc.
  { unfold is_number_char.
    destruct (Ascii.eqb c "e"), (Ascii.eqb c "E"); try discriminate;
      rewrite ?orb_true_r; reflexivity. }
  cbn [all_number_chars]. rewrite Hc. cbn [andb].
  destruct r as [|sg r1]; [discriminate|].
  destruct (Ascii.eqb sg "+" || Ascii.eqb sg "-") eqn:Sg.
  - destruct (digits1 r1) as [[|]|] eqn:D; try discriminate. intros _.
    cbn [all_number_chars].
    assert (is_number_char sg = true) as ->.
    { unfold is_number_char.
      destruct (Ascii.eqb sg "+"), (Ascii.eqb sg "-"); try discriminate;
        rewrite ?orb_true_r; reflexivity. }
    cbn [andb]. now apply (digits1_all _ _ D).
  - destruct (digits1 (String sg r1)) as [[|]|] eqn:D; try discriminate.
    intros _. now apply (digits1_all _ _ D).
Qed.

Lemma fraction_ok_all (s : string) :
  fraction_ok s = true -> all_number_chars s = true.
Proof.
  destruct s as [|c r]; [easy|]. cbn [fraction_ok].
  destruct (Ascii.eqb c ".") eqn:E.
  - destruct (digits1 r) as [r'|] eqn:D; [|discriminate]. intros H.
    cbn [all_number_chars].
    assert (is_number_char c = true) as ->.
    { unfold is_number_char. rewrite E, ?orb_true_r. reflexivity. }
    cbn [andb]. apply (digits1_all _ _ D). now apply exponent_ok_all.
  - apply exponent_ok_all.
Qed.

Lemma unsigned_number_all (t : string) :
  match t with
  | EmptyString => false
  | String c r =>
      if Ascii.eqb c "0" then fraction_ok r
      else if is_digit c then fraction_ok (skip_digits r)
      else false
  end = true ->
  all_number_chars t = true /\
  exists c r, t = String c r /\ is_digit c = true.
Proof.
  destruct t as [|c r]; [discriminate|].
  destruct (Ascii.eqb c "0") eqn:Z0.
  - apply Ascii.eqb_eq in Z0. subst c. intros H. split.
    + cbn [all_number_chars]. rewrite (fraction_ok_all _ H). reflexivity.
    + now exists "0"%char, r.
  - destruct (is_digit c) eqn:D; [|discriminate]. intros H. split.
    + cbn [all_number_chars].
      rewrite (digit_number_char _ D), (skip_digits_all _ (fraction_ok_all _ H)).
      reflexivity.
    + now exists c, r.
Qed.

Lemma json_number_all (t : string) :
  json_number t = true -> all_number_chars t = true.
Proof.
  unfold json_number. destruct t as [|c r]; [discriminate|].
  destruct (Ascii.eqb c "-") eqn:M.
  - intros H. apply unsigned_number_all in H as [H _].
    cbn [all_number_chars]. rewrite H.
    unfold is_number_char. rewrite M, ?orb_true_r. reflexivity.
  - intros H. now apply (unsigned_number_all (String c r)) in H as [H _].
Qed.

Lemma json_number_head (t : string) :
  json_number t = true ->
  exists c r, t = String c r /\ (is_digit c || Ascii.eqb c "-") = true.
Proof.
  unfold json_number. destruct t as [|c r]; [discriminate|].
  destruct (Ascii.eqb c "-") eqn:M.
  - intros _. exists c, r. now rewrite M, orb_true_r.
  - intros H.
    apply (unsigned_number_all (String c r)) in H as [_ (c' & r' & [= -> ->] & D)].
    exists c', r'. now rewrite D.
Qed.

Lemma span_number_app (t rest : string) :
  all_number_chars t = true -> delimited rest ->
  span_number (t ++ rest) = (t, rest).
Proof.
  intros Ht Hrest. induction t as [|c t IH].
  - destruct rest as [|d rest]; [reflexivity|].
    cbn in *. now rewrite Hrest.
  - cbn [all_number_chars] in Ht. apply andb_true_iff in Ht as [Hc Ht].
    cbn. rewrite Hc, (IH Ht). reflexivity.
Qed.

(** ** Values *)

Section Values.
Variable rt : Runtime.

Lemma value_start_not_ws (c : ascii) :
  value_start c = true ->
  is_ws c = false /\ Ascii.eqb c "]" = false /\ Ascii.eqb c "}" = false /\
  Ascii.eqb c "," = false.
Proof. each_char c; intros H; try discriminate H; repeat split. Qed.

Lemma parse_value_number (fuel : nat) (c : ascii) (s : string) :
  (is_digit c || Ascii.eqb c "-") = true ->
  parse_value rt (S fuel) (String c s)
  = (let tr := span_number (String c s) in
     if json_number (fst tr)
     then Some (Number (Number_of_string rt (fst tr)), snd tr)
     else None).
Proof. each_char c; intros H; try discriminate H; reflexivity. Qed.

Lemma plain_text (v : Value) :
  plain rt v -> SerializeJSONProperty rt v = Some (text_of rt v).
Proof.
  unfold text_of. destruct (SerializeJSONProperty rt v) eqn:E; [reflexivity|].
  destruct v as [| |[]| | | |]; try discriminate E. contradiction.
Qed.

Lemma text_head (v : Value) :
  plain rt v ->
  exists c r, text_of rt v = String c r /\ value_start c = true.
Proof.
  unfold text_of. destruct v as [| |[]|x|s|items|members]; cbn;
    try (intros _; do 2 eexists; split; reflexivity).
  intros (Hfin & Hnum & _). rewrite Hfin.
  destruct (json_number_head _ Hnum) as (c & r & -> & Hc).
  exists c, r. split; [reflexivity|].
  unfold value_start. apply orb_true_iff in Hc as [-> | ->];
    rewrite ?orb_true_r; reflexivity.
Qed.

Lemma plain_array (items : list Value) :
  plain rt (Array items) <-> Forall (plain rt) items.
Proof.
  cbn. induction items as [|v items IH]; [easy|].
  rewrite Forall_cons, IH. reflexivity.
Qed.

Lemma plain_object (members : list (string * Value)) :
  plain rt (Object members) <->
  NoDup (map fst members) /\ Forall (fun m => plain rt (snd m)) members.
Proof.
  cbn. apply and_iff_compat_l.
  induction members as [|m members IH]; [easy|].
  rewrite Forall_cons, IH. reflexivity.
Qed.

Lemma text_of_array (items : list Value) :
  text_of rt (Array items)
  = "[" ++ String.concat "," (map (text_of rt) items) ++ "]".
Proof. reflexivity. Qed.

Lemma text_of_object (members : list (string * Value)) :
  Forall (fun m => plain rt (snd m)) members ->
  text_of rt (Object members)
  = "{" ++ String.concat "," (map (member_text rt) members) ++ "}".
Proof.
  intros H. unfold text_of. cbn [SerializeJSONProperty]. do 3 f_equal.
  induction H as [|m members Hm _ IH]; [reflexivity|].
  cbn [omap map list_omap]. rewrite (plain_text _ Hm), IH. reflexivity.
Qed.

Lemma set_member_fresh (acc : list (string * Value)) (k : string) (v : Value) :
  k ∉ map fst acc -> set_member acc k v = (acc ++ [(k, v)])%list.
Proof.
  induction acc as [|[k' x] acc IH]; [reflexivity|].
  cbn. rewrite not_elem_of_cons. intros [Hne Hk].
  destruct (String.eqb k' k) eqn:E.
  - apply String.eqb_eq in E. congruence.
  - now rewrite (IH Hk).
Qed.

(** The equations of the parser. *)

Lemma parse_value_string (fuel : nat) (t : string) :
  parse_value rt (S fuel) (String quote t)
  = match parse_chars t with
    | Some (str, rest) => Some (Str str, rest)
    | None => None
    end.
Proof. reflexivity. Qed.

Lemma parse_value_array (fuel : nat) (s : string) :
  parse_value rt (S fuel) (String "[" s)
  = match skip_ws s with
    | String c r => if Ascii.eqb c "]" then Some (Array [], r)
                    else parse_elements rt fuel [] s
    | EmptyString => None
    end.
Proof. reflexivity. Qed.

Lemma parse_value_object (fuel : nat) (s : string) :
  parse_value rt (S fuel) (String "{" s)
  = match skip_ws s with
    | String c r => if Ascii.eqb c "}" then Some (Object [], r)
                    else parse_members rt fuel [] s
    | EmptyString => None
    end.
Proof. reflexivity. Qed.

Lemma parse_elements_eq (fuel : nat) (acc : list Value) (s : string) :
  parse_elements rt (S fuel) acc s
  = match parse_value rt fuel s with
    | None => None
    | Some (v, r) =>
        match skip_ws r with
        | EmptyString => None
        | String c r' =>
            if Ascii.eqb c "," then parse_elements rt fuel (acc ++ [v])%list r'
            else if Ascii.eqb c "]" then Some (Array (acc ++ [v])%list, r')
            else None
        end
    end.
Proof. reflexivity. Qed.

Lemma parse_members_eq (fuel : nat) (acc : list (string * Value)) (t : string) :
  parse_members rt (S fuel) acc (String quote t)
  = match parse_chars t with
    | None => None
    | Some (key, r1) =>
        match skip_ws r1 with
        | EmptyString => None
        | String c1 r2 =>
            if Ascii.eqb c1 ":" then
              match parse_value rt fuel r2 with
              | None => None
              | Some (v, r3) =>
                  match skip_ws r3 with
                  | EmptyString => None
                  | String c3 r4 =>
                      if Ascii.eqb c3 "," then
                        parse_members rt fuel (set_member acc key v) r4
                      else if Ascii.eqb c3 "}" then
                        Some (Object (set_member acc key v), r4)
                      else None
                  end
              end
            else None
        end
    end.
Proof. reflexivity. Qed.

Lemma parse_elements_text (n : nat) :
  reads rt n ->
  forall (items : list Value) (fuel : nat) (acc : list Value) (rest : string),
    (fuel <= S n)%nat -> items <> [] -> Forall (plain rt) items ->
    (String.length (String.concat "," (map (text_of rt) items)) + 1 < fuel)%nat ->
    parse_elements rt fuel acc
      (String.concat "," (map (text_of rt) items) ++ String "]" rest)
    = Some (Array (acc ++ items)%list, rest).
Proof.
  intros IH. induction items as [|v items IHi]; [congruence|].
  intros fuel acc rest Hfuel _ Hplain Hlen.
  destruct fuel as [|f]; [lia|].
  apply Forall_cons in Hplain as [Hv Hitems].
  destruct items as [|w items].
  - cbn [map] in *. rewrite concat_one in *.
    rewrite parse_elements_eq, IH; try assumption; try lia; [|reflexivity].
    at_char. reflexivity.
  - cbn [map] in Hlen |- *. rewrite concat_more in Hlen |- *.
    change (text_of rt w :: map (text_of rt) items)
      with (map (text_of rt) (w :: items)) in *.
    remember (String.concat "," (map (text_of rt) (w :: items))) as body.
    rewrite !length_append in Hlen. cbn [String.length] in Hlen.
    rewrite append_assoc. cbn [String.append].
    rewrite parse_elements_eq, IH; try assumption; try lia; [|reflexivity].
    at_char. subst body. rewrite IHi; try assumption; try lia; [|discriminate].
    now rewrite <- app_assoc.
Qed.

Lemma parse_members_text (n : nat) :
  reads rt n ->
  forall (members : list (string * Value)) (fuel : nat)
         (acc : list (string * Value)) (rest : string),
    (fuel <= S n)%nat -> members <> [] ->
    Forall (fun m => plain rt (snd m)) members ->
    NoDup (map fst acc ++ map fst members) ->
    (String.length (String.concat "," (map (member_text rt) members)) + 1 < fuel)%nat ->
    parse_members rt fuel acc
      (String.concat "," (map (member_text rt) members) ++ String "}" rest)
    = Some (Object (acc ++ members)%list, rest).
Proof.
  intros IH. induction members as [|[k v] members IHm]; [congruence|].
  intros fuel acc rest Hfuel _ Hplain Hdup Hlen.
  destruct fuel as [|f]; [lia|].
  apply Forall_cons in Hplain as [Hv Hmembers]. cbn [snd] in Hv.
  assert (k ∉ map fst acc) as Hfresh.
  { apply NoDup_app in Hdup as (_ & Hdup & _). intros Hin.
    apply (Hdup _ Hin). cbn. left. }
  assert (NoDup (map fst (acc ++ [(k, v)]) ++ map fst members)) as Hdup'.
  { rewrite map_app, <- app_assoc. exact Hdup. }
  destruct members as [|m members].
  - cbn [map] in *. rewrite concat_one in *.
    unfold member_text in *. cbn [fst snd] in *.
    rewrite !length_append in Hlen. cbn [String.length] in Hlen.
    rewrite !append_assoc. cbn [String.append].
    destruct (parse_chars_quoted k (String ":" (text_of rt v ++ String "}" rest)))
      as (t & -> & Ht).
    rewrite parse_members_eq, Ht. at_char.
    rewrite IH; try assumption; try lia; [|reflexivity].
    at_char. rewrite (set_member_fresh _ _ _ Hfresh). reflexivity.
  - cbn [map] in Hlen |- *. rewrite concat_more in Hlen |- *.
    change (member_text rt m :: map (member_text rt) members)
      with (map (member_text rt) (m :: members)) in *.
    remember (String.concat "," (map (member_text rt) (m :: members))) as body.
    unfold member_text at 1. unfold member_text at 1 in Hlen. cbn [fst snd] in *.
    rewrite !length_append in Hlen. cbn [String.length] in Hlen.
    rewrite ?length_append in Hlen. cbn [String.length] in Hlen.
    rewrite !append_assoc. cbn [String.append]. rewrite ?append_assoc.
    cbn [String.append].
    destruct (parse_chars_quoted k
                (String ":" (text_of rt v ++ String "," (body ++ String "}" rest))))
      as (t & -> & Ht).
    rewrite parse_members_eq, Ht. at_char.
    rewrite IH; try assumption; try lia; [|reflexivity].
    at_char. rewrite (set_member_fresh _ _ _ Hfresh).
    subst body. rewrite IHm; try assumption; try lia; [|discriminate].
    now rewrite <- app_assoc.
Qed.

Lemma reads_all (n : nat) : reads rt n.
Proof.
  induction n as [|n IH]; intros fuel v rest Hfuel Hplain Hlen Hrest; [lia|].
  destruct fuel as [|f]; [lia|].
  destruct v as [| |[]|x|s|items|members].
  - destruct Hplain.
  - reflexivity.
  - reflexivity.
  - reflexivity.
  - destruct Hplain as (Hfin & Hnum & Hback).
    unfold text_of in *. cbn [SerializeJSONProperty] in *. rewrite Hfin in *.
    remember (Number_toString rt x) as t.
    pose proof (span_number_app t rest (json_number_all _ Hnum) Hrest) as Hspan.
    destruct (json_number_head _ Hnum) as (c & r & -> & Hc).
    change (String c r ++ rest) with (String c (r ++ rest)) in *.
    rewrite (parse_value_number f c (r ++ rest) Hc). cbv zeta.
    rewrite Hspan. cbn [fst snd]. rewrite Hnum, Hback. reflexivity.
  - destruct (parse_chars_quoted s rest) as (t & E & Ht).
    change (text_of rt (Str s)) with (QuoteJSONString s).
    rewrite E, parse_value_string, Ht. reflexivity.
  - apply plain_array in Hplain. rewrite text_of_array in *.
    rewrite !length_append in Hlen. cbn [String.length] in Hlen.
    rewrite !append_assoc. cbn [String.append].
    rewrite parse_value_array.
    destruct items as [|v items]; [reflexivity|].
    pose proof (Forall_inv Hplain) as Hv.
    destruct (text_head v Hv) as (c & r & E & Hc).
    apply value_start_not_ws in Hc as (Hws & Hclose & _).
    set (text := String.concat "," (map (text_of rt) (v :: items))
                 ++ String "]" rest).
    assert (exists tail, text = String c tail) as [tail Htext].
    { subst text. destruct items as [|w items]; cbn [map].
      - rewrite concat_one, E. now eexists.
      - rewrite concat_more, E. now eexists. }
    assert (skip_ws text = String c tail) as ->.
    { rewrite Htext. cbn [skip_ws]. now rewrite Hws. }
    rewrite Hclose. subst text.
    apply (parse_elements_text n IH (v :: items) f [] rest);
      try assumption; try lia; discriminate.
  - apply plain_object in Hplain as [Hdup Hplain].
    rewrite (text_of_object _ Hplain) in *.
    rewrite !length_append in Hlen. cbn [String.length] in Hlen.
    rewrite !append_assoc. cbn [String.append].
    rewrite parse_value_object.
    destruct members as [|[k v] members]; [reflexivity|].
    set (text := String.concat "," (map (member_text rt) ((k, v) :: members))
                 ++ String "}" rest).
    assert (exists tail, text = String quote tail) as [tail Htext].
    { subst text. destruct members as [|m members]; cbn [map].
      - rewrite concat_one. now eexists.
      - rewrite concat_more. now eexists. }
    assert (skip_ws text = String quote tail) as -> by now rewrite Htext.
    change (Ascii.eqb quote "}") with false. cbv iota. subst text.
    apply (parse_members_text n IH ((k, v) :: members) f [] rest);
      try assumption; try lia; discriminate.
Qed.

(** [JSON.parse] reads the text of a plain value back. *)
Lemma JSON_parse_text (v : Value) :
  plain rt v -> JSON_parse rt (text_of rt v) = Return v.
Proof.
  intros Hv. unfold JSON_parse.
  rewrite <- (append_empty_r (text_of rt v)) at 2.
  rewrite (reads_all (S (String.length (text_of rt v)))); try assumption;
    try lia; reflexivity.
Qed.

End Values.

End JSONFacts.

Section Fuel.
Import JS.
Variable rt : Runtime.

#[local] Arguments String.append !_ _ / : simpl nomatch.

Lemma skip_ws_length (s : string) :
  (String.length (skip_ws s) <= String.length s)%nat.
Proof.
  induction s as [|c s IH]; cbn [skip_ws]; [lia|].
  destruct (is_ws c); cbn [String.length] in *; lia.
Qed.

Lemma skip_ws_cons (s : string) (c : ascii) (r : string) :
  skip_ws s = String c r -> (String.length r < String.length s)%nat.
Proof.
  intros H. pose proof (skip_ws_length s) as Hs. rewrite H in Hs.
  cbn [String.length] in Hs. lia.
Qed.

Lemma prepend_some (p : string) (r : option (string * string))
  (str rest : string) :
  prepend p r = Some (str, rest) -> exists str', r = Some (str', rest).
Proof.
  destruct r as [[str' rest']|]; [|discriminate].
  cbn. intros [= _ ->]. now exists str'.
Qed.

Lemma parse_chars_length (n : nat) :
  forall (s str rest : string),
    (String.length s <= n)%nat ->
    parse_chars s = Some (str, rest) ->
    (String.length rest < String.length s)%nat.
Proof.
  induction n as [|n IH]; intros s str rest Hn H.
  - destruct s; [discriminate H | cbn in Hn; lia].
  - destruct s as [|c r]; [discriminate H|].
    cbn [parse_chars] in H. cbn [String.length] in *.
    assert (forall t x, (String.length t <= n)%nat ->
                        prepend x (parse_chars t) = Some (str, rest) ->
                        (String.length rest < String.length t)%nat) as Hrec.
    { intros t x Ht Hp. apply prepend_some in Hp as [str' Hp].
      exact (IH _ _ _ Ht Hp). }
    repeat match type of H with
           | prepend _ (parse_chars ?t) = _ =>
               apply Hrec in H; cbn [String.length] in *; lia
           | Some _ = Some _ => injection H as <- <-; lia
           | None = _ => discriminate H
           | context [match ?x with _ => _ end] =>
               destruct x eqn:?; cbn [String.length] in *
           end.
Qed.

Lemma span_number_split (s : string) :
  s = fst (span_number s) ++ snd (span_number s).
Proof.
  induction s as [|c s IH]; [reflexivity|].
  cbn [span_number]. destruct (is_number_char c); cbn; [|reflexivity].
  now rewrite <- IH.
Qed.

Lemma span_number_length (s : string) :
  json_number (fst (span_number s)) = true ->
  (String.length (snd (span_number s)) < String.length s)%nat.
Proof.
  intros H. rewrite (span_number_split s) at 2. rewrite length_append.
  destruct (fst (span_number s)); [discriminate H|]. cbn. lia.
Qed.

Lemma drop_chars_length (n : nat) (s : string) :
  (String.length (drop_chars n s) <= String.length s)%nat.
Proof.
  revert s. induction n as [|n IH]; intros s; [cbn; lia|].
  destruct s as [|c s]; cbn; [lia|]. specialize (IH s). lia.
Qed.

Lemma some_pair {A B : Type} (a a' : A) (b b' : B) :
  Some (a, b) = Some (a', b') -> a' = a /\ b' = b.
Proof. intros [= -> ->]. now split. Qed.

Ltac learn P :=
  let T := type of P in
  lazymatch goal with
  | _ : T |- _ => fail
  | _ => pose proof P
  end.

Ltac break H :=
  repeat match type of H with
         | context [match ?x with _ => _ end] => destruct x eqn:?; try discriminate H
         end.

Ltac parser_step H :=
  cbn -[skip_ws parse_chars span_number json_number drop_chars startsWith
        set_member Ascii.eqb] in H |- *.

Lemma length_cons (c : ascii) (s : string) :
  String.length (String c s) = S (String.length s).
Proof. reflexivity. Qed.

Ltac lengths :=
  repeat match goal with
         | |- context [drop_chars (S ?n) (String ?c ?s)] =>
             change (drop_chars (S n) (String c s)) with (drop_chars n s)
         end;
  repeat match goal with
         | E : skip_ws ?s = String _ _ |- _ => learn (skip_ws_cons _ _ _ E)
         | E : parse_chars ?s = Some _ |- _ =>
             learn (parse_chars_length _ _ _ _ (Nat.le_refl _) E)
         | E : json_number (fst (span_number ?s)) = true |- _ =>
             learn (span_number_length _ E)
         | |- context [drop_chars ?n ?s] => learn (drop_chars_length n s)
         end;
  rewrite ?length_cons in *.

(** What is read is shorter than what it is read from. *)
Lemma parser_consumes (fuel : nat) :
  (forall s v rest,
      parse_value rt fuel s = Some (v, rest) ->
      (String.length rest < String.length s)%nat) /\
  (forall acc s v rest,
      parse_members rt fuel acc s = Some (v, rest) ->
      (String.length rest < String.length s)%nat) /\
  (forall acc s v rest,
      parse_elements rt fuel acc s = Some (v, rest) ->
      (String.length rest < String.length s)%nat).
Proof.
  induction fuel as [|f (IHv & IHm & IHe)]; [repeat split; discriminate|].
  repeat split.
  - intros s v rest H. parser_step H. break H;
      repeat match goal with
             | E : parse_members rt f _ _ = Some _ |- _ => apply IHm in E
             | E : parse_elements rt f _ _ = Some _ |- _ => apply IHe in E
             | E : Some _ = Some _ |- _ => apply some_pair in E as [-> ->]
             end;
      lengths; lia.
  - intros acc s v rest H. parser_step H. break H;
      repeat match goal with
             | E : parse_members rt f _ _ = Some _ |- _ => apply IHm in E
             | E : parse_value rt f _ = Some _ |- _ => apply IHv in E
             | E : Some _ = Some _ |- _ => apply some_pair in E as [-> ->]
             end;
      lengths; lia.
  - intros acc s v rest H. parser_step H. break H;
      repeat match goal with
             | E : parse_elements rt f _ _ = Some _ |- _ => apply IHe in E
             | E : parse_value rt f _ = Some _ |- _ => apply IHv in E
             | E : Some _ = Some _ |- _ => apply some_pair in E as [-> ->]
             end;
      lengths; lia.
Qed.

Ltac consumed f :=
  repeat match goal with
         | E : parse_value rt f _ = Some _ |- _ =>
             learn (proj1 (parser_consumes f) _ _ _ E)
         | E : parse_members rt f _ _ = Some _ |- _ =>
             learn (proj1 (proj2 (parser_consumes f)) _ _ _ _ E)
         | E : parse_elements rt f _ _ = Some _ |- _ =>
             learn (proj2 (proj2 (parser_consumes f)) _ _ _ _ E)
         end.

(** What is read with some fuel is read with any fuel above the number
    of characters that are read. *)
Lemma parser_fuel (fuel : nat) :
  (forall s v rest,
      parse_value rt fuel s = Some (v, rest) ->
      forall fuel', (String.length s - String.length rest < fuel')%nat ->
                    parse_value rt fuel' s = Some (v, rest)) /\
  (forall acc s v rest,
      parse_members rt fuel acc s = Some (v, rest) ->
      forall fuel', (String.length s - String.length rest < fuel')%nat ->
                    parse_members rt fuel' acc s = Some (v, rest)) /\
  (forall acc s v rest,
      parse_elements rt fuel acc s = Some (v, rest) ->
      forall fuel', (String.length s - String.length rest < fuel')%nat ->
                    parse_elements rt fuel' acc s = Some (v, rest)).
Proof.
  induction fuel as [|f (IHv & IHm & IHe)]; [repeat split; discriminate|].
  assert (forall s v rest f2,
             parse_value rt f s = Some (v, rest) ->
             (String.length s - String.length rest < f2)%nat ->
             parse_value rt f2 s = Some (v, rest)) as Hv by eauto.
  assert (forall acc s v rest f2,
             parse_members rt f acc s = Some (v, rest) ->
             (String.length s - String.length rest < f2)%nat ->
             parse_members rt f2 acc s = Some (v, rest)) as Hm by eauto.
  assert (forall acc s v rest f2,
             parse_elements rt f acc s = Some (v, rest) ->
             (String.length s - String.length rest < f2)%nat ->
             parse_elements rt f2 acc s = Some (v, rest)) as He by eauto.
  clear IHv IHm IHe.
  repeat split.
  - intros s v rest H fuel' Hfuel'.
    pose proof (proj1 (parser_consumes (S f)) _ _ _ H) as Hlt.
    destruct fuel' as [|f']; [lia|].
    parser_step H. break H; cbv iota beta; try exact H.
    + apply (Hm _ _ _ _ _ H). consumed f. lengths. lia.
    + apply (He _ _ _ _ _ H). consumed f. lengths. lia.
  - intros acc s v rest H fuel' Hfuel'.
    pose proof (proj1 (proj2 (parser_consumes (S f))) _ _ _ _ H) as Hlt.
    destruct fuel' as [|f']; [lia|].
    parser_step H. break H; cbv iota beta; try apply some_pair in H as [-> ->];
      consumed f; lengths;
      match goal with
      | E : parse_value rt f ?s = Some _ |- context [parse_value rt f' ?s] =>
          rewrite (Hv _ _ _ f' E) by lia
      end;
      repeat match goal with
             | E : ?x = _ |- context [match ?x with _ => _ end] => rewrite E
             end;
      cbv iota beta; try reflexivity.
    apply (Hm _ _ _ _ _ H). lia.
  - intros acc s v rest H fuel' Hfuel'.
    pose proof (proj2 (proj2 (parser_consumes (S f))) _ _ _ _ H) as Hlt.
    destruct fuel' as [|f']; [lia|].
    parser_step H. break H; cbv iota beta; try apply some_pair in H as [-> ->];
      consumed f; lengths;
      match goal with
      | E : parse_value rt f ?s = Some _ |- context [parse_value rt f' ?s] =>
          rewrite (Hv _ _ _ f' E) by lia
      end;
      repeat match goal with
             | E : ?x = _ |- context [match ?x with _ => _ end] => rewrite E
             end;
      cbv iota beta; try reflexivity.
    apply (He _ _ _ _ _ H). lia.
Qed.

(** The fuel of [JSON_parse] is enough for every text: more fuel reads
    the same value, or none either. *)
Lemma JSON_parse_fuel (text : string) (fuel : nat) :
  (String.length text < fuel)%nat ->
  parse_value rt fuel text = parse_value rt (S (String.length text)) text.
Proof.
  intros Hfuel.
  destruct (parse_value rt fuel text) as [[v rest]|] eqn:E.
  - symmetry. apply (proj1 (parser_fuel fuel) _ _ _ E). lia.
  - destruct (parse_value rt (S (String.length text)) text) as [[v rest]|] eqn:E';
      [|reflexivity].
    rewrite (proj1 (parser_fuel _) _ _ _ E' fuel) in E by lia. discriminate E.
Qed.

End Fuel.
(** * The payload decoders *)

Section DecoderFacts.
Import JS NFC.

Lemma first_decoded_least (pf : Platform) (payload : list Z) (s : string)
  (n a k : nat) :
  (a <= k < a + n)%nat ->
  decode_from pf k payload = Some s ->
  (forall j, (a <= j < k)%nat -> decode_from pf j payload = None) ->
  first_decoded pf (seq a n) payload = Some s.
Proof.
  revert a. induction n as [|n IH]; intros a Hk Hs Hbefore; [lia|].
  cbn [seq first_decoded].
  destruct (Nat.eq_dec a k) as [->|Hne].
  - now rewrite Hs.
  - rewrite (Hbefore a) by lia. apply IH; [lia | assumption |].
    intros j Hj. apply Hbefore. lia.
Qed.

Lemma first_decoded_none (pf : Platform) (payload : list Z) (n a : nat) :
  (forall j, (a <= j < a + n)%nat -> decode_from pf j payload = None) ->
  first_decoded pf (seq a n) payload = None.
Proof.
  revert a. induction n as [|n IH]; intros a Hnone; [reflexivity|].
  cbn [seq first_decoded]. rewrite (Hnone a) by lia.
  apply IH. intros j Hj. apply Hnone. lia.
Qed.

Lemma chooses_decoded (pf : Platform) (now : float) (tag : Tag)
  (record : NdefRecord) (others : list NdefRecord) (bytes : list Z)
  (choice : result string) :
  ndefMessage tag = Some (record :: others) ->
  payload record = Some bytes ->
  decode_payload pf bytes = choice ->
  chooses pf now tag choice.
Proof.
  intros Hmessage Hpayload Hchoice.
  unfold chooses, NFCService.processNFCTag, AlternativeNFCService.processNFCTag,
    process_tag.
  rewrite Hmessage, Hpayload, Hchoice. destruct choice; split; reflexivity.
Qed.

Lemma lookup_set_member_other (members : list (string * Value))
  (key other : string) (v : Value) :
  key <> other ->
  lookup_member key (set_member members other v) = lookup_member key members.
Proof.
  intros Hne. induction members as [|[k x] members IH]; cbn.
  - destruct (String.eqb other key) eqn:E; [|reflexivity].
    apply String.eqb_eq in E. congruence.
  - destruct (String.eqb k other) eqn:E; cbn.
    + apply String.eqb_eq in E. subst k.
      destruct (String.eqb other key) eqn:E'; [|reflexivity].
      apply String.eqb_eq in E'. congruence.
    + now rewrite IH.
Qed.

Lemma is_string_eq (v : Value) (s : string) :
  is_string v s = true <-> v = Str s.
Proof.
  destruct v; cbn; try (split; [discriminate | discriminate]).
  rewrite String.eqb_eq. split; congruence.
Qed.

Lemma value_of_plain (rt : Runtime) (d : TreasureNFCData) :
  Forall (number_survives rt) (numbers d) -> plain rt (value_of d).
Proof.
  unfold numbers. intros H.
  apply Forall_cons in H as [H1 H]. apply Forall_cons in H as [H2 H].
  apply Forall_cons in H as [H3 H]. apply Forall_cons in H as [H4 _].
  unfold value_of.
  destruct (imageUrl d), (signature d); cbn -[number_survives];
    (split; [|tauto]);
    repeat (apply NoDup_cons; split; [set_solver|]); apply NoDup_nil_2.
Qed.

Lemma read_back_plain (rt : Runtime) (d : TreasureNFCData) :
  Forall (fun x => PrimFloat.is_finite x = true -> number_survives rt x)
         (numbers d) ->
  plain rt (read_back d).
Proof.
  unfold numbers. intros H.
  apply Forall_cons in H as [H1 H]. apply Forall_cons in H as [H2 H].
  apply Forall_cons in H as [H3 H]. apply Forall_cons in H as [H4 _].
  assert (forall x, (PrimFloat.is_finite x = true -> number_survives rt x) ->
                    plain rt (through_json x)) as Hnumber.
  { intros x Hx. unfold through_json.
    destruct (PrimFloat.is_finite x); [apply Hx; reflexivity | exact I]. }
  apply Hnumber in H1, H2, H3, H4.
  unfold read_back.
  destruct (imageUrl d), (signature d); cbn -[number_survives through_json];
    (split; [|tauto]);
    repeat (apply NoDup_cons; split; [set_solver|]); apply NoDup_nil_2.
Qed.

Lemma through_json_text (rt : Runtime) (x : float) :
  SerializeJSONProperty rt (through_json x) = SerializeJSONProperty rt (Number x).
Proof.
  unfold through_json.
  destruct (PrimFloat.is_finite x) eqn:E; cbn [SerializeJSONProperty];
    rewrite ?E; reflexivity.
Qed.

(** The text of a [TreasureNFCData] is the text of what is read back. *)
Lemma read_back_text (rt : Runtime) (d : TreasureNFCData) :
  SerializeJSONProperty rt (value_of d) = SerializeJSONProperty rt (read_back d).
Proof.
  unfold value_of, read_back.
  destruct (imageUrl d), (signature d);
    cbn [SerializeJSONProperty optional app omap list_omap snd fst];
    rewrite !through_json_text; reflexivity.
Qed.

Lemma not_finite (x : float) :
  PrimFloat.is_finite x = false <->
  PrimFloat.is_nan x = true \/ PrimFloat.is_infinity x = true.
Proof.
  unfold PrimFloat.is_finite. rewrite negb_false_iff, orb_true_iff. tauto.
Qed.

End DecoderFacts.

Section DecoderClaims.
Import JS NFC Samples.

(** C3, as the specification has it, does not hold.  A tag written with
    a three-byte header whose status byte announces a language code of
    five bytes: the standard decoding returns a text that is not JSON,
    the text from the fourth byte on is the payload and wins by the
    order of the specification, and both services fail with
    "Unrecognized payload format" instead of falling through. *)
Lemma C3_unparseable_standard_decoding_is_final :
  let bytes := ([5; 101; 110] ++ bytes_of_string tag_text)%list in
  let standard := string_of_bytes (drop 6 bytes) in
  Ndef_text_decodePayload sample_platform (Uint8Array bytes) = Return standard /\
  JSON_parse sample_runtime standard
  = Throw (SyntaxError "JSON Parse error") /\
  TextDecoder_decode sample_platform (Uint8Array (drop 3 bytes)) = Return tag_text /\
  Spec.winning_text sample_platform bytes = Some tag_text /\
  NFCService.parseTreasureFromPayload sample_platform 0 tag_text = Ok tag_treasure /\
  NFCService.processNFCTag sample_platform 0 long_language_tag
  = Err "Unrecognized payload format" /\
  AlternativeNFCService.processNFCTag sample_platform 0 long_language_tag
  = Err "Unrecognized payload format".
Proof. vm_compute. repeat split; reflexivity. Qed.

(** When the standard decoding throws, the loop starts with no skip and
    takes the whole payload of a text record, header included, as soon
    as it holds a brace: the skip of three bytes is never reached. *)
Lemma fallback_stops_at_the_first_brace :
  chooses no_ndef_library 0 text_record_tag
    (Ok (string_of_bytes ([2; 101; 110] ++ bytes_of_string tag_text)%list)) /\
  NFCService.processNFCTag no_ndef_library 0 text_record_tag
  = Err "Failed to parse treasure format: SyntaxError: JSON Parse error".
Proof. vm_compute. repeat split; reflexivity. Qed.

(** C3, amended.  For a tag whose first record has a payload, both
    services decode the payload as follows.  When the standard
    text-record decoding returns a text, that text is the one that is
    parsed, whatever it holds.  Only when the standard decoding throws
    are the raw decodings tried, skipping 0, 1, 2, 3, 4 and 5 bytes in
    that order: the first text that holds "treasure_name" or an opening
    brace is the one that is parsed, and when there is none the services
    fail with "Failed to decode NFC payload".  A failure to parse the
    chosen text is the failure of the decoder. *)
Theorem C3_decoding_order :
  forall (pf : Platform) (now : float) (tag : Tag) (record : NdefRecord)
         (others : list NdefRecord) (bytes : list Z),
    ndefMessage tag = Some (record :: others) ->
    payload record = Some bytes ->
    (forall decoded,
        Ndef_text_decodePayload pf (Uint8Array bytes) = Return decoded ->
        chooses pf now tag (Ok decoded)) /\
    (forall e,
        Ndef_text_decodePayload pf (Uint8Array bytes) = Throw e ->
        (forall (skip : nat) (decoded : string),
            (skip <= 5)%nat ->
            decode_from pf skip bytes = Some decoded ->
            (forall j, (j < skip)%nat -> decode_from pf j bytes = None) ->
            chooses pf now tag (Ok decoded)) /\
        ((forall skip, (skip <= 5)%nat -> decode_from pf skip bytes = None) ->
         chooses pf now tag (Err "Failed to decode NFC payload"))).
Proof.
  intros pf now tag record others bytes Hmessage Hpayload. split.
  - intros decoded Hstandard.
    apply (chooses_decoded pf now tag record others bytes); try assumption.
    unfold decode_payload. now rewrite Hstandard.
  - intros e Hstandard. split.
    + intros skip decoded Hskip Hdecoded Hbefore.
      apply (chooses_decoded pf now tag record others bytes); try assumption.
      unfold decode_payload. rewrite Hstandard.
      change [0; 1; 2; 3; 4; 5]%nat with (seq 0 6).
      rewrite (first_decoded_least pf bytes decoded 6 0 skip);
        try assumption; try lia; try reflexivity.
      intros j Hj. apply Hbefore. lia.
    + intros Hnone.
      apply (chooses_decoded pf now tag record others bytes); try assumption.
      unfold decode_payload. rewrite Hstandard.
      change [0; 1; 2; 3; 4; 5]%nat with (seq 0 6).
      rewrite first_decoded_none; [reflexivity|].
      intros j Hj. apply Hnone. lia.
Qed.

Lemma C3_decoding_order_witness :
  chooses sample_platform 0 text_record_tag (Ok tag_text) /\
  chooses no_ndef_library 0 text_record_tag
    (Ok (string_of_bytes ([2; 101; 110] ++ bytes_of_string tag_text)%list)).
Proof.
  split.
  - apply (proj1 (C3_decoding_order sample_platform 0 text_record_tag
                    {| payload := Some ([2; 101; 110] ++ bytes_of_string tag_text)%list |}
                    [] ([2; 101; 110] ++ bytes_of_string tag_text)%list
                    eq_refl eq_refl)).
    vm_compute. reflexivity.
  - apply (proj1 (proj2 (C3_decoding_order no_ndef_library 0 text_record_tag
                    {| payload := Some ([2; 101; 110] ++ bytes_of_string tag_text)%list |}
                    [] ([2; 101; 110] ++ bytes_of_string tag_text)%list
                    eq_refl eq_refl)
                   (TypeError "Cannot read property 'text' of null") eq_refl)
             0%nat).
    + lia.
    + vm_compute. reflexivity.
    + intros j Hj. lia.
Defined.

(** C6, as the specification has it, does not hold: a document of type
    [treasure_hunt_qr] and of a version that is not supported is
    decoded. *)
Lemma C6_unsupported_version_is_accepted :
  JSON_parse sample_runtime future_qr_text
  = Return (Object [("type", Str "treasure_hunt_qr"); ("version", Str "9.9");
                    ("data", Object [("treasureId", Str "treasure-7")])]) /\
  Spec.qr_supported sample_platform
    (Object [("type", Str "treasure_hunt_qr"); ("version", Str "9.9");
             ("data", Object [("treasureId", Str "treasure-7")])]) = false /\
  NFCService.parseQRData sample_platform future_qr_text
  = Ok (Object [("treasureId", Str "treasure-7")]).
Proof. vm_compute. repeat split; reflexivity. Qed.

(** C6, amended.  [parseQRData] reads its argument as one JSON document
    and returns the [data] of the document exactly when the text is
    JSON, the [type] of the document is the string "treasure_hunt_qr" and
    its [data] is truthy; every failure is an error whose message starts
    with "Invalid QR data: ", and a type that is not that string fails
    with "Invalid QR data: Invalid QR treasure data format".  The
    [version] is not looked at: whatever it is set to, the result is the
    same. *)
Theorem C6_qr_decoding_checks_type_and_data :
  forall (pf : Platform) (qrString : string),
    (forall data,
        NFCService.parseQRData pf qrString = Ok data <->
        exists parsed,
          JSON_parse (runtime pf) qrString = Return parsed /\
          Get (runtime pf) parsed "type" = Return (Str "treasure_hunt_qr") /\
          Get (runtime pf) parsed "data" = Return data /\
          ToBoolean data = true) /\
    (forall message,
        NFCService.parseQRData pf qrString = Err message ->
        startsWith "Invalid QR data: " message = true) /\
    (forall parsed type,
        JSON_parse (runtime pf) qrString = Return parsed ->
        Get (runtime pf) parsed "type" = Return type ->
        type <> Str "treasure_hunt_qr" ->
        NFCService.parseQRData pf qrString
        = Err "Invalid QR data: Invalid QR treasure data format") /\
    (forall members version,
        NFCService.qr_data pf (Object (set_member members "version" version))
        = NFCService.qr_data pf (Object members)).
Proof.
  intros pf qrString. unfold NFCService.parseQRData, NFCService.qr_document.
  repeat split.
  - intros H. destruct (JSON_parse (runtime pf) qrString) as [parsed|e];
      [|discriminate H].
    exists parsed. split; [reflexivity|].
    cbn [bind] in H. unfold NFCService.qr_data in H.
    destruct (Get (runtime pf) parsed "type") as [type|e]; [|discriminate H].
    cbn [bind] in H.
    destruct (is_string type "treasure_hunt_qr") eqn:Htype; [|discriminate H].
    apply is_string_eq in Htype. subst type. cbn [negb] in H.
    destruct (Get (runtime pf) parsed "data") as [data'|e]; [|discriminate H].
    cbn [bind] in H.
    destruct (ToBoolean data') eqn:Hdata; [|discriminate H].
    cbn [negb] in H. injection H as <-. repeat split; assumption.
  - intros (parsed & -> & Htype & Hdata & Htruthy).
    cbn [bind]. unfold NFCService.qr_data.
    rewrite Htype. cbn [bind is_string]. rewrite String.eqb_refl. cbn [negb].
    rewrite Hdata. cbn [bind]. rewrite Htruthy. reflexivity.
  - intros message H.
    destruct (bind (JSON_parse (runtime pf) qrString) (NFCService.qr_data pf))
      as [data|e]; [discriminate H|].
    injection H as <-. reflexivity.
  - intros parsed type -> Htype Hne. cbn [bind]. unfold NFCService.qr_data.
    rewrite Htype. cbn [bind].
    destruct (is_string type "treasure_hunt_qr") eqn:E; [|reflexivity].
    apply is_string_eq in E. contradiction.
  - intros members version. unfold NFCService.qr_data, Get.
    rewrite !lookup_set_member_other by discriminate. reflexivity.
Qed.

(** C9, as stated, does not hold: a creation time that is not a number
    is written [null] and read back as [null]. *)
Lemma C9_not_a_number_is_not_read_back :
  NFCService.generateQRData sample_platform (value_of undated_cache)
  = dq ("{'type':'treasure_hunt_qr','version':'1.0','data':{"
        ++ "'treasureId':'treasure-7','name':'Old Quarter Cache',"
        ++ "'description':'A tin box, marked \'TH\', under the bench',"
        ++ "'rarity':3,'coordinates':'21.0285,105.8542','location':'Hoan Kiem',"
        ++ "'requiredRank':2,'rewardPoints':500,'createdAt':null,"
        ++ "'signature':'9f2c'}}") /\
  (exists decoded,
      NFCService.parseQRData sample_platform
        (NFCService.generateQRData sample_platform (value_of undated_cache))
      = Ok decoded /\
      property decoded "createdAt" = Null /\
      property (value_of undated_cache) "createdAt" = Number PrimFloat.nan) /\
  NFCService.parseQRData sample_platform
    (NFCService.generateQRData sample_platform (value_of undated_cache))
  <> Ok (value_of undated_cache).
Proof.
  split; [vm_compute; reflexivity|]. split.
  - eexists. split; [vm_compute; reflexivity|]. split; reflexivity.
  - vm_compute. intros H. discriminate H.
Qed.

(** C9, amended.  For every [TreasureNFCData] whose four numbers are
    finite and are printed as numerals that read back as themselves (as
    every finite number but [-0] is), [parseQRData(generateQRData(d))]
    succeeds and returns [d].  On every platform and for every [d] whose
    finite numbers are of that kind, it succeeds and returns [d] with
    every number that is not finite replaced by [null]: a numeric
    property ([rarity], [requiredRank], [rewardPoints], [createdAt]) that
    is NaN or an infinity is read back as [null], a finite one as itself,
    and every other property as it was. *)
Theorem C9_qr_round_trip :
  forall (pf : Platform) (d : TreasureNFCData),
    (Forall (number_survives (runtime pf)) (numbers d) ->
     NFCService.parseQRData pf (NFCService.generateQRData pf (value_of d))
     = Ok (value_of d)) /\
    (Forall (fun x => PrimFloat.is_finite x = true ->
                      number_survives (runtime pf) x) (numbers d) ->
     NFCService.parseQRData pf (NFCService.generateQRData pf (value_of d))
     = Ok (read_back d)) /\
    (forall (key : string) (x : float),
        In (key, x) (number_fields d) ->
        property (value_of d) key = Number x /\
        (PrimFloat.is_nan x = true \/ PrimFloat.is_infinity x = true ->
         property (read_back d) key = Null) /\
        (PrimFloat.is_finite x = true ->
         property (read_back d) key = Number x)) /\
    (forall key : string,
        ~ In key (map fst (number_fields d)) ->
        property (read_back d) key = property (value_of d) key).
Proof.
  intros pf d.
  assert (forall v : Value,
             plain (runtime pf) v -> ToBoolean v = true ->
             NFCService.generateQRData pf (value_of d)
             = NFCService.generateQRData pf v ->
             NFCService.parseQRData pf (NFCService.generateQRData pf (value_of d))
             = Ok v) as Hround.
  { intros v Hplain Htruthy ->.
    set (document := Object [("type", Str "treasure_hunt_qr");
                             ("version", Str "1.0"); ("data", v)]).
    assert (Forall (fun m => plain (runtime pf) (snd m))
              [("type", Str "treasure_hunt_qr"); ("version", Str "1.0");
               ("data", v)]) as Hmembers.
    { apply Forall_cons_2; [exact I|]. apply Forall_cons_2; [exact I|].
      apply Forall_cons_2; [exact Hplain|]. apply Forall_nil_2. }
    assert (plain (runtime pf) document) as Hdocument.
    { apply plain_object. split; [|exact Hmembers].
      cbn. repeat (apply NoDup_cons; split; [set_solver|]). apply NoDup_nil_2. }
    assert (NFCService.generateQRData pf v
            = text_of (runtime pf) document) as ->.
    { unfold document. rewrite (text_of_object _ _ Hmembers).
      unfold NFCService.generateQRData, SerializeJSONObject, member_text.
      cbn [omap list_omap map snd fst SerializeJSONProperty text_of].
      rewrite (plain_text _ _ Hplain). reflexivity. }
    unfold NFCService.parseQRData, NFCService.qr_document.
    rewrite (JSON_parse_text _ _ Hdocument).
    unfold NFCService.qr_data, document, Get. cbn -[ToBoolean].
    rewrite Htruthy. reflexivity. }
  split; [| split; [| split]].
  - intros Hnumbers. apply Hround; [| reflexivity | reflexivity].
    now apply value_of_plain.
  - intros Hnumbers. apply Hround; [| reflexivity |].
    + now apply read_back_plain.
    + unfold NFCService.generateQRData, SerializeJSONObject.
      cbn [omap list_omap snd fst]. now rewrite read_back_text.
  - intros key x Hin.
    assert (forall y, PrimFloat.is_nan y = true \/ PrimFloat.is_infinity y = true ->
                      through_json y = Null) as Hnull.
    { intros y Hy. apply not_finite in Hy. unfold through_json. now rewrite Hy. }
    assert (forall y, PrimFloat.is_finite y = true -> through_json y = Number y)
      as Hkept.
    { intros y Hy. unfold through_json. now rewrite Hy. }
    unfold number_fields in Hin. cbn [In] in Hin.
    destruct Hin as [[= <- <-] | [[= <- <-] | [[= <- <-] | [[= <- <-] | []]]]];
      unfold value_of, read_back;
      destruct (imageUrl d), (signature d); cbn -[through_json];
      (split; [reflexivity | split; [apply Hnull | apply Hkept]]).
  - intros key Hkey. cbn [map fst number_fields In] in Hkey.
    unfold value_of, read_back, property, optional.
    destruct (imageUrl d), (signature d);
      cbn -[through_json String.eqb];
      repeat match goal with
             | |- context [String.eqb ?a key] =>
                 destruct (String.eqb_spec a key);
                 [try reflexivity; exfalso; apply Hkey; subst key; tauto |]
             | |- context [String.eqb key ?a] =>
                 destruct (String.eqb_spec key a);
                 [try reflexivity; exfalso; apply Hkey; subst key; tauto |]
             end; reflexivity.
Qed.

Lemma C9_qr_round_trip_witness :
  NFCService.parseQRData sample_platform
    (NFCService.generateQRData sample_platform (value_of cache))
  = Ok (value_of cache).
Proof.
  apply (C9_qr_round_trip sample_platform cache).
  repeat constructor; vm_compute; reflexivity.
Defined.

(** C10.  Whenever a payload that holds "treasure_name" and "nfc_data"
    is parsed successfully, by either service, the treasure returned has
    rarity 2, required rank 1 and 250 reward points, whatever the payload
    says of them. *)
Theorem C10_fixed_reward_metadata :
  forall (pf : Platform) (now : float) (payloadString : string) (treasure : Value),
    includes payloadString "treasure_name" = true ->
    includes payloadString "nfc_data" = true ->
    NFCService.parseTreasureFromPayload pf now payloadString = Ok treasure \/
    AlternativeNFCService.parseTreasureFromPayload pf now payloadString = Ok treasure ->
    property treasure "rarity" = Number 2 /\
    property treasure "requiredRank" = Number 1 /\
    property treasure "rewardPoints" = Number 250.
Proof.
  intros pf now payloadString treasure Hname Hdata H.
  assert (exists e, treasure_format pf now payloadString = Return treasure \/
                    (treasure_format pf now payloadString = Throw e /\ False))
    as [e [Hformat | [_ []]]].
  { unfold NFCService.parseTreasureFromPayload,
      AlternativeNFCService.parseTreasureFromPayload, has_treasure_format in H.
    rewrite Hname, Hdata in H. cbn [andb] in H.
    destruct (treasure_format pf now payloadString) as [v|e].
    - exists (Error ""). left. destruct H as [[= ->] | [= ->]]; reflexivity.
    - destruct H as [H | H]; discriminate H. }
  unfold treasure_format in Hformat.
  repeat match type of Hformat with
         | bind ?c _ = _ => destruct c; [cbn [bind] in Hformat | discriminate Hformat]
         end.
  injection Hformat as <-. repeat split; reflexivity.
Qed.

Lemma C10_fixed_reward_metadata_witness :
  property tag_treasure "rarity" = Number 2 /\
  property tag_treasure "requiredRank" = Number 1 /\
  property tag_treasure "rewardPoints" = Number 250.
Proof.
  apply (C10_fixed_reward_metadata sample_platform 0 tag_text tag_treasure).
  - vm_compute. reflexivity.
  - vm_compute. reflexivity.
  - left. vm_compute. reflexivity.
Defined.

End DecoderClaims.
(** * More on the wallet service *)

Section RunFacts.
Import Sui Runs.

Lemma always_run {S A : Type} (env : Env S) (p : Prog A)
  (post : list Event -> A -> Prop) :
  always p post ->
  forall s : S, post (snd (run env p s)) (fst (fst (run env p s))).
Proof.
  revert post. induction p as [a | X op k IH]; intros post Hp s.
  - exact Hp.
  - cbn [run fst snd]. apply (IH _ _ (Hp _)).
Qed.

Lemma always_mono {A : Type} (p : Prog A) (post post' : list Event -> A -> Prop) :
  (forall trace a, post trace a -> post' trace a) ->
  always p post -> always p post'.
Proof.
  revert post post'. induction p as [a | X op k IH]; intros post post' Himp Hp.
  - apply Himp, Hp.
  - intros x. apply (IH x _ _ (fun trace a => Himp (event op x :: trace) a)), Hp.
Qed.

Lemma always_pbind {A B : Type} (p : Prog A) (f : A -> Prog B)
  (post : list Event -> B -> Prop) :
  always p (fun trace a => always (f a) (fun trace' b => post (trace ++ trace')%list b)) ->
  always (pbind p f) post.
Proof.
  revert post. induction p as [a | X op k IH]; intros post Hp.
  - exact Hp.
  - intros x. cbn [pbind]. apply IH. exact (Hp x).
Qed.

Lemma always_bind {A B : Type} (c : M A) (f : A -> M B) (s : Service)
  (post : list Event -> result B * Service -> Prop) :
  always (c s)
    (fun trace out =>
       match fst out with
       | Ok a => always (f a (snd out))
                   (fun trace' b => post (trace ++ trace')%list b)
       | Err m => post trace (Err m, snd out)
       end) ->
  always (bind c f s) post.
Proof.
  intros H. unfold bind. apply always_pbind.
  revert H. apply always_mono. intros trace [[a | m] s'] Hout; cbn in *.
  - exact Hout.
  - now rewrite app_nil_r.
Qed.

Lemma always_try_catch {A : Type} (c : M A) (handler : string -> M A)
  (s : Service) (post : list Event -> result A * Service -> Prop) :
  always (c s)
    (fun trace out =>
       match fst out with
       | Ok a => post trace (Ok a, snd out)
       | Err m => always (handler m (snd out))
                    (fun trace' b => post (trace ++ trace')%list b)
       end) ->
  always (try_catch c handler s) post.
Proof.
  intros H. unfold try_catch. apply always_pbind.
  revert H. apply always_mono. intros trace [[a | m] s'] Hout; cbn in *.
  - now rewrite app_nil_r.
  - exact Hout.
Qed.

Lemma submitted_app (t1 t2 : list Event) :
  submitted (t1 ++ t2) = (submitted t1 ++ submitted t2)%list.
Proof. apply flat_map_app. Qed.

Lemma executions_app (t1 t2 : list Event) :
  executions (t1 ++ t2) = (executions t1 ++ executions t2)%list.
Proof. apply flat_map_app. Qed.

Lemma find_answers_app (t1 t2 : list Event) :
  find_answers (t1 ++ t2) = (find_answers t1 ++ find_answers t2)%list.
Proof. apply flat_map_app. Qed.

Ltac open_methods :=
  unfold findOrCreateHunterProfile, createHunterProfile, findTreasureRegistry,
    getBalanceInSui, getBalance, ensure_wallet, initializeWallet,
    loadCachedObjectIds, verified, address_of_keypair, when_present,
    storeTreasureLocally,
    bind, try_catch, await, ask, this, update, ret, throw.

Ltac compute_run :=
  cbn -[includes startsWith specific_error String.append List.find List.filter
        insufficient_balance createdObjects succeeded transaction_error
        find_treasure_tx create_profile_tx PrimFloat.ltb PrimFloat.div
        MIST_PER_SUI low_balance packageId].

Ltac case_match :=
  match goal with
  | |- context [match ?x with _ => _ end] =>
      first [ is_var x; destruct x | destruct x eqn:? ]
  end.

Ltac walk :=
  repeat first
    [ progress compute_run
    | match goal with |- forall _, _ => intros ? end
    | case_match ].

Lemma find_creates (res : TxResult) (marker oid : string) (c : ObjectChange) :
  List.find (created_of_type marker) (createdObjects res) = Some c ->
  objectId c = Some oid ->
  creates res marker oid.
Proof.
  intros Hfind Hoid. apply find_some in Hfind as [Hin Hc].
  now exists c.
Qed.

Lemma created_objects (res : TxResult) (l : list ObjectChange) :
  option_map (List.filter created) (objectChanges res) = Some l ->
  createdObjects res = l.
Proof.
  unfold createdObjects. destruct (objectChanges res); cbn; congruence.
Qed.

Lemma startsWith_append (p s : string) : startsWith p (p ++ s) = true.
Proof.
  induction p as [| c p IH]; [reflexivity |].
  change (String c p ++ s) with (String c (p ++ s)).
  cbn [startsWith]. rewrite Ascii.eqb_refl. exact IH.
Qed.

Ltac solve_creates :=
  match goal with
  | Hc : option_map (List.filter created) (objectChanges ?res) = Some _,
    Hf : List.find _ _ = Some _ |- creates ?res _ _ =>
      eapply find_creates;
      [ rewrite (created_objects _ _ Hc); exact Hf | reflexivity ]
  | Hf : List.find _ (createdObjects ?res) = Some _ |- creates ?res _ _ =>
      eapply find_creates; [ exact Hf | reflexivity ]
  end.

Ltac clean :=
  repeat match goal with
         | H : ?x = ?x |- _ => clear H
         | H : Some _ = None |- _ => discriminate H
         | H : None = Some _ |- _ => discriminate H
         | H : Ok _ = Err _ |- _ => discriminate H
         | H : Err _ = Ok _ |- _ => discriminate H
         | H : Some _ = Some _ |- _ => injection H as H; try subst
         | H : Ok _ = Ok _ |- _ => injection H as H; try subst
         | H : Err _ = Err _ |- _ => injection H as H; try subst
         | H : (_, _) = (_, _) |- _ => injection H as ? ?; try subst
         end.

Ltac leaf :=
  intros; cbn [fst snd] in *; clean;
  repeat first
    [ reflexivity
    | assumption
    | solve_creates
    | apply startsWith_append
    | match goal with
      | |- _ /\ _ => split
      | |- exists _, _ => eexists
      | |- forall _, _ => intros; cbn [fst snd] in *; clean
      | |- existsb _ _ = true =>
          cbn; rewrite ?String.eqb_refl, ?orb_true_r; reflexivity
      | |- _ = true => rewrite ?String.eqb_refl, ?orb_true_r; reflexivity
      | |- _ \/ _ => first [ left; reflexivity | right; reflexivity ]
      end ].

Section Methods.
Variable N : string -> float.

(** [if (!this.keypair) await this.initializeWallet()] *)
Lemma ensure_wallet_runs (s : Service) :
  always (ensure_wallet s)
    (fun trace out =>
       submitted trace = [] /\ find_answers trace = [] /\
       (fst out = Ok tt -> exists a, keypair (snd out) = Some a) /\
       (forall a, keypair s = Some a -> trace = [] /\ out = (Ok tt, s))).
Proof.
  destruct s as [kp rid pid ini]. open_methods. walk;
    repeat split; try reflexivity; try discriminate; intros; try discriminate;
    eauto.
Qed.

(** [createHunterProfile] *)
Lemma createHunterProfile_runs (username : string) (s : Service) :
  always (createHunterProfile username s)
    (fun trace out =>
       find_answers trace = [] /\
       (forall a, keypair s = Some a ->
                  keypair (snd out) = Some a /\
                  treasureRegistryId (snd out) = treasureRegistryId s /\
                  (submitted trace = [] \/
                   submitted trace = [create_profile_tx a username])) /\
       (forall oid, fst out = Ok oid ->
                    exists a res,
                      keypair (snd out) = Some a /\
                      hunterProfileId (snd out) = Some oid /\
                      submitted trace = [create_profile_tx a username] /\
                      executions trace = [(create_profile_tx a username, res)] /\
                      creates res "HunterProfile" oid /\
                      existsb (stored "hunter_profile_id" oid) trace = true)).
Proof.
  destruct s as [kp rid pid ini]. open_methods. walk; leaf.
Qed.

(** [findTreasureRegistry] *)
Lemma findTreasureRegistry_runs (s : Service) :
  always (findTreasureRegistry s)
    (fun trace out =>
       submitted trace = [] /\ find_answers trace = [] /\
       keypair (snd out) = keypair s /\
       hunterProfileId (snd out) = hunterProfileId s /\
       (treasureRegistryId s = None -> exists m, fst out = Err m) /\
       (forall reg, fst out = Ok reg ->
                    treasureRegistryId (snd out) = Some reg /\
                    existsb (object_seen reg) trace = true)).
Proof.
  destruct s as [kp rid pid ini]. open_methods. walk; leaf.
Qed.

(** [findOrCreateHunterProfile] *)
Lemma findOrCreateHunterProfile_runs (s : Service) :
  always (findOrCreateHunterProfile s)
    (fun trace out =>
       find_answers trace = [] /\
       (forall a, keypair s = Some a ->
                  keypair (snd out) = Some a /\
                  treasureRegistryId (snd out) = treasureRegistryId s /\
                  (submitted trace = [] \/
                   submitted trace = [create_profile_tx a "TreasureHunter"])) /\
       (forall prof, fst out = Ok prof -> hunterProfileId (snd out) = Some prof)).
Proof.
  destruct s as [kp rid pid ini]. open_methods. walk; leaf.
Qed.

(** [getBalanceInSui] with the key pair at hand. *)
Lemma getBalanceInSui_runs (s : Service) (a : string) :
  keypair s = Some a ->
  always (getBalanceInSui N s)
    (fun trace out =>
       snd out = s /\ submitted trace = [] /\ find_answers trace = [] /\
       exists b, fst out = Ok (N b / MIST_PER_SUI)%float).
Proof.
  destruct s as [kp rid pid ini]. cbn. intros ->. open_methods. walk; leaf.
Qed.

Lemma findTreasure_submit_runs (treasureId locationProof : string)
  (s : Service) (a : string) :
  keypair s = Some a ->
  always (findTreasure_submit treasureId locationProof s)
    (find_post s a treasureId locationProof).
Proof.
  intros Ha. unfold findTreasure_submit.
  apply always_bind.
  eapply always_mono; [| apply findTreasureRegistry_runs].
  intros t1 [[reg | m] s1] (Hs1 & Hf1 & Hk1 & Hp1 & Hnone & Hreg); cbn [fst snd] in *.
  2: { unfold find_post. rewrite Hs1. cbn [fst snd].
       repeat split; [left; reflexivity | eauto | discriminate]. }
  destruct (Hreg reg eq_refl) as [Hrid Hseen]. rewrite Ha in Hk1.
  apply always_bind.
  eapply always_mono; [| apply findOrCreateHunterProfile_runs].
  intros t2 [[prof | m] s2] (Hf2 & Hkeep & Hprof); cbn [fst snd] in *.
  2: { destruct (Hkeep a Hk1) as (_ & _ & Hsub).
       unfold find_post. rewrite submitted_app, Hs1. cbn [fst snd app].
       split; [| split]; [| | discriminate].
       - destruct Hsub as [-> | ->]; [left | right; left]; reflexivity.
       - intros Hn. destruct (Hnone Hn) as [? [=]]. }
  destruct (Hkeep a Hk1) as (Hk2 & Hr2 & Hsub). specialize (Hprof prof eq_refl).
  rewrite Hrid in Hr2.
  destruct s2 as [kp2 rid2 pid2 ini2]. cbn [keypair treasureRegistryId hunterProfileId] in *.
  subst kp2 rid2 pid2.
  unfold find_post. open_methods. walk.
  all: rewrite ?submitted_app, ?find_answers_app, ?Hs1, ?Hf1, ?Hf2; cbn [app].
  all: split; [| split].
  all: try (intros Hn; destruct (Hnone Hn) as [? [=]]).
  all: try (destruct Hsub as [-> | ->]; cbn;
            [right; right; left | right; right; right]; eauto).
  all: try (intros ? Hd; discriminate Hd).
  all: intros r [= <-]; exists a, reg, prof; eexists; cbn [fst snd
         keypair treasureRegistryId hunterProfileId transactionDigest nftObjectId
         treasureData hunterProfileUpdated td_treasureId td_locationProof
         td_nftObjectId td_transactionDigest].
  all: rewrite ?submitted_app, ?find_answers_app, ?existsb_app,
         ?Hs1, ?Hf1, ?Hf2, ?Hseen; cbn [app orb].
  all: repeat split; try reflexivity; try eassumption; try solve_creates.
  all: destruct Hsub as [-> | ->]; [left | right]; reflexivity.
Qed.

Lemma settled_by_after (treasureId locationProof : string) (t0 trace : list Event)
  (r : TreasureDiscoveryResult) (svc' : Service) :
  submitted t0 = [] -> find_answers t0 = [] ->
  settled_by treasureId locationProof trace r svc' ->
  settled_by treasureId locationProof (t0 ++ trace) r svc'.
Proof.
  intros Hs Hf (a & reg & prof & res & H).
  exists a, reg, prof, res.
  rewrite submitted_app, find_answers_app, existsb_app, Hs, Hf. cbn [app].
  destruct H as (? & ? & ? & ? & ? & ? & ? & -> & ?).
  rewrite orb_true_r. tauto.
Qed.

Lemma find_post_after (s : Service) (a treasureId locationProof : string)
  (t0 trace : list Event) (out : result TreasureDiscoveryResult * Service) :
  submitted t0 = [] -> find_answers t0 = [] ->
  find_post s a treasureId locationProof trace out ->
  find_post s a treasureId locationProof (t0 ++ trace) out.
Proof.
  intros Hs Hf (Hb & Hn & Hr). unfold find_post.
  rewrite submitted_app, Hs. cbn [app].
  repeat split; try assumption.
  - apply Hn. assumption.
  - apply Hn. assumption.
  - intros r Hr'. apply settled_by_after; auto.
Qed.

(** The [try] block of [findTreasure] with its [catch] block. *)
Lemma findTreasure_try_runs (treasureId locationProof : string)
  (s : Service) (a : string) :
  keypair s = Some a ->
  always (try_catch (findTreasure_try N treasureId locationProof) on_error s)
    (find_post s a treasureId locationProof).
Proof.
  intros Ha. apply always_try_catch. unfold findTreasure_try.
  apply always_bind.
  eapply always_mono; [| apply (getBalanceInSui_runs s a Ha)].
  intros t1 [[balance | m] s1] (Hs1 & Hsub1 & Hf1 & b & Hb); cbn [fst snd] in *;
    [| discriminate Hb].
  subst s1. apply always_bind.
  destruct (balance <? 0.05)%float.
  - cbn. unfold find_post. rewrite !app_nil_r, Hsub1. cbn.
    repeat split; [left; reflexivity | eauto | discriminate].
  - cbn -[findTreasure_submit].
    eapply always_mono; [| apply (findTreasure_submit_runs treasureId locationProof s a Ha)].
    intros t2 [[r | m] s2] Hpost; cbn [fst snd].
    + apply find_post_after; assumption.
    + rewrite app_nil_r.
      apply (find_post_after s a _ _ t1 t2 (Err (specific_error m), s2) Hsub1 Hf1).
      destruct Hpost as (Hb' & Hn & _). repeat split; try assumption.
      * apply Hn. assumption.
      * cbn. eauto.
      * discriminate.
Qed.

(** [findTreasure] *)
Lemma findTreasure_runs (treasureId locationProof : string) (s : Service) :
  always (findTreasure N treasureId locationProof s)
    (fun trace out =>
       (exists a, budget a treasureId locationProof (submitted trace)) /\
       (forall r, fst out = Ok r ->
                  settled_by treasureId locationProof trace r (snd out)) /\
       (forall a, keypair s = Some a -> treasureRegistryId s = None ->
                  submitted trace = [] /\ exists m, fst out = Err m)).
Proof.
  unfold findTreasure. apply always_bind.
  eapply always_mono; [| apply ensure_wallet_runs].
  intros t0 [[[] | m] s0] (Hs0 & Hf0 & Hkey & Hsame); cbn [fst snd] in *.
  - destruct (Hkey eq_refl) as [a Ha].
    eapply always_mono; [| apply (findTreasure_try_runs treasureId locationProof s0 a Ha)].
    intros t1 out Hpost.
    apply (find_post_after s0 a _ _ t0 t1 out Hs0 Hf0) in Hpost.
    destruct Hpost as (Hb & Hn & Hr). repeat split.
    + now exists a.
    + exact Hr.
    + destruct (Hsame a0 H) as [_ [= <-]]. apply Hn. assumption.
    + destruct (Hsame a0 H) as [_ [= <-]]. apply Hn. assumption.
  - rewrite Hs0. repeat split.
    + exists "". left. reflexivity.
    + discriminate.
    + eexists. reflexivity.
Qed.

(** [initializeWallet] *)
Lemma initializeWallet_runs (s : Service) :
  always (initializeWallet s)
    (fun trace out =>
       submitted trace = [] /\
       match fst out with
       | Ok a =>
           keypair (snd out) = Some a /\ isInitialized (snd out) = true /\
           initializeWallet (snd out) = Ret (Ok a, snd out)
       | Err m => startsWith "Failed to initialize wallet: " m = true
       end).
Proof.
  destruct s as [kp rid pid ini]. open_methods. walk; leaf.
Qed.

End Methods.

Lemma rejected_balance_reads_zero (trace : list Event) :
  existsb balance_rejected trace = true -> In "0" (balances trace).
Proof.
  induction trace as [| [X op x] trace IH]; [discriminate|].
  cbn [existsb]. intros H. apply orb_true_iff in H as [H | H].
  - unfold balances. cbn [flat_map]. apply in_or_app. left.
    destruct op; try discriminate H. destruct x; [discriminate H | now left].
  - unfold balances. cbn [flat_map]. apply in_or_app. right. now apply IH.
Qed.

End RunFacts.

Section WalletProperties.
Import Sui Runs Samples.

(** X1.  A [findTreasure] that resolves rests on one executed
    transaction: the wallet submitted exactly one [find_treasure], for
    the treasure and the location proof of the call, after at most one
    registration of the hunter; the node answered it with success and
    created the NFT that the result names; the registry of the
    transaction had answered a [getObject]; and the result carries the
    digest of that transaction, the treasure and the proof. *)
Theorem findTreasure_resolved_is_settled :
  forall (N : string -> float) (S : Type) (env : Env S) (s : S) (svc : Service)
         (treasureId locationProof : string)
         (r : TreasureDiscoveryResult) (svc' : Service),
    fst (fst (run env (findTreasure N treasureId locationProof svc) s)) = (Ok r, svc') ->
    settled_by treasureId locationProof
      (snd (run env (findTreasure N treasureId locationProof svc) s)) r svc'.
Proof.
  intros N S env s svc treasureId locationProof r svc' Hr.
  pose proof (always_run env _ _ (findTreasure_runs N treasureId locationProof svc) s)
    as (_ & Hsettled & _).
  rewrite Hr in Hsettled. exact (Hsettled r eq_refl).
Qed.

Lemma findTreasure_resolved_is_settled_witness :
  exists r svc',
    fst (fst (run (Ledger.world lenient lenient)
                (findTreasure Number_of_decimal "treasure-7"
                   (Ledger.caller_proof alice) (Ledger.caller_service alice))
                (open_chain, Ledger.caller_device alice))) = (Ok r, svc') /\
    settled_by "treasure-7" (Ledger.caller_proof alice)
      (snd (run (Ledger.world lenient lenient)
              (findTreasure Number_of_decimal "treasure-7"
                 (Ledger.caller_proof alice) (Ledger.caller_service alice))
              (open_chain, Ledger.caller_device alice))) r svc'.
Proof.
  do 2 eexists. split; [vm_compute; reflexivity |].
  apply (findTreasure_resolved_is_settled Number_of_decimal _
           (Ledger.world lenient lenient) (open_chain, Ledger.caller_device alice)
           (Ledger.caller_service alice) "treasure-7" (Ledger.caller_proof alice)).
  vm_compute. reflexivity.
Defined.

(** X2.  Whatever the node and the device answer, [findTreasure] submits
    nothing but, in this order, at most one registration of a hunter
    named TreasureHunter (gas budget 20000000) and at most one
    [find_treasure] for the treasure and the location proof it was called
    with (gas budget 50000000), both sent by the same wallet. *)
Theorem findTreasure_transaction_budget :
  forall (N : string -> float) (S : Type) (env : Env S) (s : S) (svc : Service)
         (treasureId locationProof : string),
  exists a,
    budget a treasureId locationProof
      (submitted (snd (run env (findTreasure N treasureId locationProof svc) s))).
Proof.
  intros N S env s svc treasureId locationProof.
  pose proof (always_run env _ _ (findTreasure_runs N treasureId locationProof svc) s)
    as (Hbudget & _).
  exact Hbudget.
Qed.

(** X3.  The service never finds a registry by itself: with a wallet
    that is loaded and no registry identifier set, [findTreasure] rejects
    and submits no transaction, whatever the node answers. *)
Theorem findTreasure_needs_a_registry :
  forall (N : string -> float) (S : Type) (env : Env S) (s : S) (svc : Service)
         (a treasureId locationProof : string),
    keypair svc = Some a ->
    treasureRegistryId svc = None ->
    submitted (snd (run env (findTreasure N treasureId locationProof svc) s)) = [] /\
    exists m,
      fst (fst (fst (run env (findTreasure N treasureId locationProof svc) s))) = Err m.
Proof.
  intros N S env s svc a treasureId locationProof Ha Hnone.
  pose proof (always_run env _ _ (findTreasure_runs N treasureId locationProof svc) s)
    as (_ & _ & Hreg).
  exact (Hreg a Ha Hnone).
Qed.

Lemma findTreasure_needs_a_registry_witness :
  submitted (snd (run (Ledger.world lenient lenient)
                    (findTreasure Number_of_decimal "treasure-7"
                       (Ledger.caller_proof alice) unregistered)
                    (open_chain, Ledger.caller_device alice))) = [] /\
  exists m,
    fst (fst (fst (run (Ledger.world lenient lenient)
                     (findTreasure Number_of_decimal "treasure-7"
                        (Ledger.caller_proof alice) unregistered)
                     (open_chain, Ledger.caller_device alice)))) = Err m.
Proof.
  apply (findTreasure_needs_a_registry Number_of_decimal _
           (Ledger.world lenient lenient) (open_chain, Ledger.caller_device alice)
           unregistered "0xa11ce" "treasure-7" (Ledger.caller_proof alice));
    reflexivity.
Defined.

(** X4.  [initializeWallet] submits no transaction.  When it resolves,
    the service holds the key pair of the address it returns and is
    marked initialized, and a second call returns the same address
    without a single request; when it rejects, the message starts with
    "Failed to initialize wallet: ". *)
Theorem initializeWallet_once :
  forall (S : Type) (env : Env S) (s : S) (svc : Service),
    let out := run env (initializeWallet svc) s in
    submitted (snd out) = [] /\
    match fst (fst (fst out)) with
    | Ok a =>
        keypair (snd (fst (fst out))) = Some a /\
        isInitialized (snd (fst (fst out))) = true /\
        initializeWallet (snd (fst (fst out))) = Ret (Ok a, snd (fst (fst out)))
    | Err m => startsWith "Failed to initialize wallet: " m = true
    end.
Proof.
  intros S env s svc out.
  exact (always_run env _ _ (initializeWallet_runs svc) s).
Qed.

(** X5.  A balance query that the node rejects reads as a balance of 0:
    when [Number("0") / 1e9 < 0.05], as it is, a [findTreasure] whose
    balance query was rejected fails with the insufficient-balance
    message and submits nothing. *)
Theorem rejected_balance_is_insufficient :
  forall (N : string -> float) (S : Type) (env : Env S) (s : S) (svc : Service)
         (treasureId locationProof : string),
    low_balance N "0" = true ->
    existsb balance_rejected
      (snd (run env (findTreasure N treasureId locationProof svc) s)) = true ->
    (exists svc',
        fst (fst (run env (findTreasure N treasureId locationProof svc) s))
        = (Err insufficient_balance, svc')) /\
    submitted (snd (run env (findTreasure N treasureId locationProof svc) s)) = [].
Proof.
  intros N S env s svc treasureId locationProof Hzero Hrejected.
  apply rejected_balance_reads_zero in Hrejected.
  destruct (guarded_run (low_balance N) env _
              (findTreasure_guarded N treasureId locationProof svc) s)
    as (Hres & Hsub & _).
  - apply existsb_exists. exists "0". split; assumption.
  - split; assumption.
Qed.

Lemma rejected_balance_is_insufficient_witness :
  (exists svc',
      fst (fst (run offline
                  (findTreasure Number_of_decimal "treasure-7" "proof" fresh_service) tt))
      = (Err insufficient_balance, svc')) /\
  submitted (snd (run offline
                    (findTreasure Number_of_decimal "treasure-7" "proof"
                                  fresh_service) tt)) = [].
Proof.
  apply (rejected_balance_is_insufficient Number_of_decimal unit offline tt
           fresh_service "treasure-7" "proof"); vm_compute; reflexivity.
Defined.

(** X6.  A [createHunterProfile] that resolves has submitted exactly one
    transaction, the registration of the given name by the wallet (gas
    budget 20000000), and the node has answered it; the identifier it
    returns is that of an object the transaction created whose type holds
    HunterProfile; it is the profile of the service from then on and was
    written to the local storage under hunter_profile_id. *)
Theorem createHunterProfile_resolved :
  forall (S : Type) (env : Env S) (s : S) (svc : Service) (username oid : string)
         (svc' : Service),
    fst (fst (run env (createHunterProfile username svc) s)) = (Ok oid, svc') ->
    exists a res,
      keypair svc' = Some a /\
      hunterProfileId svc' = Some oid /\
      submitted (snd (run env (createHunterProfile username svc) s))
      = [create_profile_tx a username] /\
      executions (snd (run env (createHunterProfile username svc) s))
      = [(create_profile_tx a username, res)] /\
      creates res "HunterProfile" oid /\
      existsb (stored "hunter_profile_id" oid)
        (snd (run env (createHunterProfile username svc) s)) = true.
Proof.
  intros S env s svc username oid svc' Hr.
  pose proof (always_run env _ _ (createHunterProfile_runs username svc) s)
    as (_ & _ & Hok).
  rewrite Hr in Hok. exact (Hok oid eq_refl).
Qed.

Lemma createHunterProfile_resolved_witness :
  fst (fst (run (Ledger.world lenient lenient)
              (createHunterProfile "Alice" (Ledger.caller_service alice))
              (open_chain, Ledger.caller_device alice)))
  = (Ok "profile:0xa11ce",
     set_hunterProfileId (Some "profile:0xa11ce") (Ledger.caller_service alice)) /\
  exists a res,
    keypair (set_hunterProfileId (Some "profile:0xa11ce") (Ledger.caller_service alice))
    = Some a /\
    hunterProfileId
      (set_hunterProfileId (Some "profile:0xa11ce") (Ledger.caller_service alice))
    = Some "profile:0xa11ce" /\
    submitted (snd (run (Ledger.world lenient lenient)
                      (createHunterProfile "Alice" (Ledger.caller_service alice))
                      (open_chain, Ledger.caller_device alice)))
    = [create_profile_tx a "Alice"] /\
    executions (snd (run (Ledger.world lenient lenient)
                       (createHunterProfile "Alice" (Ledger.caller_service alice))
                       (open_chain, Ledger.caller_device alice)))
    = [(create_profile_tx a "Alice", res)] /\
    creates res "HunterProfile" "profile:0xa11ce" /\
    existsb (stored "hunter_profile_id" "profile:0xa11ce")
      (snd (run (Ledger.world lenient lenient)
              (createHunterProfile "Alice" (Ledger.caller_service alice))
              (open_chain, Ledger.caller_device alice))) = true.
Proof.
  split; [vm_compute; reflexivity |].
  apply (createHunterProfile_resolved _ (Ledger.world lenient lenient)
           (open_chain, Ledger.caller_device alice)
           (Ledger.caller_service alice) "Alice" "profile:0xa11ce").
  vm_compute. reflexivity.
Defined.

End WalletProperties.
(** * The two readers of a tag, and QR documents on tags *)

Section ReaderFacts.
Import JS NFC.

(** The document that [generateQRData] writes is read back by
    [JSON.parse]. *)
Lemma qr_document_parsed (pf : Platform) (d : TreasureNFCData) :
  Forall (number_survives (runtime pf)) (numbers d) ->
  JSON_parse (runtime pf) (NFCService.generateQRData pf (value_of d))
  = Return (Object [("type", Str "treasure_hunt_qr"); ("version", Str "1.0");
                    ("data", value_of d)]).
Proof.
  intros Hnumbers.
  pose proof (value_of_plain _ d Hnumbers) as Hplain.
  set (document := Object [("type", Str "treasure_hunt_qr");
                           ("version", Str "1.0");
                           ("data", value_of d)]).
  assert (Forall (fun m => plain (runtime pf) (snd m))
            [("type", Str "treasure_hunt_qr"); ("version", Str "1.0");
             ("data", value_of d)]) as Hmembers.
  { apply Forall_cons_2; [exact I|]. apply Forall_cons_2; [exact I|].
    apply Forall_cons_2; [exact Hplain|]. apply Forall_nil_2. }
  assert (plain (runtime pf) document) as Hdocument.
  { apply plain_object. split; [|exact Hmembers].
    cbn. repeat (apply NoDup_cons; split; [set_solver|]). apply NoDup_nil_2. }
  assert (NFCService.generateQRData pf (value_of d)
          = text_of (runtime pf) document) as ->.
  { symmetry. apply text_of_object. exact Hmembers. }
  apply (JSON_parse_text _ _ Hdocument).
Qed.

(** The steps of [treasure_format], one [do!] at a time. *)
Ltac steps H :=
  repeat match type of H with
         | bind ?c _ = _ => destruct c eqn:?; [cbn [bind] in H | discriminate H]
         end.

Lemma treasure_format_fields (pf : Platform) (now : float) (text : string)
  (treasure : Value) :
  treasure_format pf now text = Return treasure ->
  ToBoolean (property treasure "treasureId") = true /\
  property treasure "location" = property treasure "name" /\
  property treasure "description" = Str "Treasure discovered via NFC" /\
  exists x, property treasure "createdAt" = Number x.
Proof.
  intros H. unfold treasure_format in H. steps H.
  injection H as <-. cbn.
  repeat split.
  - unfold or_else. destruct (ToBoolean a2) eqn:E; [exact E | reflexivity].
  - eexists. reflexivity.
Qed.

End ReaderFacts.

Section ReaderProperties.
Import JS NFC Samples.

(** X7.  On a payload that does not hold both "treasure_name" and
    "nfc_data", the tag reader of [NFCService] returns a treasure exactly
    when [parseQRData] returns it for the same text: what is read from such
    a tag is what the QR code of the same text gives. *)
Theorem tag_reader_takes_qr_documents :
  forall (pf : Platform) (now : float) (payloadString : string) (treasure : Value),
    has_treasure_format payloadString = false ->
    (NFCService.parseTreasureFromPayload pf now payloadString = Ok treasure <->
     NFCService.parseQRData pf payloadString = Ok treasure).
Proof.
  intros pf now payloadString treasure Hformat.
  unfold NFCService.parseTreasureFromPayload, NFCService.parseQRData,
    NFCService.qr_document, NFCService.qr_data, qr_format.
  rewrite Hformat.
  destruct (JSON_parse (runtime pf) payloadString) as [parsed | e]; cbn [bind];
    [| split; discriminate].
  destruct (Get (runtime pf) parsed "type") as [type | e]; cbn [bind];
    [| split; discriminate].
  destruct (is_string type "treasure_hunt_qr"); cbn [negb];
    [| split; discriminate].
  destruct (Get (runtime pf) parsed "data") as [data | e]; cbn [bind];
    [| split; discriminate].
  destruct (ToBoolean data); cbn [negb]; [reflexivity | split; discriminate].
Qed.

Lemma tag_reader_takes_qr_documents_witness :
  has_treasure_format future_qr_text = false /\
  (NFCService.parseTreasureFromPayload sample_platform 0 future_qr_text
   = Ok (Object [("treasureId", Str "treasure-7")]) <->
   NFCService.parseQRData sample_platform future_qr_text
   = Ok (Object [("treasureId", Str "treasure-7")])).
Proof.
  split; [reflexivity |].
  apply (tag_reader_takes_qr_documents sample_platform 0 future_qr_text).
  reflexivity.
Defined.

(** X8.  [AlternativeNFCService] reads a tag as [NFCService] does, with
    the same treasure or the same error, but for the tags that
    [NFCService] reads as a QR document: those it rejects as
    "Unrecognized payload format". *)
Theorem alternative_reader_reads_less :
  forall (pf : Platform) (now : float) (tag : Tag),
    AlternativeNFCService.processNFCTag pf now tag
    = NFCService.processNFCTag pf now tag \/
    (AlternativeNFCService.processNFCTag pf now tag
     = Err "Unrecognized payload format" /\
     exists (payloadString : string) (treasure : Value),
       NFCService.processNFCTag pf now tag = Ok treasure /\
       NFCService.parseQRData pf payloadString = Ok treasure).
Proof.
  intros pf now tag.
  unfold AlternativeNFCService.processNFCTag, NFCService.processNFCTag, process_tag.
  destruct (ndefMessage tag) as [[| record others] |]; try (left; reflexivity).
  destruct (payload record) as [bytes |]; [| left; reflexivity].
  destruct (decode_payload pf bytes) as [payloadString | message];
    [| left; reflexivity].
  unfold AlternativeNFCService.parseTreasureFromPayload,
    NFCService.parseTreasureFromPayload.
  destruct (has_treasure_format payloadString) eqn:Hformat; [left; reflexivity |].
  destruct (qr_format pf payloadString) as [[data |] | e] eqn:Hqr;
    try (left; reflexivity).
  right. split; [reflexivity |]. exists payloadString, data. split; [reflexivity |].
  unfold qr_format in Hqr.
  unfold NFCService.parseQRData, NFCService.qr_document, NFCService.qr_data.
  destruct (JSON_parse (runtime pf) payloadString) as [parsed | e]; cbn [bind] in *;
    [| discriminate Hqr].
  destruct (Get (runtime pf) parsed "type") as [type | e]; cbn [bind] in *;
    [| discriminate Hqr].
  destruct (is_string type "treasure_hunt_qr"); cbn [negb]; [| discriminate Hqr].
  destruct (Get (runtime pf) parsed "data") as [found | e]; cbn [bind] in *;
    [| discriminate Hqr].
  destruct (ToBoolean found); cbn [negb]; [| discriminate Hqr].
  congruence.
Qed.

(** X9.  A treasure that [AlternativeNFCService] reads from a tag has an
    identifier that is not falsy ("unknown" stands for an identifier
    that is missing, empty, 0 or null), a location that is its name, the
    description "Treasure discovered via NFC", and a number as creation
    time. *)
Theorem tag_treasure_identity :
  forall (pf : Platform) (now : float) (tag : Tag) (treasure : Value),
    AlternativeNFCService.processNFCTag pf now tag = Ok treasure ->
    ToBoolean (property treasure "treasureId") = true /\
    property treasure "location" = property treasure "name" /\
    property treasure "description" = Str "Treasure discovered via NFC" /\
    exists x, property treasure "createdAt" = Number x.
Proof.
  intros pf now tag treasure H.
  unfold AlternativeNFCService.processNFCTag, process_tag in H.
  destruct (ndefMessage tag) as [[| record others] |]; try discriminate H.
  destruct (payload record) as [bytes |]; [| discriminate H].
  destruct (decode_payload pf bytes) as [payloadString | message];
    [| discriminate H].
  unfold AlternativeNFCService.parseTreasureFromPayload in H.
  destruct (has_treasure_format payloadString); [| discriminate H].
  apply (treasure_format_fields pf now payloadString).
  destruct (treasure_format pf now payloadString); [congruence | discriminate H].
Qed.

Lemma tag_treasure_identity_witness :
  AlternativeNFCService.processNFCTag sample_platform 0 text_record_tag
  = Ok tag_treasure /\
  ToBoolean (property tag_treasure "treasureId") = true /\
  property tag_treasure "location" = property tag_treasure "name" /\
  property tag_treasure "description" = Str "Treasure discovered via NFC" /\
  exists x, property tag_treasure "createdAt" = Number x.
Proof.
  split; [vm_compute; reflexivity |].
  apply (tag_treasure_identity sample_platform 0 text_record_tag).
  vm_compute. reflexivity.
Defined.

(** X10.  The QR document of a treasure, written on a tag: when its
    numbers are finite and print as numerals that read back as
    themselves, the tag reader of [NFCService] returns the treasure,
    unless the text of the document holds both "treasure_name" and
    "nfc_data" (in a name or a description, say): such a document is
    taken for the tag format and rejected with a message that starts
    with "Failed to parse treasure format: ". *)
Theorem qr_document_on_a_tag :
  forall (pf : Platform) (now : float) (d : TreasureNFCData),
    Forall (number_survives (runtime pf)) (numbers d) ->
    NFCService.parseTreasureFromPayload pf now
      (NFCService.generateQRData pf (value_of d))
    = if has_treasure_format (NFCService.generateQRData pf (value_of d))
      then Err ("Failed to parse treasure format: "
                ++ text (SyntaxError (syntax_error_message (runtime pf) "undefined")))
      else Ok (value_of d).
Proof.
  intros pf now d Hnumbers.
  pose proof (qr_document_parsed pf d Hnumbers) as Hparsed.
  unfold NFCService.parseTreasureFromPayload, treasure_format, qr_format.
  destruct (has_treasure_format (NFCService.generateQRData pf (value_of d)));
    rewrite Hparsed; reflexivity.
Qed.

Lemma qr_document_on_a_tag_witness :
  NFCService.parseTreasureFromPayload sample_platform 0
    (NFCService.generateQRData sample_platform (value_of cache))
  = Ok (value_of cache) /\
  NFCService.parseTreasureFromPayload sample_platform 0
    (NFCService.generateQRData sample_platform (value_of labelled_cache))
  = Err "Failed to parse treasure format: SyntaxError: JSON Parse error".
Proof.
  split.
  - rewrite (qr_document_on_a_tag sample_platform 0 cache);
      [reflexivity | repeat constructor; vm_compute; reflexivity].
  - rewrite (qr_document_on_a_tag sample_platform 0 labelled_cache);
      [reflexivity | repeat constructor; vm_compute; reflexivity].
Defined.

End ReaderProperties.

(** * The NFC session *)

Section SessionFacts.
Import NFCSession.

Lemma session_always_run {S A : Type} (env : Env S) (p : Prog A)
  (post : list Event -> A -> Prop) :
  always p post ->
  forall s : S, post (snd (run env p s)) (fst (fst (run env p s))).
Proof.
  revert post. induction p as [a | X op k IH]; intros post Hp s.
  - exact Hp.
  - cbn [run fst snd]. apply (IH _ _ (Hp _)).
Qed.

Lemma session_always_mono {A : Type} (p : Prog A)
  (post post' : list Event -> A -> Prop) :
  (forall trace a, post trace a -> post' trace a) ->
  always p post -> always p post'.
Proof.
  revert post post'. induction p as [a | X op k IH]; intros post post' Himp Hp.
  - apply Himp, Hp.
  - intros x. apply (IH x _ _ (fun trace a => Himp (event op x :: trace) a)), Hp.
Qed.

Lemma session_always_pbind {A B : Type} (p : Prog A) (f : A -> Prog B)
  (post : list Event -> B -> Prop) :
  always p (fun trace a => always (f a) (fun trace' b => post (trace ++ trace')%list b)) ->
  always (pbind p f) post.
Proof.
  revert post. induction p as [a | X op k IH]; intros post Hp.
  - exact Hp.
  - intros x. cbn [pbind]. apply IH. exact (Hp x).
Qed.

Ltac open_session :=
  unfold readNFCTag, startNFCSessionWithProgress, readTreasureFromNFC, read_steps,
    cleanup, initialize, checkNFCAvailability, device_support, report,
    finally, bind, try_catch, await, ask, this_isInitialized, set_isInitialized,
    ret, throw.

Ltac session_step post :=
  cbn -[post NFC.NFCService.processNFCTag String.append String.eqb
        JS.SerializeJSONObject JS.ToBoolean NFC.property text_of_thrown].

Ltac session_case :=
  match goal with
  | |- context [negb ?b] => is_var b; destruct b
  | |- context [match ?x with _ => _ end] =>
      first [ is_var x; destruct x | destruct x eqn:? ]
  | |- context [if ?x then _ else _] =>
      first [ is_var x; destruct x | destruct x eqn:? ]
  end.

Ltac session_walk post :=
  repeat first
    [ progress session_step post
    | match goal with |- forall _, _ => intros ? end
    | session_case ].

Ltac session_leaf :=
  intros; cbn in *;
  repeat first
    [ reflexivity
    | discriminate
    | assumption
    | match goal with
      | |- _ /\ _ => split
      | |- _ <-> _ => split
      | |- exists _, _ => eexists
      | |- forall _, _ => intros
      | H : _ /\ _ |- _ => destruct H
      | H : exists _, _ |- _ => destruct H
      | H : _ \/ _ |- _ => destruct H
      | |- _ \/ _ => first [ left; reflexivity | right ]
      end ].

Lemma checkNFCAvailability_runs (pf : NFC.Platform) (isLibraryAvailable : bool)
  (OS : string) (i : bool) :
  always (checkNFCAvailability pf isLibraryAvailable OS i)
    (check_post isLibraryAvailable i).
Proof.
  open_session. session_walk check_post.
  all: unfold check_post, consistent; session_leaf.
Qed.

Lemma initialize_runs (pf : NFC.Platform) (isLibraryAvailable : bool)
  (OS : string) (i : bool) :
  always (initialize pf isLibraryAvailable OS i) (initialize_post i).
Proof.
  open_session. session_walk initialize_post.
  all: unfold initialize_post; session_leaf.
Qed.

Ltac told n := exists n; split; [lia | reflexivity].

Lemma read_body_runs (pf : NFC.Platform) (isLibraryAvailable : bool)
  (OS : string) (now : float) (callback i : bool) :
  always (try_catch (read_steps pf isLibraryAvailable OS now callback)
            (fun error_ =>
               bind (report callback (failed_with error_))
                 (fun _ : unit => throw error_)) i)
    (read_post pf isLibraryAvailable now callback).
Proof.
  open_session. session_walk read_post.
  all: unfold read_post, read_from_tag, told_of; cbn [fst snd].
  all: split; [reflexivity | split; [reflexivity |]].
  all: try (eexists; repeat split; try reflexivity; eassumption).
  all: intros Hcallback Hreturned;
    try discriminate Hcallback; try discriminate Hreturned.
  all: try (first [ told 1%nat | told 2%nat | told 3%nat | told 4%nat
                  | told 5%nat ]).
Qed.

Lemma readTreasureFromNFC_runs (pf : NFC.Platform) (isLibraryAvailable : bool)
  (OS : string) (now : float) (callback i : bool) :
  always (readTreasureFromNFC pf isLibraryAvailable OS now callback i)
    (fun trace out =>
       exists before x,
         trace = (before ++ [event cancelTechnologyRequest x])%list /\
         read_post pf isLibraryAvailable now callback before out).
Proof.
  unfold readTreasureFromNFC, finally. apply session_always_pbind.
  eapply session_always_mono;
    [| apply (read_body_runs pf isLibraryAvailable OS now callback i)].
  intros before [r i'] Hpost. cbn. intros x.
  destruct x as [[] | t]; cbn; exists before; eexists; (split; [reflexivity |]);
    exact Hpost.
Qed.

Lemma tags_app (t1 t2 : list Event) : tags (t1 ++ t2) = (tags t1 ++ tags t2)%list.
Proof. apply flat_map_app. Qed.

Lemma reported_app (t1 t2 : list Event) :
  reported (t1 ++ t2) = (reported t1 ++ reported t2)%list.
Proof. apply flat_map_app. Qed.

Lemma callbacks_returned_app (t1 t2 : list Event) :
  callbacks_returned (t1 ++ t2) = callbacks_returned t1 && callbacks_returned t2.
Proof. apply forallb_app. Qed.

Lemma ready_with_more (supported enabled : bool) (trace : list Event) (e : Event) :
  is_request e = false ->
  ready_when_requested supported enabled (trace ++ [e])
  = ready_when_requested supported enabled trace.
Proof.
  intros He. revert supported enabled.
  induction trace as [| e' trace IH]; intros supported enabled; cbn.
  - now rewrite He.
  - destruct (is_request e'); [| apply IH].
    rewrite existsb_app. cbn. now rewrite He, !orb_false_r.
Qed.

(** What the check of a trace says of every [requestTechnology] in it. *)
Lemma ready_at_request (trace : list Event) :
  forall (supported enabled : bool),
    ready_when_requested supported enabled trace = true ->
    forall before x after,
      trace = (before ++ event requestTechnology x :: after)%list ->
      supported || existsb supported_answer before = true /\
      enabled || existsb enabled_answer before = true /\
      existsb is_request before = false /\
      existsb is_request after = false.
Proof.
  induction trace as [| e trace IH]; intros supported enabled Hready
    before x after Hsplit.
  - destruct before; discriminate Hsplit.
  - destruct before as [| b before]; cbn in Hsplit.
    + injection Hsplit as -> ->. cbn in Hready.
      apply andb_true_iff in Hready as [Hready Hafter].
      apply andb_true_iff in Hready as [-> ->].
      apply negb_true_iff in Hafter. now rewrite Hafter.
    + injection Hsplit as -> ->. cbn [ready_when_requested] in Hready.
      destruct (is_request b) eqn:Hb.
      * apply andb_true_iff in Hready as [_ Hnone].
        apply negb_true_iff in Hnone. rewrite existsb_app in Hnone.
        cbn in Hnone. now rewrite orb_true_r in Hnone.
      * destruct (IH _ _ Hready before x after eq_refl) as (Hs & He & Hb' & Ha).
        cbn [existsb]. rewrite Hb, Hb'.
        rewrite <- orb_assoc in Hs, He. now rewrite Hs, He, Ha.
Qed.

Lemma readNFCTag_runs (pf : NFC.Platform) (isLibraryAvailable : bool)
  (OS : string) (now : float) (i : bool) :
  always (readNFCTag pf isLibraryAvailable OS now i)
    (fun trace out =>
       released trace /\
       exists answer_ i',
         out = (resolved answer_, i') /\
         forall text_, answer_ = Some text_ ->
           exists treasureData,
             read_from_tag pf isLibraryAvailable now false trace treasureData i' /\
             text_ = JS.SerializeJSONObject (NFC.runtime pf)
                       [("treasureId", NFC.property treasureData "treasureId");
                        ("coordinates", NFC.property treasureData "coordinates")]).
Proof.
  unfold readNFCTag, try_catch, bind. apply session_always_pbind.
  apply session_always_pbind.
  eapply session_always_mono;
    [| apply (readTreasureFromNFC_runs pf isLibraryAvailable OS now false i)].
  intros trace [[treasureData | t] i'] (before & x & -> & Hcancel & Hready & Hread);
    cbn [fst snd] in *.
  - destruct (JS.ToBoolean treasureData); cbn; rewrite !app_nil_r.
    + split; [exists before, x; split; [reflexivity | assumption] |].
      do 2 eexists. split; [reflexivity |].
      intros text_ [= <-]. exists treasureData. split; [| reflexivity].
      destruct Hread as (tag & Htags & Htag & Hinit & Hreported & Hlib & Hreq).
      exists tag. rewrite tags_app, reported_app, existsb_app, Htags, Hreported, Hreq.
      cbn. repeat split; assumption.
    + split; [exists before, x; split; [reflexivity | assumption] |].
      do 2 eexists. split; [reflexivity | discriminate].
  - cbn. rewrite !app_nil_r.
    split; [exists before, x; split; [reflexivity | assumption] |].
    do 2 eexists. split; [reflexivity | discriminate].
Qed.

Lemma cleanup_runs (i : bool) :
  always (cleanup i)
    (fun trace out => out = (resolved tt, false) /\
                      existsb is_request trace = false /\
                      (i = false -> trace = [])).
Proof.
  open_session. destruct i; cbn; repeat (intros [[] | ?]; cbn);
    repeat split; try reflexivity; discriminate.
Qed.

Lemma idle_nil : idle [].
Proof. split; reflexivity. Qed.

Lemma idle_cons (e : Event) (trace : list Event) :
  is_request e = false -> is_cancel e = false -> idle trace -> idle (e :: trace).
Proof.
  intros Hr Hc [Hrs Hcs]. split; cbn; [now rewrite Hr | now rewrite Hc].
Qed.

Lemma given_back_last (c : answer unit) :
  given_back [event cancelTechnologyRequest c].
Proof. exists [], c. split; [reflexivity | apply idle_nil]. Qed.

Lemma given_back_cons (e : Event) (trace : list Event) :
  is_request e = false -> is_cancel e = false ->
  given_back trace -> given_back (e :: trace).
Proof.
  intros Hr Hc (between & c & -> & Hidle).
  exists (e :: between), c. split; [reflexivity | now apply idle_cons].
Qed.

Lemma paired_request (x : answer unit) (trace : list Event) :
  given_back trace -> paired (event requestTechnology x :: trace).
Proof.
  intros H. right. exists [], x, trace. split; [reflexivity |].
  split; [apply idle_nil | exact H].
Qed.

Lemma paired_cons (e : Event) (trace : list Event) :
  is_request e = false -> is_cancel e = false ->
  paired trace -> paired (e :: trace).
Proof.
  intros Hr Hc [Hidle | (before & x & after & -> & Hidle & Hback)].
  - left. now apply idle_cons.
  - right. exists (e :: before), x, after. split; [reflexivity |].
    split; [now apply idle_cons | exact Hback].
Qed.

Ltac pairing :=
  repeat first
    [ apply given_back_last
    | apply given_back_cons; [reflexivity | reflexivity |]
    | apply paired_request
    | apply paired_cons; [reflexivity | reflexivity |]
    | left; apply idle_nil ].

Lemma attemptNFCRead_runs (pf : NFC.Platform) (isLibraryAvailable : bool)
  (OS : string) (now : float) (i : bool) :
  always (attemptNFCRead pf isLibraryAvailable OS now i) (attempt_post pf now).
Proof.
  unfold attemptNFCRead. open_session.
  session_walk attempt_post.
  all: unfold attempt_post; cbn [fst snd]; (split; [pairing |]).
  all: intros treasureData Hout; try discriminate Hout.
  all: injection Hout as <-; eexists; repeat split; try reflexivity; eassumption.
Qed.

End SessionFacts.

Section SessionProperties.
Import NFCSession SessionSamples.

(** X21.  [readTreasureFromNFC] always gives the NFC session back: in
    every run, whether it resolves or rejects and whatever [NfcManager]
    and the callback answer, [cancelTechnologyRequest] is called exactly
    once, and it is the last thing the method does. *)
Theorem readTreasureFromNFC_releases_the_session :
  forall (pf : NFC.Platform) (isLibraryAvailable : bool) (OS : string)
         (now : float) (callback initialized : bool)
         (S : Type) (env : Env S) (s : S),
    released
      (snd (run env
              (readTreasureFromNFC pf isLibraryAvailable OS now callback initialized)
              s)).
Proof.
  intros pf isLibraryAvailable OS now callback initialized S env s.
  destruct (session_always_run env _ _
              (readTreasureFromNFC_runs pf isLibraryAvailable OS now callback
                 initialized) s)
    as (before & x & Htrace & Hcancel & _).
  exists before, x. split; assumption.
Qed.

(** X22.  A [readTreasureFromNFC] that resolves returns what
    [processNFCTag] makes of the one tag that [getTag] answered with; the
    library is loaded, the technology was requested, the class is
    initialized afterwards, and a callback has been told the six steps
    from 10 to 100 in order, and nothing else. *)
Theorem readTreasureFromNFC_resolves_with_the_tag :
  forall (pf : NFC.Platform) (isLibraryAvailable : bool) (OS : string)
         (now : float) (callback initialized : bool)
         (S : Type) (env : Env S) (s : S)
         (treasureData : JS.Value) (initialized' : bool),
    fst (fst (run env
                (readTreasureFromNFC pf isLibraryAvailable OS now callback initialized)
                s))
    = (resolved treasureData, initialized') ->
    read_from_tag pf isLibraryAvailable now callback
      (snd (run env
              (readTreasureFromNFC pf isLibraryAvailable OS now callback initialized)
              s))
      treasureData initialized'.
Proof.
  intros pf isLibraryAvailable OS now callback initialized S env s
    treasureData initialized' Hout.
  destruct (session_always_run env _ _
              (readTreasureFromNFC_runs pf isLibraryAvailable OS now callback
                 initialized) s)
    as (before & x & -> & _ & _ & Hread).
  rewrite Hout in Hread. cbn [fst snd] in Hread.
  destruct Hread as (tag & Htags & Htag & Hinit & Hreported & Hlib & Hreq).
  exists tag. unfold read_from_tag.
  rewrite tags_app, reported_app, existsb_app, Htags, Hreported, Hreq.
  cbn. rewrite !app_nil_r. repeat split; assumption.
Qed.

Lemma readTreasureFromNFC_resolves_with_the_tag_witness :
  fst (fst (run (phone_with_nfc true) first_read tt))
  = (resolved Samples.tag_treasure, true) /\
  read_from_tag Samples.sample_platform true 0 true
    (snd (run (phone_with_nfc true) first_read tt)) Samples.tag_treasure true.
Proof.
  split; [vm_compute; reflexivity |].
  apply (readTreasureFromNFC_resolves_with_the_tag Samples.sample_platform true
           "android" 0 true false unit (phone_with_nfc true) tt).
  vm_compute. reflexivity.
Defined.

(** X23.  A [readTreasureFromNFC] that rejects has told its callback,
    when it has one and the callback returns every time: the first
    steps in order, at least the first and at most five, and then once
    the status error with progress 0 and the message of what it rejects
    with ("Unknown NFC error" when that is not an [Error]). *)
Theorem readTreasureFromNFC_reports_the_failure :
  forall (pf : NFC.Platform) (isLibraryAvailable : bool) (OS : string)
         (now : float) (initialized : bool)
         (S : Type) (env : Env S) (s : S)
         (t : Thrown) (initialized' : bool),
    fst (fst (run env
                (readTreasureFromNFC pf isLibraryAvailable OS now true initialized)
                s))
    = (rejected t, initialized') ->
    callbacks_returned
      (snd (run env
              (readTreasureFromNFC pf isLibraryAvailable OS now true initialized)
              s)) = true ->
    exists n,
      (1 <= n <= 5)%nat /\
      reported
        (snd (run env
                (readTreasureFromNFC pf isLibraryAvailable OS now true initialized)
                s))
      = (firstn n steps ++ [failed_with t])%list.
Proof.
  intros pf isLibraryAvailable OS now initialized S env s t initialized'
    Hout Hreturned.
  destruct (session_always_run env _ _
              (readTreasureFromNFC_runs pf isLibraryAvailable OS now true
                 initialized) s)
    as (before & x & Htrace & _ & _ & Htold).
  rewrite Hout in Htold. cbn [fst snd] in Htold.
  rewrite Htrace in Hreturned |- *.
  rewrite callbacks_returned_app in Hreturned.
  apply andb_true_iff in Hreturned as [Hreturned _].
  destruct (Htold eq_refl Hreturned) as (n & Hn & Hreported).
  exists n. split; [exact Hn |].
  rewrite reported_app, Hreported. cbn. now rewrite app_nil_r.
Qed.

Lemma readTreasureFromNFC_reports_the_failure_witness :
  exists n,
    (1 <= n <= 5)%nat /\
    reported (snd (run (phone_with_nfc false) first_read tt))
    = (firstn n steps
       ++ [failed_with
             (Error "NFC is disabled. Please enable NFC in device settings")])%list.
Proof.
  apply (readTreasureFromNFC_reports_the_failure Samples.sample_platform true
           "android" 0 false unit (phone_with_nfc false) tt
           (Error "NFC is disabled. Please enable NFC in device settings") false);
    vm_compute; reflexivity.
Defined.

(** X24.  [readTreasureFromNFC] requests the NFC technology at most
    once, and only after [isSupported] and [isEnabled] have both answered
    [true]. *)
Theorem technology_is_requested_when_ready :
  forall (pf : NFC.Platform) (isLibraryAvailable : bool) (OS : string)
         (now : float) (callback initialized : bool)
         (S : Type) (env : Env S) (s : S)
         (before after : list Event) (x : answer unit),
    snd (run env
           (readTreasureFromNFC pf isLibraryAvailable OS now callback initialized)
           s)
    = (before ++ event requestTechnology x :: after)%list ->
    existsb supported_answer before = true /\
    existsb enabled_answer before = true /\
    existsb is_request before = false /\
    existsb is_request after = false.
Proof.
  intros pf isLibraryAvailable OS now callback initialized S env s
    before after x Hsplit.
  destruct (session_always_run env _ _
              (readTreasureFromNFC_runs pf isLibraryAvailable OS now callback
                 initialized) s)
    as (body & c & Htrace & _ & Hready & _).
  rewrite Htrace in Hsplit.
  rewrite <- (ready_with_more _ _ body (event cancelTechnologyRequest c) eq_refl)
    in Hready.
  exact (ready_at_request _ false false Hready before x after Hsplit).
Qed.

Lemma technology_is_requested_when_ready_witness :
  existsb supported_answer
    [event (onProgress checking) (resolved tt);
     event isSupported (resolved true); event isEnabled (resolved true);
     event (onProgress starting) (resolved tt);
     event isSupported (resolved true); event isEnabled (resolved true);
     event start (resolved tt);
     event (onProgress asking) (resolved tt)] = true.
Proof.
  apply (technology_is_requested_when_ready Samples.sample_platform true
           "android" 0 true false unit (phone_with_nfc true) tt
           [event (onProgress checking) (resolved tt);
            event isSupported (resolved true); event isEnabled (resolved true);
            event (onProgress starting) (resolved tt);
            event isSupported (resolved true); event isEnabled (resolved true);
            event start (resolved tt);
            event (onProgress asking) (resolved tt)]
           [event (onProgress waiting) (resolved tt);
            event getTag (resolved (Some Samples.text_record_tag));
            event (onProgress reading) (resolved tt);
            event (onProgress discovered) (resolved tt);
            event cancelTechnologyRequest (resolved tt)]
           (resolved tt)).
  vm_compute. reflexivity.
Defined.

(** X25.  [checkNFCAvailability] never rejects and leaves
    [isInitialized] as it is; it calls nothing but [isSupported], [start]
    and [isEnabled].  Its flags agree: the library is reported loaded
    exactly when it is; the device is reported supported only when
    [isSupported] answered [true]; NFC is reported enabled only on a
    supported device when [isEnabled] answered [true], with the details
    "NFC is ready"; and there is no error exactly when the device is
    supported and [isEnabled] answered. *)
Theorem checkNFCAvailability_is_consistent :
  forall (pf : NFC.Platform) (isLibraryAvailable : bool) (OS : string)
         (initialized : bool) (S : Type) (env : Env S) (s : S),
  exists availability,
    fst (fst (run env (checkNFCAvailability pf isLibraryAvailable OS initialized) s))
    = (resolved availability, initialized) /\
    forallb is_probe
      (snd (run env (checkNFCAvailability pf isLibraryAvailable OS initialized) s))
    = true /\
    consistent isLibraryAvailable
      (snd (run env (checkNFCAvailability pf isLibraryAvailable OS initialized) s))
      availability.
Proof.
  intros pf isLibraryAvailable OS initialized S env s.
  exact (session_always_run env _ _
           (checkNFCAvailability_runs pf isLibraryAvailable OS initialized) s).
Qed.

(** X26.  The legacy [readNFCTag] never rejects, and gives the NFC
    session back as [readTreasureFromNFC] does.  When it returns a text,
    that is the JSON text of the [treasureId] and the [coordinates] of
    what [processNFCTag] made of the tag that was read; every failure is
    returned as [null]. *)
Theorem readNFCTag_never_rejects :
  forall (pf : NFC.Platform) (isLibraryAvailable : bool) (OS : string)
         (now : float) (initialized : bool) (S : Type) (env : Env S) (s : S),
    released (snd (run env (readNFCTag pf isLibraryAvailable OS now initialized) s)) /\
    exists answer_ initialized',
      fst (fst (run env (readNFCTag pf isLibraryAvailable OS now initialized) s))
      = (resolved answer_, initialized') /\
      forall text_, answer_ = Some text_ ->
        exists treasureData,
          read_from_tag pf isLibraryAvailable now false
            (snd (run env (readNFCTag pf isLibraryAvailable OS now initialized) s))
            treasureData initialized' /\
          text_ = JS.SerializeJSONObject (NFC.runtime pf)
                    [("treasureId", NFC.property treasureData "treasureId");
                     ("coordinates", NFC.property treasureData "coordinates")].
Proof.
  intros pf isLibraryAvailable OS now initialized S env s.
  exact (session_always_run env _ _
           (readNFCTag_runs pf isLibraryAvailable OS now initialized) s).
Qed.

(** X27.  [initialize] and [cleanup] never reject and never request the
    technology.  [initialize] returns [true] only with the class
    initialized, leaves the flag as it is when it returns [false], and
    calls nothing when the class is initialized already.  After
    [cleanup] the class is not initialized, and [cleanup] calls nothing
    when it was not. *)
Theorem initialize_and_cleanup_never_reject :
  forall (pf : NFC.Platform) (isLibraryAvailable : bool) (OS : string)
         (initialized : bool) (S : Type) (env : Env S) (s : S),
    (exists (b initialized' : bool),
        fst (fst (run env (initialize pf isLibraryAvailable OS initialized) s))
        = (resolved b, initialized') /\
        (b = true -> initialized' = true) /\
        (b = false -> initialized' = initialized) /\
        forallb is_probe
          (snd (run env (initialize pf isLibraryAvailable OS initialized) s)) = true /\
        (initialized = true ->
         snd (run env (initialize pf isLibraryAvailable OS initialized) s) = [] /\
         b = true)) /\
    fst (fst (run env (cleanup initialized) s)) = (resolved tt, false) /\
    existsb is_request (snd (run env (cleanup initialized) s)) = false /\
    (initialized = false -> snd (run env (cleanup initialized) s) = []).
Proof.
  intros pf isLibraryAvailable OS initialized S env s. split.
  - exact (session_always_run env _ _
             (initialize_runs pf isLibraryAvailable OS initialized) s).
  - exact (session_always_run env _ _ (cleanup_runs initialized) s).
Qed.

Lemma initialize_and_cleanup_never_reject_witness :
  fst (fst (run (phone_with_nfc true)
              (initialize Samples.sample_platform true "android" true) tt))
  = (resolved true, true) /\
  snd (run (phone_with_nfc true)
         (initialize Samples.sample_platform true "android" true) tt) = [] /\
  snd (run (phone_with_nfc true) (cleanup false) tt) = [].
Proof.
  destruct (initialize_and_cleanup_never_reject Samples.sample_platform true
              "android" true unit (phone_with_nfc true) tt)
    as ((b & i' & Hout & _ & _ & _ & Hquiet) & _).
  destruct (initialize_and_cleanup_never_reject Samples.sample_platform true
              "android" false unit (phone_with_nfc true) tt)
    as (_ & _ & _ & Hclean).
  split; [reflexivity |]. split; [apply Hquiet | apply Hclean]; reflexivity.
Defined.

Lemma readNFCTag_never_rejects_witness :
  exists treasureData,
    read_from_tag Samples.sample_platform true 0 false
      (snd (run (phone_with_nfc true)
              (readNFCTag Samples.sample_platform true "android" 0 false) tt))
      treasureData true /\
    Samples.dq "{'treasureId':'treasure-7','coordinates':'21.0285,105.8542'}"
    = JS.SerializeJSONObject Samples.sample_runtime
        [("treasureId", NFC.property treasureData "treasureId");
         ("coordinates", NFC.property treasureData "coordinates")].
Proof.
  destruct (readNFCTag_never_rejects Samples.sample_platform true "android" 0
              false unit (phone_with_nfc true) tt)
    as (_ & a & i' & Hout & Htext).
  assert (fst (fst (run (phone_with_nfc true)
                      (readNFCTag Samples.sample_platform true "android" 0 false)
                      tt))
          = (resolved
               (Some (Samples.dq
                        "{'treasureId':'treasure-7','coordinates':'21.0285,105.8542'}")),
             true)) as Hrun by (vm_compute; reflexivity).
  rewrite Hrun in Hout. injection Hout as <- <-.
  apply Htext. reflexivity.
Defined.

(** X28.  [attemptNFCRead] of [AlternativeNFCService] gives the NFC
    technology back exactly when it has requested it: a run calls
    neither [requestTechnology] nor [cancelTechnologyRequest], or it
    requests once and cancels once, as its last call.  When it resolves,
    it has requested the technology and returns what [processNFCTag] of
    that service makes of the one tag that [getTag] answered with, and
    the class is initialized. *)
Theorem attemptNFCRead_gives_back_what_it_requested :
  forall (pf : NFC.Platform) (isLibraryAvailable : bool) (OS : string)
         (now : float) (initialized : bool) (S : Type) (env : Env S) (s : S),
    paired (snd (run env (attemptNFCRead pf isLibraryAvailable OS now initialized) s)) /\
    forall treasureData,
      fst (fst (fst (run env (attemptNFCRead pf isLibraryAvailable OS now initialized) s)))
      = resolved treasureData ->
      exists tag,
        tags (snd (run env (attemptNFCRead pf isLibraryAvailable OS now initialized) s))
        = [tag] /\
        NFC.AlternativeNFCService.processNFCTag pf now tag = Ok treasureData /\
        snd (fst (fst (run env (attemptNFCRead pf isLibraryAvailable OS now initialized) s)))
        = true /\
        existsb is_request
          (snd (run env (attemptNFCRead pf isLibraryAvailable OS now initialized) s))
        = true.
Proof.
  intros pf isLibraryAvailable OS now initialized S env s.
  exact (session_always_run env _ _
           (attemptNFCRead_runs pf isLibraryAvailable OS now initialized) s).
Qed.

Lemma attemptNFCRead_gives_back_what_it_requested_witness :
  exists tag,
    tags (snd (run (phone_with_nfc true)
                 (attemptNFCRead Samples.sample_platform true "android" 0 false) tt))
    = [tag] /\
    NFC.AlternativeNFCService.processNFCTag Samples.sample_platform 0 tag
    = Ok Samples.tag_treasure /\
    snd (fst (fst (run (phone_with_nfc true)
                     (attemptNFCRead Samples.sample_platform true "android" 0 false)
                     tt)))
    = true /\
    existsb is_request
      (snd (run (phone_with_nfc true)
              (attemptNFCRead Samples.sample_platform true "android" 0 false) tt))
    = true.
Proof.
  destruct (attemptNFCRead_gives_back_what_it_requested Samples.sample_platform
              true "android" 0 false unit (phone_with_nfc true) tt) as [_ Hread].
  apply Hread. vm_compute. reflexivity.
Defined.

End SessionProperties.
(** * The friends of a hunter, and the experience of a level-up *)

Section FriendFacts.
Import HunterSlice.

Lemma find_friend_none (l : list HunterProfile) (ident : string) :
  List.find (fun f => String.eqb (id f) ident) l = None <->
  ~ In ident (map id l).
Proof.
  induction l as [| f l IH]; cbn; [tauto |].
  destruct (String.eqb_spec (id f) ident) as [E | E].
  - split; [discriminate | intros H; exfalso; apply H; now left].
  - rewrite IH. tauto.
Qed.

Lemma filter_friend_ids (l : list HunterProfile) (ident : string) :
  map id (List.filter (fun f => negb (String.eqb (id f) ident)) l)
  = List.filter (fun i => negb (String.eqb i ident)) (map id l).
Proof.
  induction l as [| f l IH]; cbn; [reflexivity |].
  destruct (String.eqb (id f) ident); cbn; now rewrite IH.
Qed.

Lemma filter_friend_absent (l : list HunterProfile) (ident : string) :
  ~ In ident (map id l) ->
  List.filter (fun f => negb (String.eqb (id f) ident)) l = l.
Proof.
  induction l as [| f l IH]; cbn; [reflexivity |].
  intros H. destruct (String.eqb_spec (id f) ident) as [E | E]; cbn.
  - exfalso. apply H. now left.
  - rewrite IH; [reflexivity | tauto].
Qed.

End FriendFacts.

Section SliceProperties.
Import HunterSlice Samples.

(** X11.  No two friends share an identifier: when the identifiers of
    the friends are pairwise distinct, they still are after [addFriend]
    and after [removeFriend], whatever the payload. *)
Theorem friends_keep_distinct_ids :
  forall (st : HunterState) (p : HunterProfile) (ident : string),
    NoDup (map id (friends st)) ->
    NoDup (map id (friends (addFriend st p))) /\
    NoDup (map id (friends (removeFriend st ident))).
Proof.
  intros st p ident Hunique. split.
  - unfold addFriend.
    destruct (List.find _ (friends st)) eqn:Hfind; [exact Hunique |].
    apply find_friend_none in Hfind. cbn [friends with_friends].
    rewrite map_app. apply NoDup_app. split; [exact Hunique |]. split.
    + intros x Hx Hin. apply list_elem_of_In in Hin. destruct Hin as [<- | []].
      apply Hfind. now apply list_elem_of_In.
    + cbn. apply NoDup_singleton.
  - cbn [removeFriend friends with_friends]. rewrite filter_friend_ids.
    revert Hunique. generalize (map id (friends st)). intros l.
    induction 1 as [| x l Hx Hl IH]; cbn; [constructor |].
    destruct (negb (String.eqb x ident)); [| exact IH].
    constructor; [| exact IH].
    intros Hin. apply Hx. apply list_elem_of_In.
    apply list_elem_of_In in Hin. apply filter_In in Hin. tauto.
Qed.

Lemma friends_keep_distinct_ids_witness :
  NoDup (map id (friends (addFriend (addFriend initialState mai) linh))) /\
  NoDup (map id (friends (removeFriend (addFriend initialState mai) (id mai)))).
Proof.
  split.
  - apply (friends_keep_distinct_ids (addFriend initialState mai) linh (id mai)).
    apply (friends_keep_distinct_ids initialState mai (id mai)). constructor.
  - apply (friends_keep_distinct_ids (addFriend initialState mai) linh (id mai)).
    apply (friends_keep_distinct_ids initialState mai (id mai)). constructor.
Defined.

(** X12.  [removeFriend] with the identifier of a hunter undoes the
    [addFriend] of that hunter: the state is the one that [removeFriend]
    gives without the [addFriend], and it is the state before the
    [addFriend] when no friend had that identifier. *)
Theorem removeFriend_undoes_addFriend :
  forall (st : HunterState) (p : HunterProfile),
    removeFriend (addFriend st p) (id p) = removeFriend st (id p) /\
    (~ In (id p) (map id (friends st)) ->
     removeFriend (addFriend st p) (id p) = st).
Proof.
  intros st p.
  assert (removeFriend (addFriend st p) (id p) = removeFriend st (id p)) as Hsame.
  { unfold addFriend.
    destruct (List.find _ (friends st)) eqn:Hfind; [reflexivity |].
    unfold removeFriend, with_friends. cbn.
    rewrite List.filter_app. cbn. rewrite String.eqb_refl. cbn.
    now rewrite app_nil_r. }
  split; [exact Hsame |].
  intros Hfresh. rewrite Hsame. unfold removeFriend.
  rewrite (filter_friend_absent _ _ Hfresh). now destruct st.
Qed.

Lemma removeFriend_undoes_addFriend_witness :
  removeFriend (addFriend (addFriend initialState linh) mai) (id mai)
  = addFriend initialState linh.
Proof.
  apply (removeFriend_undoes_addFriend (addFriend initialState linh) mai).
  vm_compute. intros [H | []]. discriminate H.
Defined.

(** X13.  [addFriend] never refreshes a friend: with a payload whose
    identifier is that of a friend, it leaves the state as it is, whatever
    else the payload holds.  After [addFriend] of a hunter, that is the
    case of every payload with the identifier of that hunter. *)
Theorem addFriend_keeps_the_first_record :
  forall (st : HunterState) (p q : HunterProfile),
    id q = id p ->
    (In (id p) (map id (friends st)) -> addFriend st q = st) /\
    addFriend (addFriend st p) q = addFriend st p.
Proof.
  intros st p q Hid.
  assert (forall s, In (id p) (map id (friends s)) -> addFriend s q = s) as Hkept.
  { intros s Hin. unfold addFriend. rewrite Hid.
    destruct (List.find _ (friends s)) eqn:Hfind; [reflexivity |].
    apply find_friend_none in Hfind. contradiction. }
  split; [apply Hkept |].
  apply Hkept. unfold addFriend.
  destruct (List.find _ (friends st)) eqn:Hfind.
  - apply List.find_some in Hfind as [Hin Heq].
    apply String.eqb_eq in Heq. rewrite <- Heq. now apply in_map.
  - cbn. rewrite map_app. apply in_or_app. right. now left.
Qed.

Lemma addFriend_keeps_the_first_record_witness :
  addFriend (addFriend initialState mai) mai_renamed = addFriend initialState mai.
Proof.
  apply (addFriend_keeps_the_first_record initialState mai mai_renamed).
  reflexivity.
Defined.



(** X29.  The rarity of a treasure is shown alike everywhere:
    [getRarityInfo] of [NFCService] gives, for every number, the name of
    [getRarityName] and the colour of [getRarityColor].  The colour that
    [getRankColor] gives to the name of a rank of [getRankInfo] is the
    colour of [getRankInfo], for every number but 4, whose name "Master
    Hunter" [getRankColor] does not know. *)
Theorem rarity_and_rank_are_shown_alike :
  (forall rarity : float,
      NFC.info_name (NFC.NFCService.getRarityInfo rarity)
      = Helpers.getRarityName rarity /\
      NFC.info_color (NFC.NFCService.getRarityInfo rarity)
      = Helpers.getRarityColor rarity) /\
  (forall rank : float,
      (rank =? 4)%float = false ->
      Helpers.getRankColor (NFC.info_name (NFC.NFCService.getRankInfo rank))
      = NFC.info_color (NFC.NFCService.getRankInfo rank)).
Proof.
  split.
  - intros rarity.
    unfold NFC.NFCService.getRarityInfo, Helpers.getRarityName,
      Helpers.getRarityColor.
    destruct (rarity =? 3)%float; [split; reflexivity |].
    destruct (rarity =? 2)%float; [split; reflexivity |].
    destruct (rarity =? 1)%float; split; reflexivity.
  - intros rank Hrank. unfold NFC.NFCService.getRankInfo. rewrite Hrank.
    destruct (rank =? 3)%float; [reflexivity |].
    destruct (rank =? 2)%float; [reflexivity |].
    destruct (rank =? 1)%float; reflexivity.
Qed.

Lemma rarity_and_rank_are_shown_alike_witness :
  Helpers.getRankColor (NFC.info_name (NFC.NFCService.getRankInfo 3))
  = NFC.info_color (NFC.NFCService.getRankInfo 3).
Proof.
  apply (rarity_and_rank_are_shown_alike). reflexivity.
Defined.

(** X30.  For a whole number of treasures, the number that
    [getNextRankRequirement] reports as still needed is never negative
    and never grows as the treasures grow, whatever the rank is called;
    it is at most 50 when the treasures are not negative; and with 50
    treasures or more it is 0, unless the rank is none of the four names
    the helper knows, for which the answer is always Explorer and 5. *)
Theorem treasures_needed_counts_down :
  forall (rank : string) (n m : Z),
    n <= m ->
    0 <= Helpers.treasuresNeeded (Helpers.getNextRankRequirement rank m)
    <= Helpers.treasuresNeeded (Helpers.getNextRankRequirement rank n) /\
    (0 <= n -> Helpers.treasuresNeeded (Helpers.getNextRankRequirement rank n) <= 50) /\
    (50 <= n ->
     Helpers.treasuresNeeded (Helpers.getNextRankRequirement rank n) = 0 \/
     Helpers.getNextRankRequirement rank n
     = {| Helpers.nextRank := "Explorer"; Helpers.treasuresNeeded := 5 |}).
Proof.
  intros rank n m Hnm. unfold Helpers.getNextRankRequirement.
  destruct (String.eqb (toLowerCase rank) "beginner"); [cbn; lia |].
  destruct (String.eqb (toLowerCase rank) "explorer"); [cbn; lia |].
  destruct (String.eqb (toLowerCase rank) "hunter"); [cbn; lia |].
  destruct (String.eqb (toLowerCase rank) "master"); cbn; [lia |].
  repeat split; try lia. intros _. right. reflexivity.
Qed.

Lemma treasures_needed_counts_down_witness :
  0 <= Helpers.treasuresNeeded (Helpers.getNextRankRequirement "Explorer" 19)
  <= Helpers.treasuresNeeded (Helpers.getNextRankRequirement "Explorer" 4).
Proof.
  apply (treasures_needed_counts_down "Explorer" 4 19). lia.
Defined.

End SliceProperties.

(** * The treasure slice *)

Ltac unfold_slice :=
  cbn -[TreasureSlice.find_treasure TreasureSlice.without
        TreasureSlice.found TreasureSlice.closed].

Section TreasureFacts.
Import TreasureSlice.

Lemma find_without (ident : string) (l : list Treasure) :
  find_treasure ident (without ident l) = None.
Proof.
  unfold find_treasure, without.
  induction l as [| t l IH]; cbn; [reflexivity |].
  destruct (String.eqb (id t) ident) eqn:E; cbn; [exact IH |].
  now rewrite E.
Qed.

Lemma find_treasure_id (ident : string) (l : list Treasure) (t : Treasure) :
  find_treasure ident l = Some t -> id t = ident.
Proof.
  intros H. apply List.find_some in H as [_ H]. now apply String.eqb_eq.
Qed.

Lemma without_ids (ident : string) (l : list Treasure) :
  ~ In ident (map id (without ident l)).
Proof.
  unfold without. induction l as [| t l IH]; cbn; [tauto |].
  destruct (String.eqb_spec (id t) ident) as [E | E]; cbn; [exact IH |].
  tauto.
Qed.

Lemma found_flagged (at_time : string) (by_hunter : option string) (t : Treasure) :
  flagged (found at_time by_hunter t).
Proof. split; [reflexivity | discriminate]. Qed.

Lemma Forall_snoc {A : Type} (P : A -> Prop) (l : list A) (x : A) :
  Forall P l -> P x -> Forall P (l ++ [x]).
Proof. intros Hl Hx. apply Forall_app. split; [exact Hl | now apply Forall_cons_2]. Qed.

(** Found treasures stay flagged and the history stays closed under
    every action. *)
Lemma reducer_keeps_records (st : TreasureState) (a : Action) :
  Forall flagged (foundTreasures st) /\ Forall over (huntHistory st) ->
  Forall flagged (foundTreasures (reducer st a)) /\
  Forall over (huntHistory (reducer st a)).
Proof.
  intros [Hfound Hhistory].
  destruct a; cbn [reducer]; try (split; assumption).
  - unfold markTreasureFound.
    destruct (find_treasure ident (nearbyTreasures st)); unfold_slice; [| now split].
    split; [| exact Hhistory]. apply Forall_snoc; [exact Hfound |].
    apply found_flagged.
  - unfold revealClue. destruct (currentTreasure st); [| now split].
    destruct (String.eqb (id t) ident); now split.
  - unfold updateHuntProgress. destruct (activeHunt st); now split.
  - unfold useHint. destruct (activeHunt st); now split.
  - unfold abandonHunt. destruct (activeHunt st); unfold_slice; [| now split].
    split; [exact Hfound |]. apply Forall_snoc; [exact Hhistory | discriminate].
  - unfold addTreasureToNearby.
    destruct (find_treasure (id payload) (nearbyTreasures st)); now split.
  - unfold_slice. split; constructor.
  - unfold startTreasureHunt_fulfilled. unfold_slice.
    destruct (find_treasure (treasureId payload) (nearbyTreasures st)); now split.
  - unfold completeTreasureHunt_fulfilled. unfold_slice.
    destruct (activeHunt st); unfold_slice; [| now split].
    assert (over (closed (if success payload then completed else failed)
                    (Some (completion_completedAt payload)) t)) as Hover.
    { unfold over. unfold_slice. destruct (success payload); discriminate. }
    destruct (success payload), (currentTreasure st); unfold_slice;
      (split; [| apply Forall_snoc; assumption]); try exact Hfound.
    apply Forall_snoc; [exact Hfound | apply found_flagged].
Qed.

Lemma find_in_without (ident other : string) (l : list Treasure) :
  find_treasure ident l = None -> find_treasure ident (without other l) = None.
Proof.
  unfold find_treasure, without.
  induction l as [| t l IH]; cbn; [reflexivity |].
  destruct (String.eqb (id t) ident) eqn:E; [discriminate |].
  intros H. destruct (negb (String.eqb (id t) other)); cbn; [rewrite E |]; auto.
Qed.

Lemma find_in_snoc (ident : string) (l : list Treasure) (t : Treasure) :
  find_treasure ident l = None -> String.eqb (id t) ident = false ->
  find_treasure ident (l ++ [t]) = None.
Proof.
  unfold find_treasure.
  induction l as [| x l IH]; cbn; intros H E; [now rewrite E |].
  destruct (String.eqb (id x) ident); [discriminate | auto].
Qed.

(** A treasure that is not on the nearby list stays off it under every
    action that does not list it again. *)
Lemma reducer_keeps_off (ident : string) (st : TreasureState) (a : Action) :
  find_treasure ident (nearbyTreasures st) = None ->
  relists ident a = false ->
  find_treasure ident (nearbyTreasures (reducer st a)) = None.
Proof.
  intros Hoff Ha.
  destruct a; cbn [reducer relists] in *; try exact Hoff.
  - unfold markTreasureFound.
    destruct (find_treasure ident0 (nearbyTreasures st)); unfold_slice;
      [now apply find_in_without | exact Hoff].
  - unfold revealClue. destruct (currentTreasure st); [| exact Hoff].
    destruct (String.eqb (id t) ident0); exact Hoff.
  - unfold updateHuntProgress. destruct (activeHunt st); exact Hoff.
  - unfold useHint. destruct (activeHunt st); exact Hoff.
  - unfold abandonHunt. destruct (activeHunt st); exact Hoff.
  - unfold addTreasureToNearby.
    destruct (find_treasure (id payload) (nearbyTreasures st)); [exact Hoff |].
    unfold_slice. now apply find_in_snoc.
  - unfold_slice. now apply find_in_without.
  - reflexivity.
  - reflexivity.
  - unfold_slice. destruct (find_treasure ident payload); [discriminate | reflexivity].
  - unfold startTreasureHunt_fulfilled. unfold_slice.
    destruct (find_treasure (treasureId payload) (nearbyTreasures st)); exact Hoff.
  - unfold completeTreasureHunt_fulfilled. unfold_slice.
    destruct (activeHunt st); unfold_slice; [| exact Hoff].
    destruct (success payload), (currentTreasure st); unfold_slice;
      try exact Hoff.
    now apply find_in_without.
Qed.

Lemma markTreasureFound_off (st : TreasureState) (ident now hunter : string) :
  find_treasure ident (nearbyTreasures (markTreasureFound now ident hunter st))
  = None.
Proof.
  unfold markTreasureFound.
  destruct (find_treasure ident (nearbyTreasures st)) eqn:Hfind;
    [apply find_without | exact Hfind].
Qed.

End TreasureFacts.

Section TreasureProperties.
Import TreasureSlice TreasureSamples.

(** X17.  In every state that the actions of the slice ([updateStats]
    apart, which writes the statistics only) reach from the initial
    state, every treasure of [foundTreasures] has [isFound] true and a
    [foundAt], and no hunt of [huntHistory] is active. *)
Theorem found_treasures_and_history_are_closed :
  forall actions : list Action,
    Forall flagged (foundTreasures (fold_left reducer actions initialState)) /\
    Forall over (huntHistory (fold_left reducer actions initialState)).
Proof.
  intros actions.
  assert (Forall flagged (foundTreasures initialState) /\
          Forall over (huntHistory initialState)) as Hinit.
  { split; constructor. }
  revert Hinit. generalize initialState.
  induction actions as [| a actions IH]; intros st Hst; [exact Hst |].
  cbn [fold_left]. apply IH. now apply reducer_keeps_records.
Qed.

(** X18.  A treasure is marked found once, until it is listed again.
    [markTreasureFound] for an identifier leaves no treasure with that
    identifier on the nearby list, and after any later actions of the
    slice of which none puts one back ([addTreasureToNearby] of a
    treasure with that identifier, or a finished [loadNearbyTreasures]
    whose list holds one), a further [markTreasureFound] for it, at any
    time and for any hunter, leaves the state as it is.  The slice does
    not keep a found treasure off the list: when the mock list is loaded
    again in between, the second [markTreasureFound] lists the treasure
    among the found a second time and counts it again. *)
Theorem markTreasureFound_once :
  forall (st : TreasureState) (ident now hunter now' hunter' : string)
         (later : list Action),
    (forallb (fun a => negb (relists ident a)) later = true ->
     markTreasureFound now' ident hunter'
       (fold_left reducer later (markTreasureFound now ident hunter st))
     = fold_left reducer later (markTreasureFound now ident hunter st)) /\
    markTreasureFound now' ident hunter' (markTreasureFound now ident hunter st)
    = markTreasureFound now ident hunter st /\
    (let again :=
       markTreasureFound now' "treasure_1" hunter'
         (fold_left reducer [LoadNearbyTreasuresFulfilled [temple]]
            (markTreasureFound now "treasure_1" hunter temple_nearby)) in
     occurrences "treasure_1" (foundTreasures again) = 2%nat /\
     totalFound (stats again) = 2%float).
Proof.
  intros st ident now hunter now' hunter' later.
  assert (forall s : TreasureState,
             find_treasure ident (nearbyTreasures s) = None ->
             markTreasureFound now' ident hunter' s = s) as Hsame.
  { intros s Hoff. unfold markTreasureFound. now rewrite Hoff. }
  split; [| split].
  - intros Hlater. apply Hsame.
    pose proof (markTreasureFound_off st ident now hunter) as Hoff.
    revert Hoff Hlater. generalize (markTreasureFound now ident hunter st).
    induction later as [| a later IH]; intros s Hoff Hlater; [exact Hoff |].
    cbn [forallb fold_left] in *. apply andb_prop in Hlater as [Ha Hlater].
    apply IH; [| exact Hlater].
    apply reducer_keeps_off; [exact Hoff |]. now apply negb_true_iff.
  - apply Hsame, markTreasureFound_off.
  - split; reflexivity.
Qed.

Lemma markTreasureFound_once_witness :
  markTreasureFound "2024-05-05T09:00:00.000Z" "treasure_1" "hunter_1714550000002"
    (fold_left reducer
       [SetSearchQuery "temple"; RemoveTreasureFromNearby "treasure_2"; ClearError]
       (markTreasureFound "2024-05-05T08:40:00.000Z" "treasure_1"
          "hunter_1714550000001" temple_nearby))
  = fold_left reducer
      [SetSearchQuery "temple"; RemoveTreasureFromNearby "treasure_2"; ClearError]
      (markTreasureFound "2024-05-05T08:40:00.000Z" "treasure_1"
         "hunter_1714550000001" temple_nearby).
Proof.
  apply (markTreasureFound_once temple_nearby "treasure_1"
           "2024-05-05T08:40:00.000Z" "hunter_1714550000001"
           "2024-05-05T09:00:00.000Z" "hunter_1714550000002"
           [SetSearchQuery "temple"; RemoveTreasureFromNearby "treasure_2"; ClearError]).
  reflexivity.
Defined.

(** X19.  A hunt is closed once.  After [abandonHunt] or the reducer of
    a completed [completeTreasureHunt] there is no active hunt, and a
    completion that arrives then only switches [isLoading] off, as
    [abandonHunt] changes nothing: no treasure is marked found, the
    history and the statistics stay. *)
Theorem hunt_is_closed_once :
  forall (st : TreasureState) (first late : Completion),
    activeHunt (abandonHunt st) = None /\
    activeHunt (completeTreasureHunt_fulfilled first st) = None /\
    completeTreasureHunt_fulfilled late (abandonHunt st)
    = set_isLoading false (abandonHunt st) /\
    completeTreasureHunt_fulfilled late (completeTreasureHunt_fulfilled first st)
    = completeTreasureHunt_fulfilled first st /\
    abandonHunt (abandonHunt st) = abandonHunt st /\
    abandonHunt (completeTreasureHunt_fulfilled first st)
    = completeTreasureHunt_fulfilled first st.
Proof.
  intros st first late.
  assert (activeHunt (abandonHunt st) = None) as Habandoned.
  { unfold abandonHunt. destruct (activeHunt st) eqn:E; [reflexivity | exact E]. }
  assert (activeHunt (completeTreasureHunt_fulfilled first st) = None) as Hcompleted.
  { unfold completeTreasureHunt_fulfilled. unfold_slice.
    destruct (activeHunt st) eqn:E; [reflexivity | exact E]. }
  assert (isLoading (completeTreasureHunt_fulfilled first st) = false) as Hloading.
  { unfold completeTreasureHunt_fulfilled. unfold_slice.
    destruct (activeHunt st); [| reflexivity].
    destruct (success first), (currentTreasure st); reflexivity. }
  repeat split; try assumption.
  - unfold completeTreasureHunt_fulfilled at 1. cbn [activeHunt set_isLoading].
    now rewrite Habandoned.
  - unfold completeTreasureHunt_fulfilled at 1. cbn [activeHunt set_isLoading].
    rewrite Hcompleted.
    destruct (completeTreasureHunt_fulfilled first st); cbn in *.
    now subst.
  - unfold abandonHunt at 1. now rewrite Habandoned.
  - unfold abandonHunt. now rewrite Hcompleted.
Qed.

(** X20.  A hunt that starts for a treasure of the nearby list and is
    completed next: the hunt goes to the end of the history with the
    time of completion, as completed or failed; on success the
    treasure goes to the end of the found list, flagged and dated with
    that time, and no nearby treasure has its identifier any more; on
    failure the lists of treasures stay.  Either way no hunt is active and
    no treasure is current afterwards. *)
Theorem hunt_from_start_to_completion :
  forall (st : TreasureState) (hunt : TreasureHunt) (treasure : Treasure)
         (arrived : Completion) (st' : TreasureState),
    find_treasure (treasureId hunt) (nearbyTreasures st) = Some treasure ->
    st' = completeTreasureHunt_fulfilled arrived (startTreasureHunt_fulfilled hunt st) ->
    activeHunt st' = None /\ currentTreasure st' = None /\
    huntHistory st'
    = (huntHistory st
       ++ [closed (if success arrived then completed else failed)
             (Some (completion_completedAt arrived)) hunt])%list /\
    (if success arrived
     then id treasure = treasureId hunt /\
          foundTreasures st'
          = (foundTreasures st
             ++ [found (completion_completedAt arrived) None treasure])%list /\
          nearbyTreasures st' = without (treasureId hunt) (nearbyTreasures st) /\
          ~ In (treasureId hunt) (map id (nearbyTreasures st'))
     else foundTreasures st' = foundTreasures st /\
          nearbyTreasures st' = nearbyTreasures st).
Proof.
  intros st hunt treasure arrived st' Hfind ->.
  pose proof (find_treasure_id _ _ _ Hfind) as Hid.
  unfold startTreasureHunt_fulfilled, completeTreasureHunt_fulfilled.
  unfold_slice. rewrite Hfind. unfold_slice.
  destruct (success arrived); unfold_slice; repeat split;
    try reflexivity; try assumption.
  - change (id (found (completion_completedAt arrived) None treasure))
      with (id treasure). now rewrite Hid.
  - change (id (found (completion_completedAt arrived) None treasure))
      with (id treasure). rewrite Hid. apply without_ids.
Qed.

Lemma hunt_from_start_to_completion_witness :
  foundTreasures
    (completeTreasureHunt_fulfilled (arrival true)
       (startTreasureHunt_fulfilled temple_hunt temple_nearby))
  = [found "2024-05-05T08:40:00.000Z" None temple] /\
  nearbyTreasures
    (completeTreasureHunt_fulfilled (arrival true)
       (startTreasureHunt_fulfilled temple_hunt temple_nearby))
  = [].
Proof.
  destruct (hunt_from_start_to_completion temple_nearby temple_hunt temple
              (arrival true) _ eq_refl eq_refl)
    as (_ & _ & _ & _ & Hfound & Hnearby & _).
  split; [exact Hfound | exact Hnearby].
Defined.

End TreasureProperties.
(** * The treasures kept on the device *)

Section StoreProperties.
Import Sui JS LocalStore Samples.

#[local] Arguments String.append !_ _ / : simpl nomatch.

(** X15.  On a storage that keeps what is set, [storeTreasureLocally]
    appends: when the store holds a list of treasures (no item yet, or
    the JSON text of the list) and the treasures and the new one survive
    JSON, the store holds the list with the new treasure at its end
    afterwards, and [getLocalTreasures] returns that list. *)
Theorem storeTreasureLocally_appends :
  forall (rt : Runtime) (characters : string -> list string)
         (S : Type) (env : Env S) (items : S -> string -> option string) (s : S)
         (found : list Value) (treasureData : Value),
    keeps_items env items ->
    holds rt (items s "found_treasures") found ->
    Forall (plain rt) found ->
    plain rt treasureData ->
    let s' := snd (fst (run env (storeTreasureLocally rt characters treasureData) s)) in
    holds rt (items s' "found_treasures") (found ++ [treasureData])%list /\
    items s' "found_treasures" <> None /\
    fst (fst (run env (getLocalTreasures rt) s')) = Array (found ++ [treasureData])%list.
Proof.
  intros rt characters S env items s found treasureData [Hget Hset]
    Hholds Hfound Hnew s'.
  assert (Forall (plain rt) (found ++ [treasureData])%list) as Hall.
  { apply Forall_app. split; [exact Hfound |]. now apply Forall_cons_2. }
  assert (fst (fst (run env (getLocalTreasures rt) s)) = Array found) as Hread.
  { cbn. destruct (Hget "found_treasures" s) as [-> _].
    unfold holds in Hholds. destruct (items s "found_treasures") as [text |].
    - subst text. rewrite JSON_parse_text by now apply plain_array.
      reflexivity.
    - now subst found. }
  assert (items s' "found_treasures"
          = Some (text_of rt (Array (found ++ [treasureData])%list))) as Hitem.
  { subst s'. cbn in Hread |- *. rewrite Hread. cbn.
    rewrite Hset. reflexivity. }
  split; [| split].
  - unfold holds. now rewrite Hitem.
  - now rewrite Hitem.
  - clearbody s'. cbn. destruct (Hget "found_treasures" s') as [-> _].
    rewrite Hitem.
    rewrite JSON_parse_text by now apply plain_array. reflexivity.
Qed.

Lemma storeTreasureLocally_appends_witness :
  fst (fst (run (Ledger.world lenient lenient)
              (getLocalTreasures sample_runtime)
              (snd (fst (run (Ledger.world lenient lenient)
                           (storeTreasureLocally sample_runtime ascii_characters
                              tag_treasure)
                           (open_chain, phone "0xa11ce"))))))
  = Array [tag_treasure].
Proof.
  apply (storeTreasureLocally_appends sample_runtime ascii_characters _
           (Ledger.world lenient lenient) device_items
           (open_chain, phone "0xa11ce") [] tag_treasure).
  - split.
    + intros key [c d]. split; reflexivity.
    + intros key value [c d] k. unfold device_items. cbn.
      destruct (String.eqb_spec k key) as [-> | Hne].
      * apply lookup_insert_eq.
      * apply lookup_insert_ne. congruence.
  - reflexivity.
  - constructor.
  - apply plain_object. split.
    + cbn. repeat (apply NoDup_cons; split; [set_solver |]). apply NoDup_nil_2.
    + repeat (apply Forall_cons_2; [vm_compute; auto |]). apply Forall_nil_2.
Defined.

(** X16.  [storeTreasureLocally] writes at most once, and under
    "found_treasures" only.  When the read gives no text that
    [JSON.parse] accepts (it is rejected, there is no item, the item is
    empty or damaged), the text written is the list of the new treasure
    alone.  When the item is the text of a value that is neither an array
    nor a string, nothing is written: the new treasure is dropped. *)
Theorem storeTreasureLocally_on_a_damaged_store :
  forall (rt : Runtime) (characters : string -> list string)
         (S : Type) (env : Env S) (s : S) (treasureData : Value),
    (written (snd (run env (storeTreasureLocally rt characters treasureData) s)) = [] \/
     exists t,
       written (snd (run env (storeTreasureLocally rt characters treasureData) s))
       = [("found_treasures", t)]) /\
    ((forall text v,
         fst (env _ (StorageGet "found_treasures") s) = Ok (Some text) ->
         JSON_parse rt text <> Return v) ->
     written (snd (run env (storeTreasureLocally rt characters treasureData) s))
     = [("found_treasures", text_of rt (Array [treasureData]))]) /\
    (forall text v,
        fst (env _ (StorageGet "found_treasures") s) = Ok (Some text) ->
        text <> "" ->
        JSON_parse rt text = Return v ->
        (forall l, v <> Array l) -> (forall t, v <> Str t) ->
        written (snd (run env (storeTreasureLocally rt characters treasureData) s))
        = []).
Proof.
  intros rt characters S env s treasureData. cbn.
  destruct (fst (env _ (StorageGet "found_treasures") s))
    as [[text |] | message]; cbn.
  - destruct (String.eqb_spec text "") as [-> | Hne]; cbn.
    + split; [right; eexists; reflexivity |].
      split; [reflexivity |].
      intros text v Htext Hne. exfalso. apply Hne. congruence.
    + destruct (JSON_parse rt text) as [v | e] eqn:Hparse; cbn.
      * split; [| split].
        -- destruct v; cbn; try (left; reflexivity); right; eexists; reflexivity.
        -- intros H. exfalso. apply (H text v eq_refl). exact Hparse.
        -- intros text' v' Htext _ Hv Harray Hstr.
           injection Htext as <-. rewrite Hparse in Hv. injection Hv as <-.
           destruct v; cbn; try reflexivity.
           ++ exfalso. apply (Hstr s0). reflexivity.
           ++ exfalso. apply (Harray items). reflexivity.
      * split; [right; eexists; reflexivity |].
        split; [reflexivity |].
        intros text' v' Htext _ Hv. injection Htext as <-.
        rewrite Hparse in Hv. discriminate Hv.
  - split; [right; eexists; reflexivity |].
    split; [reflexivity |]. intros text v Htext. discriminate Htext.
  - split; [right; eexists; reflexivity |].
    split; [reflexivity |]. intros text v Htext. discriminate Htext.
Qed.

Lemma storeTreasureLocally_on_a_damaged_store_witness :
  written (snd (run offline
                  (storeTreasureLocally sample_runtime ascii_characters tag_treasure)
                  tt))
  = [("found_treasures", text_of sample_runtime (Array [tag_treasure]))] /\
  written (snd (run (Ledger.world lenient lenient)
                  (storeTreasureLocally sample_runtime ascii_characters tag_treasure)
                  (open_chain, damaged_phone)))
  = [].
Proof.
  split.
  - apply (storeTreasureLocally_on_a_damaged_store sample_runtime ascii_characters
             unit offline tt tag_treasure).
    intros text v [=].
  - destruct (storeTreasureLocally_on_a_damaged_store sample_runtime
                ascii_characters _ (Ledger.world lenient lenient)
                (open_chain, damaged_phone) tag_treasure) as (_ & _ & Hdropped).
    apply (Hdropped "{}" (Object [])).
    + reflexivity.
    + discriminate.
    + vm_compute. reflexivity.
    + discriminate.
    + discriminate.
Defined.

End StoreProperties.
